(** * DuckDB Browser: ingestion pipeline, table registry and query facade

    A shallow embedding of [src/lib/duckdb.ts] and
    [src/context/DuckDBContext.tsx], with the properties their
    specification states about them. *)

From Stdlib Require Import ZArith List String Ascii Bool Lia Arith.
From Stdlib Require Import SpecFloat DecimalString DecimalZ DecimalNat DecimalPos.
From Stdlib Require Import FinFun.
From Stdlib Require DecimalFacts.
Import ListNotations.

Local Open Scope string_scope.
Local Open Scope Z_scope.

(* ===================================================================== *)
(** * Host values *)
(* ===================================================================== *)

(** JavaScript values as [convertBigIntValues] tells them apart:
    [typeof data === 'bigint'], [Array.isArray(data)],
    [typeof data === 'object' && data !== null], and everything else.
    A [number] is an IEEE 754 binary64 value ([spec_float]); a [bigint] is a
    mathematical integer; an object is the sequence of its own enumerable
    data properties in [Object.entries] order. The prototype of an object
    is not part of the value. A row of an engine answer, which lists its
    fields in the order of the answer's schema, is an object too. *)
Unset Elimination Schemes.
Inductive JSValue : Type :=
| JUndefined
| JNull
| JBool (b : bool)
| JNumber (x : spec_float)
| JBigInt (n : Z)
| JString (s : string)
| JArray (elems : list JSValue)
| JObject (props : list (string * JSValue)).
Set Elimination Schemes.

Module Host.

(** binary64: 53 bits of mantissa, exponent of the infinities 1024. *)
Definition prec : Z := 53.
Definition emax : Z := 1024.

(** [Number(data)] on a bigint: the Number value for the integer, rounded
    to nearest, ties to even. *)
Definition Number (n : Z) : spec_float :=
  binary_normalize prec emax n 0 false.

(** The mathematical value of a Number that is a finite integer. *)
Definition integer_value (x : spec_float) : option Z :=
  match x with
  | S754_zero _ => Some 0
  | S754_finite s m e =>
      if 0 <=? e then Some (cond_Zopp s (Zpos m * 2 ^ e))
      else if (Zpos m) mod 2 ^ (- e) =? 0
           then Some (cond_Zopp s (Zpos m / 2 ^ (- e)))
           else None
  | S754_infinity _ | S754_nan => None
  end.

(** [Number.MAX_SAFE_INTEGER] = 2^53 - 1. *)
Definition MAX_SAFE_INTEGER : Z := 2 ^ 53 - 1.

(** [Number.isSafeInteger(x)]: x is an integral Number with
    |x| <= 2^53 - 1. *)
Definition isSafeInteger (x : spec_float) : bool :=
  match integer_value x with
  | Some v => Z.abs v <=? MAX_SAFE_INTEGER
  | None => false
  end.

(** [data.toString()] on a bigint: its decimal digits, with a leading
    minus sign when negative. *)
Definition BigInt_toString (n : Z) : string :=
  NilZero.string_of_int (Z.to_int n).

(** Reading a decimal numeral back as a mathematical integer. *)
Definition parse_decimal (s : string) : option Z :=
  option_map Z.of_int (NilZero.int_of_string s).

(** The array index a property key stands for: the key is the canonical
    decimal numeral of an integer from 0 to 2^32 - 2. *)
Definition array_index (key : string) : option N :=
  match NilZero.uint_of_string key with
  | Some d =>
      let n := N.of_uint d in
      if String.eqb (NilZero.string_of_uint (N.to_uint n)) key
         && (n <? 2 ^ 32 - 1)%N
      then Some n else None
  | None => None
  end.

End Host.

(* ===================================================================== *)
(** * Errors *)
(* ===================================================================== *)

(** What a thrown [Error] is told apart by: the class of the failure and its
    [message]. *)
Inductive ErrorKind : Type :=
| JsError          (** [throw new Error(...)] in the application code *)
| JsTypeError      (** a [TypeError] raised by the host *)
| ParserError      (** the engine could not parse the statement *)
| TableNotFound    (** the engine's catalog has no table of that name *)
| TableExists      (** the engine's catalog already has that table *)
| BinderError      (** the statement does not fit the table's columns *)
| IOError          (** the engine could not read the registered file *)
| EngineError.     (** any other failure reported by the engine *)

Record Error : Type := {
  kind : ErrorKind;
  message : string;
}.

(* ===================================================================== *)
(** * Strings and arrays of the host *)
(* ===================================================================== *)

(** Strings are sequences of code units, here the 8-bit characters of
    [string]; case conversion and the character classes of the regular
    expressions act on the ASCII letters and digits. *)
Module JSString.

(** [s.split(sep).pop()]: the segment after the last separator (the whole
    string when there is none). [cur] is the segment being read. *)
Fixpoint split_pop (sep : ascii) (s cur : string) : string :=
  match s with
  | EmptyString => cur
  | String c s' =>
      if Ascii.eqb c sep then split_pop sep s' ""
      else split_pop sep s' (cur ++ String c "")
  end.

Definition is_upper (c : ascii) : bool :=
  (65 <=? nat_of_ascii c)%nat && (nat_of_ascii c <=? 90)%nat.
Definition is_lower (c : ascii) : bool :=
  (97 <=? nat_of_ascii c)%nat && (nat_of_ascii c <=? 122)%nat.
Definition is_digit (c : ascii) : bool :=
  (48 <=? nat_of_ascii c)%nat && (nat_of_ascii c <=? 57)%nat.

Definition lower_char (c : ascii) : ascii :=
  if is_upper c then ascii_of_nat (nat_of_ascii c + 32) else c.

Fixpoint map_chars (f : ascii -> ascii) (s : string) : string :=
  match s with
  | EmptyString => EmptyString
  | String c s' => String (f c) (map_chars f s')
  end.

(** [s.toLowerCase()]. *)
Definition toLowerCase (s : string) : string := map_chars lower_char s.

Fixpoint drop (n : nat) (s : string) : string :=
  match n, s with
  | O, _ => s
  | S n', String _ s' => drop n' s'
  | S _, EmptyString => EmptyString
  end.

(** [s.replace(pat, '')] with a string pattern: the first occurrence of
    [pat] is removed. *)
Fixpoint remove_first (pat s : string) : string :=
  if String.prefix pat s then drop (String.length pat) s
  else match s with
       | EmptyString => EmptyString
       | String c s' => String c (remove_first pat s')
       end.

(** [s.replace(/[^a-zA-Z0-9]/g, '_')]. *)
Definition is_alnum (c : ascii) : bool := is_lower c || is_upper c || is_digit c.
Definition sanitize (s : string) : string :=
  map_chars (fun c => if is_alnum c then c else "_"%char) s.

(** [s.replace(/'/g, "''")]. *)
Fixpoint escape_quotes (s : string) : string :=
  match s with
  | EmptyString => EmptyString
  | String c s' =>
      if Ascii.eqb c "'"%char then String c (String c (escape_quotes s'))
      else String c (escape_quotes s')
  end.

(** [s.includes(sub)]. *)
Fixpoint includes (s sub : string) : bool :=
  String.prefix sub s
  || match s with
     | EmptyString => false
     | String _ s' => includes s' sub
     end.

(** [s.startsWith(p)]. *)
Definition startsWith (s p : string) : bool := String.prefix p s.

(** The double-quote character, as a string. *)
Definition dquote : string := String "034"%char "".

(** A non-negative integer inside a template literal. *)
Definition of_nat (n : nat) : string := NilZero.string_of_uint (Nat.to_uint n).

(** An integer inside a template literal. *)
Definition of_Z (n : Z) : string := NilZero.string_of_int (Z.to_int n).

(** Does the character occur in the text? *)
Fixpoint has_char (c : ascii) (s : string) : bool :=
  match s with
  | EmptyString => false
  | String d s' => Ascii.eqb d c || has_char c s'
  end.

(** The text before the first occurrence of a character and the text
    behind it. *)
Fixpoint cut (c : ascii) (s : string) : option (string * string) :=
  match s with
  | EmptyString => None
  | String d s' =>
      if Ascii.eqb d c then Some (EmptyString, s')
      else match cut c s' with
           | Some (before, behind) => Some (String d before, behind)
           | None => None
           end
  end.

End JSString.

(** A JavaScript array whose slots may be empty: [None] is a hole. The
    rows that [XLSX.utils.sheet_to_json(sheet, {header: 1})] returns have a
    hole wherever the sheet has no cell. *)
Definition JSArray (A : Type) : Type := list (option A).

Module JSArr.

(** [a.map(f)]: the callback is not called on holes, which stay holes. *)
Definition map {A B} (f : A -> B) (a : JSArray A) : JSArray B :=
  List.map (option_map f) a.

(** [a.join(sep)]: a hole contributes the empty string. *)
Fixpoint join (sep : string) (a : JSArray string) : string :=
  match a with
  | [] => ""
  | [x] => match x with Some s => s | None => "" end
  | x :: rest =>
      (match x with Some s => s | None => "" end) ++ sep ++ join sep rest
  end.

(** [a.indexOf(x)]: the first index holding a value strictly equal to
    [x]; holes are skipped; -1 when there is none. *)
Fixpoint indexOf_from {A} (eqb : A -> A -> bool) (x : A) (a : JSArray A)
  (i : Z) : Z :=
  match a with
  | [] => -1
  | Some y :: rest => if eqb y x then i else indexOf_from eqb x rest (i + 1)
  | None :: rest => indexOf_from eqb x rest (i + 1)
  end.
Definition indexOf {A} (eqb : A -> A -> bool) (x : A) (a : JSArray A) : Z :=
  indexOf_from eqb x a 0.

(** A dense array. *)
Definition dense {A} (l : list A) : JSArray A := List.map Some l.

End JSArr.

(* ===================================================================== *)
(** * Numeric normalization: [convertBigIntValues] *)
(* ===================================================================== *)

(** The own property of an object under a key. *)
Fixpoint get_prop (key : string) (props : list (string * JSValue))
  : option JSValue :=
  match props with
  | [] => None
  | (k, v) :: rest => if String.eqb k key then Some v else get_prop key rest
  end.

(** Assignment to an own property the object already has: the value
    changes, the property keeps its place. *)
Fixpoint replace_value (key : string) (v : JSValue)
  (props : list (string * JSValue)) : list (string * JSValue) :=
  match props with
  | [] => []
  | (k, w) :: rest =>
      if String.eqb k key then (k, v) :: rest
      else (k, w) :: replace_value key v rest
  end.

(** Does a new property [key] come before the property [k] in the order
    in which an object lists its properties? Array indices come first, in
    ascending numeric order; every other key comes after them, in the order
    of creation. *)
Definition goes_before (key k : string) : bool :=
  match Host.array_index key with
  | Some i =>
      match Host.array_index k with
      | Some j => (i <? j)%N
      | None => true
      end
  | None => false
  end.

(** A new own property takes its place among the others. *)
Fixpoint create_property (key : string) (v : JSValue)
  (props : list (string * JSValue)) : list (string * JSValue) :=
  match props with
  | [] => [(key, v)]
  | (k, w) :: rest =>
      if goes_before key k then (key, v) :: (k, w) :: rest
      else (k, w) :: create_property key v rest
  end.

(** [converted[key] = v] on the plain object being built. The key
    [__proto__] names an accessor that every plain object inherits: the
    assignment runs its setter, which makes [v] the prototype of the object
    when [v] is an object or [null] and does nothing otherwise; in no case
    does the object get an own property of that name. *)
Definition obj_set (key : string) (v : JSValue) (props : list (string * JSValue))
  : list (string * JSValue) :=
  if String.eqb key "__proto__" then props
  else
    match get_prop key props with
    | Some _ => replace_value key v props
    | None => create_property key v props
    end.

(** [convertBigIntValues(data)] on a value whose objects [Object.entries]
    can list. (On a row of an engine answer that has two fields of one name
    [Object.entries] raises a [TypeError] instead: see [convertBigIntValues_rows].) *)
Fixpoint convertBigIntValues (data : JSValue) : JSValue :=
  match data with
  | JBigInt n =>
      let numValue := Host.Number n in
      if Host.isSafeInteger numValue then JNumber numValue
      else JString (Host.BigInt_toString n)
  | JArray elems => JArray (map convertBigIntValues elems)
  | JObject props =>
      JObject
        (fold_left
           (fun converted kv =>
              let '(key, value) := kv in
              obj_set key (convertBigIntValues value) converted)
           props [])
  | _ => data
  end.

(** Structural induction on values, with the elements of an array and the
    property values of an object as induction hypotheses. *)
Fixpoint JSValue_ind (P : JSValue -> Prop)
  (Hundef : P JUndefined) (Hnull : P JNull)
  (Hbool : forall b, P (JBool b)) (Hnum : forall x, P (JNumber x))
  (Hbig : forall n, P (JBigInt n)) (Hstr : forall s, P (JString s))
  (Harr : forall elems, Forall P elems -> P (JArray elems))
  (Hobj : forall props, Forall (fun kv => P (snd kv)) props -> P (JObject props))
  (v : JSValue) {struct v} : P v :=
  let rec := JSValue_ind P Hundef Hnull Hbool Hnum Hbig Hstr Harr Hobj in
  match v with
  | JUndefined => Hundef
  | JNull => Hnull
  | JBool b => Hbool b
  | JNumber x => Hnum x
  | JBigInt n => Hbig n
  | JString s => Hstr s
  | JArray elems =>
      Harr elems
        ((fix all (l : list JSValue) : Forall P l :=
            match l with
            | [] => Forall_nil P
            | x :: l' => Forall_cons x (rec x) (all l')
            end) elems)
  | JObject props =>
      Hobj props
        ((fix all (l : list (string * JSValue))
            : Forall (fun kv => P (snd kv)) l :=
            match l with
            | [] => Forall_nil _
            | kv :: l' =>
                Forall_cons kv
                  (match kv return P (snd kv) with (_, x) => rec x end)
                  (all l')
            end) props)
  end.

(** A value is well formed when no object lists a key twice: property keys
    are unique in JavaScript objects. *)
Unset Elimination Schemes.
Inductive wf_value : JSValue -> Prop :=
| wf_undefined : wf_value JUndefined
| wf_null : wf_value JNull
| wf_bool b : wf_value (JBool b)
| wf_number x : wf_value (JNumber x)
| wf_bigint n : wf_value (JBigInt n)
| wf_string s : wf_value (JString s)
| wf_array elems : Forall wf_value elems -> wf_value (JArray elems)
| wf_object props :
    NoDup (map fst props) ->
    Forall (fun kv => wf_value (snd kv)) props ->
    wf_value (JObject props).
Set Elimination Schemes.

(** Does a bigint occur anywhere in the value? *)
Fixpoint has_bigint (v : JSValue) : bool :=
  match v with
  | JBigInt _ => true
  | JArray elems => existsb has_bigint elems
  | JObject props => existsb (fun kv => has_bigint (snd kv)) props
  | _ => false
  end.

(** Does an object of the value, at any depth, have an own property named
    [__proto__]? (The result of [JSON.parse] can have one, and so can a
    row of an engine answer whose schema has a column of that name.) *)
Fixpoint has_proto_key (v : JSValue) : bool :=
  match v with
  | JArray elems => existsb has_proto_key elems
  | JObject props =>
      existsb (fun kv => String.eqb (fst kv) "__proto__" || has_proto_key (snd kv))
              props
  | _ => false
  end.

(** Keys in the order in which an object lists its own properties: no key
    would have been placed before one that precedes it. *)
Fixpoint in_property_order (keys : list string) : bool :=
  match keys with
  | [] => true
  | k :: rest =>
      forallb (fun k' => negb (goes_before k' k)) rest && in_property_order rest
  end.

(** Every object of the value lists its keys in property order, as every
    plain object does. *)
Fixpoint keys_in_order (v : JSValue) : bool :=
  match v with
  | JArray elems => forallb keys_in_order elems
  | JObject props =>
      in_property_order (map fst props)
      && forallb (fun kv => keys_in_order (snd kv)) props
  | _ => true
  end.

(** Does a key occur twice in a list of keys? *)
Fixpoint has_duplicates (l : list string) : bool :=
  match l with
  | [] => false
  | x :: rest => existsb (String.eqb x) rest || has_duplicates rest
  end.

(** Does some object of the value, at any depth, list a key twice? Only a
    row of an engine answer can: the answer of a query that selects two
    columns under one name. *)
Fixpoint repeats_key (v : JSValue) : bool :=
  match v with
  | JArray elems => existsb repeats_key elems
  | JObject props =>
      has_duplicates (map fst props)
      || existsb (fun kv => repeats_key (snd kv)) props
  | _ => false
  end.

(** The [TypeError] of [Object.entries] on a row that reports a field name
    twice. *)
Definition duplicate_keys_error : Error :=
  {| kind := JsTypeError;
     message := "'ownKeys' on proxy: trap returned duplicate entries" |}.

(** [convertBigIntValues(rows)] on the rows of an engine answer: when the
    traversal reaches a row that lists a field name twice, the
    [Object.entries] of the conversion raises a [TypeError]; otherwise the
    rows are converted. *)
Definition convertBigIntValues_rows (rows : list JSValue) : Error + JSValue :=
  if existsb repeats_key rows then inl duplicate_keys_error
  else inr (convertBigIntValues (JArray rows)).

(** Positions inside a nested value: [v[i]] and [v[key]]. *)
Inductive Step : Type :=
| Index (i : nat)
| Key (k : string).

Fixpoint get_path (path : list Step) (v : JSValue) : option JSValue :=
  match path with
  | [] => Some v
  | Index i :: path' =>
      match v with
      | JArray elems =>
          match nth_error elems i with
          | Some x => get_path path' x
          | None => None
          end
      | _ => None
      end
  | Key k :: path' =>
      match v with
      | JObject props =>
          match get_prop k props with
          | Some x => get_path path' x
          | None => None
          end
      | _ => None
      end
  end.

(** Does a position go through an own property named [__proto__]? *)
Definition through_proto (path : list Step) : bool :=
  existsb (fun step => match step with
                       | Key k => String.eqb k "__proto__"
                       | Index _ => false
                       end) path.

(** A leaf that is neither a bigint nor a container. *)
Definition is_plain_leaf (v : JSValue) : bool :=
  match v with
  | JBigInt _ | JArray _ | JObject _ => false
  | _ => true
  end.

(** The rule of the specification, word for word: a wide integer becomes a
    number when it fits within the safe-integer range and its decimal string
    otherwise; sequences and keyed mappings keep their shape and every leaf
    follows the same rule. *)
Fixpoint normalize_spec (v : JSValue) : JSValue :=
  match v with
  | JBigInt n =>
      if Z.abs n <=? Host.MAX_SAFE_INTEGER then JNumber (Host.Number n)
      else JString (Host.BigInt_toString n)
  | JArray elems => JArray (map normalize_spec elems)
  | JObject props =>
      JObject (map (fun kv => (fst kv, normalize_spec (snd kv))) props)
  | _ => v
  end.

(** One iteration of the loop that fills [converted] in
    [convertBigIntValues]. *)
Definition convert_entry (converted : list (string * JSValue))
  (kv : string * JSValue) : list (string * JSValue) :=
  let '(key, value) := kv in obj_set key (convertBigIntValues value) converted.

(* ===================================================================== *)
(** * More of the host: white space, slices, [String(value)] *)
(* ===================================================================== *)

Module JSText.

(** The white space and line terminators that [trim] removes, among the
    8-bit code units: TAB, LF, VT, FF, CR, SPACE and NO-BREAK SPACE. *)
Definition is_space (c : ascii) : bool :=
  let n := nat_of_ascii c in
  ((9 <=? n)%nat && (n <=? 13)%nat) || (n =? 32)%nat || (n =? 160)%nat.

Fixpoint trimStart (s : string) : string :=
  match s with
  | EmptyString => EmptyString
  | String c s' => if is_space c then trimStart s' else s
  end.

Fixpoint trimEnd (s : string) : string :=
  match s with
  | EmptyString => EmptyString
  | String c s' =>
      match trimEnd s' with
      | EmptyString => if is_space c then EmptyString else String c EmptyString
      | t => String c t
      end
  end.

(** [s.trim()] *)
Definition trim (s : string) : string := trimEnd (trimStart s).

Fixpoint has_dot (s : string) : bool :=
  match s with
  | EmptyString => false
  | String c s' => Ascii.eqb c "."%char || has_dot s'
  end.

(** [s.replace(/\.[^.]+$/, '')]: the leftmost dot that is followed, up to
    the end of the string, by one or more characters none of which is a dot
    is removed with everything behind it. *)
Fixpoint strip_extension (s : string) : string :=
  match s with
  | EmptyString => EmptyString
  | String c s' =>
      if Ascii.eqb c "."%char && negb (String.eqb s' "") && negb (has_dot s')
      then EmptyString
      else String c (strip_extension s')
  end.

(** [a.slice(start, end)] with integer arguments: a negative index counts
    from the end, and both are clamped to the array. *)
Definition slice {A} (a : list A) (start end_ : Z) : list A :=
  let len := Z.of_nat (List.length a) in
  let k := if start <? 0 then Z.max (len + start) 0 else Z.min start len in
  let final := if end_ <? 0 then Z.max (len + end_) 0 else Z.min end_ len in
  firstn (Z.to_nat (final - k)) (skipn (Z.to_nat k) a).

(** The line feed, as a string. *)
Definition newline : string := String "010"%char "".

(** The replacement of every double quote by two of them, as
    [str.replace] does with the global pattern of exportAsCSV. *)
Fixpoint double_quotes (s : string) : string :=
  match s with
  | EmptyString => EmptyString
  | String c s' =>
      if Ascii.eqb c "034"%char then String c (String c (double_quotes s'))
      else String c (double_quotes s')
  end.

Section ToString.

Variable Number_toString : spec_float -> string.

(** [String(value)]. An array is its elements joined by commas, [null] and
    [undefined] elements contributing nothing; a plain object is
    [[object Object]]. *)
Fixpoint JS_String (value : JSValue) : string :=
  match value with
  | JUndefined => "undefined"
  | JNull => "null"
  | JBool true => "true"
  | JBool false => "false"
  | JNumber x => Number_toString x
  | JBigInt n => Host.BigInt_toString n
  | JString s => s
  | JArray elems =>
      (fix join (l : list JSValue) : string :=
         match l with
         | [] => ""
         | x :: rest =>
             (match x with
              | JUndefined | JNull => ""
              | _ => JS_String x
              end)
             ++ match rest with
                | [] => ""
                | _ => "," ++ join rest
                end
         end) elems
  | JObject _ => "[object Object]"
  end.

End ToString.

(** The array index a property key stands for, when it is the decimal
    numeral of an index below [len]. *)
Definition index_of_key (key : string) (len : nat) : option nat :=
  find (fun k => String.eqb (JSString.of_nat k) key) (seq 0 len).

(** [value[key]] for a key that names no member inherited from a
    prototype ([constructor], [toString] and the like are not values of
    [JSValue]): an own property of an object, an element of an array by
    its index written in decimal or the array's [length], a character of a
    string or the string's [length]; [undefined] when there is none. On
    [null] and [undefined] the host raises a [TypeError]. *)
Definition get_member (value : JSValue) (key : string) : Error + JSValue :=
  match value with
  | JUndefined =>
      inl {| kind := JsTypeError;
             message := "Cannot read properties of undefined (reading '"
                        ++ key ++ "')" |}
  | JNull =>
      inl {| kind := JsTypeError;
             message := "Cannot read properties of null (reading '"
                        ++ key ++ "')" |}
  | JObject props =>
      inr (match get_prop key props with
           | Some v => v
           | None => JUndefined
           end)
  | JArray elems =>
      inr (match index_of_key key (List.length elems) with
           | Some k => nth k elems JUndefined
           | None =>
               if String.eqb key "length"
               then JNumber (Host.Number (Z.of_nat (List.length elems)))
               else JUndefined
           end)
  | JString s =>
      inr (match index_of_key key (String.length s) with
           | Some k => JString (String.substring k 1 s)
           | None =>
               if String.eqb key "length"
               then JNumber (Host.Number (Z.of_nat (String.length s)))
               else JUndefined
           end)
  | JBool _ | JNumber _ | JBigInt _ => inr JUndefined
  end.

End JSText.

(* ===================================================================== *)
(** * Reading what the ingestion writes *)
(* ===================================================================== *)

(** How SQL reads a character string literal: the text between the single
    quotes, two adjacent quotes standing for one. *)
Module Sql.

Fixpoint read_quoted (s : string) : option string :=
  match s with
  | EmptyString => None
  | String c s' =>
      if Ascii.eqb c "'"%char then
        match s' with
        | EmptyString => Some EmptyString
        | String c' s'' =>
            if Ascii.eqb c' "'"%char
            then option_map (String "'"%char) (read_quoted s'')
            else None
        end
      else option_map (String c) (read_quoted s')
  end.

Definition read_literal (s : string) : option string :=
  match s with
  | String c s' => if Ascii.eqb c "'"%char then read_quoted s' else None
  | EmptyString => None
  end.

End Sql.

(* ===================================================================== *)
(** * Table registry: names *)
(* ===================================================================== *)

Record TableInfo : Type := {
  name : string;
  fileType : string;
  fileName : string;
}.

(** [file.name.split('.').pop()?.toLowerCase() || ''] *)
Definition file_ext (file_name : string) : string :=
  JSString.toLowerCase (JSString.split_pop "."%char file_name "").

(** The [while] loop of [generateTableName]: as long as some registered
    table bears [finalName], the next numbered candidate is tried. [fuel]
    bounds the number of iterations. *)
Fixpoint generateTableName_loop (fuel : nat) (tables : list TableInfo)
  (tableName finalName : string) (counter : nat) : option string :=
  match fuel with
  | O => None
  | S fuel' =>
      if existsb (fun t => String.eqb (name t) finalName) tables
      then generateTableName_loop fuel' tables tableName
             (tableName ++ "_" ++ JSString.of_nat counter) (S counter)
      else Some finalName
  end.

(** [generateTableName(fileName, ext)] inside a render whose closure holds
    [tables]. One more iteration than there are tables always suffices
    ([generateTableName_loop_terminates]). *)
Definition generateTableName_base (file_name ext : string) : string :=
  let baseName :=
    JSString.sanitize (JSString.remove_first ("." ++ ext) file_name) in
  "file_" ++ ext ++ "_" ++ baseName.

Definition generateTableName (tables : list TableInfo) (file_name ext : string)
  : string :=
  let tableName := generateTableName_base file_name ext in
  match generateTableName_loop (S (List.length tables)) tables tableName tableName 1 with
  | Some finalName => finalName
  | None => tableName
  end.

(** The candidates [generateTableName] tries, in order: the base name, then
    the base name with the suffixes _1, _2, ... *)
Definition candidate (tableName : string) (k : nat) : string :=
  match k with
  | O => tableName
  | S _ => tableName ++ "_" ++ JSString.of_nat k
  end.

(** [tables.some(t => t.name === n)] *)
Definition taken (tables : list TableInfo) (n : string) : bool :=
  existsb (fun t => String.eqb (name t) n) tables.

(** The characters of a plain SQL identifier (letters, digits and the
    underscore), and the texts made of them. *)
Definition is_word_char (c : ascii) : bool :=
  JSString.is_alnum c || Ascii.eqb c "_"%char.

Fixpoint is_word (s : string) : bool :=
  match s with
  | EmptyString => true
  | String c s' => is_word_char c && is_word s'
  end.

(** A name that can stand in a statement as it is: a word that does not
    begin with a digit. *)
Definition is_identifier (s : string) : bool :=
  match s with
  | EmptyString => false
  | String c _ => negb (JSString.is_digit c) && is_word s
  end.

(** The engine compares the names of tables and columns without regard to
    the case of their letters. *)
Definition same_name (a b : string) : bool :=
  String.eqb (JSString.toLowerCase a) (JSString.toLowerCase b).

Definition is_excel (ext : string) : bool :=
  String.eqb ext "xlsx" || String.eqb ext "xls".
(* ===================================================================== *)
(** * The embedded engine, as the ingestion code sees it *)
(* ===================================================================== *)

(** A cell of a parsed spreadsheet grid. *)
Inductive Cell : Type :=
| CellString (s : string)
| CellNumber (x : spec_float)
| CellBool (b : bool)
| CellNull
| CellUndefined.

(** What the collaborators find in a [File]: the engine's readers (a
    delimited-text or Parquet body with its columns, each a name and a
    declared type) or the spreadsheet parser (the grid of the first sheet,
    as [XLSX.utils.sheet_to_json(worksheet, {header: 1})] returns it). *)
Inductive FileBody : Type :=
| Tabular (columns : list (string * string)) (nrows : nat) (direct_scan : bool)
| Workbook (jsonData : list (JSArray Cell))
| Unreadable.

Record File : Type := {
  file_name : string;
  body : FileBody;
}.

(** The statements the application sends through [conn.query], each a
    template literal with its holes. Column definitions and row values are
    kept as the arrays the code joins with [', ']; [sql_text] is the text
    that is sent, which is all the engine gets to see, with the line breaks
    and the indentation of the template literals written as single
    spaces. *)
Inductive Stmt : Type :=
| CreateTableAsCsv (tableName fileName : string)
| CreateTableAsParquet (tableName fileName : string)
| DescribeParquet (fileName : string)
| CreateTable (tableName : string) (columns : JSArray string)
| InsertFromParquet (tableName fileName : string)
| InsertValues (tableName : string) (values : JSArray string)
| UserSql (sql : string).

(** The row count query of [handleExploreFile] in [FileSelector.tsx], which
    goes through [runQuery] as text. *)
Definition count_rows_sql (tableName : string) : string :=
  "SELECT COUNT(*) as cnt FROM " ++ tableName.

Definition sql_text (s : Stmt) : string :=
  match s with
  | CreateTableAsCsv t f =>
      "CREATE TABLE " ++ t ++ " AS SELECT * FROM read_csv_auto('memory://" ++ f ++ "')"
  | CreateTableAsParquet t f =>
      "CREATE TABLE " ++ t ++ " AS SELECT * FROM parquet_scan('memory://" ++ f ++ "')"
  | DescribeParquet f =>
      "DESCRIBE parquet_scan('memory://" ++ f ++ "')"
  | CreateTable t columns =>
      "CREATE TABLE " ++ t ++ " (" ++ JSArr.join ", " columns ++ ")"
  | InsertFromParquet t f =>
      "INSERT INTO " ++ t ++ " SELECT * FROM ( SELECT * FROM parquet_scan('memory://"
        ++ f ++ "') ) t"
  | InsertValues t values =>
      "INSERT INTO " ++ t ++ " VALUES (" ++ JSArr.join ", " values ++ ")"
  | UserSql sql => sql
  end.

(** The table a statement creates, if it is one of the application's
    [CREATE TABLE] statements. *)
Definition created_table (s : Stmt) : option string :=
  match s with
  | CreateTableAsCsv t _ | CreateTableAsParquet t _ | CreateTable t _ => Some t
  | _ => None
  end.

(** The statements of the ingestion code that leave the catalog alone when
    they succeed. *)
Definition keeps_catalog (s : Stmt) : bool :=
  match s with
  | DescribeParquet _ | InsertFromParquet _ _ | InsertValues _ _ => true
  | _ => false
  end.


(** ** Names that stay where the template puts them *)

(** The templates splice their names into the text as they are. A file
    name stands between single quotes and a column name between double
    quotes, and neither is escaped: a name that holds the quote ends the
    quoted text early, and the engine reads what follows the quote as
    part of the statement, or as further statements. A table name stands
    bare. The texts below are the ones in which every name stays where
    its template puts it. *)

(** A file name inside the single quotes of a reader's URL. *)
Definition clean_file_name (f : string) : bool :=
  negb (JSString.has_char "'"%char f).

(** A column definition of [CREATE TABLE]: a name without a double quote
    between double quotes, a space, and the name of a type. *)
Definition clean_column (column : string) : bool :=
  match column with
  | String q rest =>
      Ascii.eqb q "034"%char
      && match JSString.cut "034"%char rest with
         | Some (_, String sp type) =>
             Ascii.eqb sp " "%char && is_word type
             && negb (String.eqb type "")
         | _ => false
         end
  | EmptyString => false
  end.

(** A value of [INSERT ... VALUES]: the keyword NULL, or a string literal
    that ends where the value ends. *)
Definition clean_value (value : string) : bool :=
  String.eqb value "NULL"
  || match Sql.read_literal value with
     | Some _ => true
     | None => false
     end.

(** The slots of an array, holes apart, pass a test. *)
Definition all_present {A} (test : A -> bool) (a : JSArray A) : bool :=
  forallb (fun slot => match slot with
                       | Some x => test x
                       | None => true
                       end) a.

(** The statements of the application in which every name stays where its
    template puts it. What the user types is not among them. *)
Definition clean (s : Stmt) : bool :=
  match s with
  | CreateTableAsCsv t f | CreateTableAsParquet t f | InsertFromParquet t f =>
      is_identifier t && clean_file_name f
  | DescribeParquet f => clean_file_name f
  | CreateTable t columns => is_identifier t && all_present clean_column columns
  | InsertValues t values => is_identifier t && all_present clean_value values
  | UserSql _ => false
  end.

(** ** Answers *)

(** The result of a successful [conn.query]: [result.schema.fields] (their
    names) and [result.toArray()], one object per row with the fields of
    the schema as its keys. *)
Record ArrowTable : Type := {
  fields : list string;
  toArray : list JSValue;
}.

(** The fields of a row of a [DESCRIBE] answer. *)
Definition describe_fields : list string :=
  ["column_name"; "column_type"; "null"; "key"; "default"; "extra"].

Definition is_scalar (v : JSValue) : bool :=
  match v with
  | JArray _ | JObject _ => false
  | _ => true
  end.

(** A row of a [DESCRIBE] answer: an object keyed by those fields, each
    holding a text or nothing. *)
Definition describe_shaped (row : JSValue) : bool :=
  match row with
  | JObject props =>
      (if list_eq_dec string_dec (map fst props) describe_fields
       then true else false)
      && forallb (fun kv => is_scalar (snd kv)) props
  | _ => false
  end.

(** ** The contract *)

(** The engine contract the application relies on. The engine is given the
    text of a statement and either fails or answers. For the clean
    statements of the application the catalog of tables changes only as
    standard DDL says, a failed statement changes nothing, and the rows of
    a table are counted as they are inserted; for every other text the
    contract says nothing. *)
Record Engine : Type := {
  state : Type;
  query : string -> state -> (Error + ArrowTable) * state;
  registerFileHandle : string -> File -> state -> (Error + unit) * state;
  (** Does a table name resolve in the catalog? *)
  has_table : state -> string -> bool;
  (** The number of rows of the table a name resolves to. *)
  row_count : state -> string -> nat;

  failed_statement_changes_nothing : forall s st e st',
    clean s = true -> query (sql_text s) st = (inl e, st') ->
    forall n, has_table st' n = has_table st n
              /\ row_count st' n = row_count st n;
  create_adds_table : forall s t st a st',
    clean s = true -> created_table s = Some t ->
    query (sql_text s) st = (inr a, st') ->
    forall n, has_table st' n = same_name n t || has_table st n;
  create_existing_fails : forall s t st,
    clean s = true -> created_table s = Some t -> has_table st t = true ->
    exists e st', query (sql_text s) st = (inl e, st');
  other_statements_keep_catalog : forall s st a st',
    clean s = true -> keeps_catalog s = true ->
    query (sql_text s) st = (inr a, st') ->
    forall n, has_table st' n = has_table st n;
  created_table_is_empty : forall t columns st a st',
    clean (CreateTable t columns) = true ->
    query (sql_text (CreateTable t columns)) st = (inr a, st') ->
    forall n, row_count st' n = if same_name n t then O else row_count st n;
  insert_adds_one_row : forall t values st a st',
    clean (InsertValues t values) = true ->
    query (sql_text (InsertValues t values)) st = (inr a, st') ->
    forall n, row_count st' n
              = if same_name n t then S (row_count st n) else row_count st n;
  describe_answer_is_keyed : forall f st a st',
    clean (DescribeParquet f) = true ->
    query (sql_text (DescribeParquet f)) st = (inr a, st') ->
    forallb describe_shaped (toArray a) = true;
  registerFileHandle_keeps_catalog : forall url f st r st',
    registerFileHandle url f st = (r, st') ->
    forall n, has_table st' n = has_table st n
              /\ row_count st' n = row_count st n;
}.

(* ===================================================================== *)
(** * [src/lib/duckdb.ts]: ingestion and queries *)
(* ===================================================================== *)

Section Lib.

Variable E : Engine.

(** [Number.prototype.toString], as [String(value)] uses it on a numeric
    cell. *)
Variable Number_toString : spec_float -> string.

(** The module state ([db] and [conn], which [initDuckDB] sets together:
    [initialized] says that they are set), the engine behind the
    connection, and the statements sent so far. *)
Record World : Type := {
  initialized : bool;
  eng : state E;
  sent : list Stmt;
}.

(** Asynchronous code that awaits each call before the next one: a state
    transformer that either throws or returns. *)
Definition Async (A : Type) : Type := World -> (Error + A) * World.

Definition ret {A} (a : A) : Async A := fun w => (inr a, w).
Definition throw {A} (e : Error) : Async A := fun w => (inl e, w).
Definition throw_Error {A} (msg : string) : Async A :=
  throw {| kind := JsError; message := msg |}.
Definition bind {A B} (m : Async A) (k : A -> Async B) : Async B :=
  fun w => match m w with
           | (inr a, w') => k a w'
           | (inl e, w') => (inl e, w')
           end.
Definition try_catch {A} (m : Async A) (handler : Error -> Async A) : Async A :=
  fun w => match m w with
           | (inr a, w') => (inr a, w')
           | (inl e, w') => handler e w'
           end.

(** Synchronous code that either throws or returns, inside asynchronous
    code. *)
Definition lift {A} (r : Error + A) : Async A :=
  match r with
  | inl e => throw e
  | inr a => ret a
  end.

Local Notation "x <- m ;; k" := (bind m (fun x => k))
  (at level 61, m at next level, right associativity).
Local Notation "m ;;; k" := (bind m (fun _ => k))
  (at level 61, right associativity).

(** [await conn.query(sql)]: the engine is given the text of the
    statement. *)
Definition conn_query (s : Stmt) : Async ArrowTable :=
  fun w =>
    let '(r, st') := query E (sql_text s) (eng w) in
    (r, {| initialized := initialized w; eng := st';
           sent := (sent w ++ [s])%list |}).

(** [await db.registerFileHandle(url, file, BROWSER_FILEREADER, true)] *)
Definition db_registerFileHandle (url : string) (file : File) : Async unit :=
  fun w =>
    let '(r, st') := registerFileHandle E url file (eng w) in
    (r, {| initialized := initialized w; eng := st'; sent := sent w |}).

(** [for (const x of xs) { await body(x) }] *)
Fixpoint for_of {A} (xs : list A) (body : A -> Async unit) : Async unit :=
  match xs with
  | [] => ret tt
  | x :: rest => body x ;;; for_of rest body
  end.

(** ** Parquet fallback: the rewritten schema *)

(** The [TypeError] the host raises for [undefined.includes(...)]. *)
Definition includes_of_undefined : Error :=
  {| kind := JsTypeError;
     message := "Cannot read properties of undefined (reading 'includes')" |}.

(** [columnType.includes(text)], with the method the value has: a string
    looks for a substring and an array for an element; no other value has
    such a method, and on [undefined] and [null] reading the property
    already raises the [TypeError]. *)
Definition columnType_includes (columnType : JSValue) (text : string)
  : Error + bool :=
  match columnType with
  | JString s => inr (JSString.includes s text)
  | JArray elems =>
      inr (existsb (fun x => match x with
                             | JString s => String.eqb s text
                             | _ => false
                             end) elems)
  | JUndefined => inl includes_of_undefined
  | JNull =>
      inl {| kind := JsTypeError;
             message := "Cannot read properties of null (reading 'includes')" |}
  | _ =>
      inl {| kind := JsTypeError;
             message := "columnType.includes is not a function" |}
  end.

(** The callback of [schemaRows.map]: [row[0]] is taken for the column
    name and [row[1]] for its declared type, as the source's cast
    [unknown[][]] says. *)
Definition schema_column (row : JSValue) : Error + string :=
  match JSText.get_member row "0" with
  | inl e => inl e
  | inr columnName =>
      match JSText.get_member row "1" with
      | inl e => inl e
      | inr columnType =>
          let name := JSText.JS_String Number_toString columnName in
          let varchar := JSString.dquote ++ name ++ JSString.dquote ++ " VARCHAR" in
          match columnType_includes columnType "BIGINT" with
          | inl e => inl e
          | inr true => inr varchar
          | inr false =>
              match columnType_includes columnType "HUGEINT" with
              | inl e => inl e
              | inr true => inr varchar
              | inr false =>
                  inr (JSString.dquote ++ name ++ JSString.dquote ++ " "
                       ++ JSText.JS_String Number_toString columnType)
              end
          end
      end
  end.

(** [schemaRows.map(row => ...)]: the first row that throws ends the map. *)
Fixpoint schema_columns (schemaRows : list JSValue) : Error + list string :=
  match schemaRows with
  | [] => inr []
  | row :: rest =>
      match schema_column row with
      | inl e => inl e
      | inr c => match schema_columns rest with
                 | inl e => inl e
                 | inr cs => inr (c :: cs)
                 end
      end
  end.

Definition rows_of (v : JSValue) : list JSValue :=
  match v with
  | JArray elems => elems
  | _ => []
  end.

(** ** Spreadsheet: headers and row values *)

(** Truthiness of a header cell in [header || ...]. *)
Definition cell_truthy (c : Cell) : bool :=
  match c with
  | CellString s => negb (String.eqb s "")
  | CellNumber x =>
      match x with
      | S754_zero _ | S754_nan => false
      | _ => true
      end
  | CellBool b => b
  | CellNull | CellUndefined => false
  end.

(** Strict equality [===] on cells, as [indexOf] uses it. *)
Definition cell_strict_eqb (a b : Cell) : bool :=
  match a, b with
  | CellString s, CellString t => String.eqb s t
  | CellNumber x, CellNumber y => SFeqb x y
  | CellBool x, CellBool y => Bool.eqb x y
  | CellNull, CellNull => true
  | CellUndefined, CellUndefined => true
  | _, _ => false
  end.

(** [String(value)], and a cell inside a template literal. *)
Definition cell_toString (c : Cell) : string :=
  match c with
  | CellString s => s
  | CellNumber x => Number_toString x
  | CellBool true => "true"
  | CellBool false => "false"
  | CellNull => "null"
  | CellUndefined => "undefined"
  end.

(** [`"${header || `column_${headers.indexOf(header)}`}" VARCHAR`] *)
Definition header_column (headers : JSArray Cell) (header : Cell) : string :=
  JSString.dquote
  ++ (if cell_truthy header then cell_toString header
      else "column_" ++ JSString.of_Z (JSArr.indexOf cell_strict_eqb header headers))
  ++ JSString.dquote ++ " VARCHAR".

Definition header_columns (headers : JSArray Cell) : JSArray string :=
  JSArr.map (header_column headers) headers.

(** The callback of [row.map] in the insertion loop. *)
Definition cell_literal (value : Cell) : string :=
  match value with
  | CellNull | CellUndefined => "NULL"
  | _ => "'" ++ JSString.escape_quotes (cell_toString value) ++ "'"
  end.

(** [while (values.length < headers.length) values.push('NULL')]:
    [deficit] is the number of iterations left. *)
Fixpoint push_nulls (deficit : nat) (values : JSArray string) : JSArray string :=
  match deficit with
  | O => values
  | S d => push_nulls d (values ++ [Some "NULL"])%list
  end.

Definition row_values (headers row : JSArray Cell) : JSArray string :=
  let values := JSArr.map cell_literal row in
  push_nulls (List.length headers - List.length values) values.

(** [XLSX.read(buffer)], the first sheet ([workbook.SheetNames[0]]) and
    its [sheet_to_json]. A body that is no workbook makes the parser
    throw. *)
Definition xlsx_first_sheet (file : File) : Async (list (JSArray Cell)) :=
  match body file with
  | Workbook jsonData => ret jsonData
  | _ => throw_Error "File is not a spreadsheet"
  end.

(** The body of [for (const row of rows)]. *)
Definition insert_row (tableName : string) (headers row : JSArray Cell)
  : Async unit :=
  if (0 <? List.length row)%nat
  then conn_query (InsertValues tableName (row_values headers row)) ;;; ret tt
  else ret tt.

Definition registerFileAsTable (file : File) (tableName : string) : Async unit :=
  fun w =>
  if negb (initialized w) then throw_Error "DuckDB not initialized" w
  else
    let ext := JSString.toLowerCase (JSString.split_pop "."%char (file_name file) "") in
    let url := "memory://" ++ file_name file in
    if String.eqb ext "csv" then
      (db_registerFileHandle url file ;;;
       conn_query (CreateTableAsCsv tableName (file_name file)) ;;;
       ret tt) w
    else if String.eqb ext "parquet" then
      (db_registerFileHandle url file ;;;
       try_catch
         (conn_query (CreateTableAsParquet tableName (file_name file)) ;;; ret tt)
         (fun error =>
            schemaResult <- conn_query (DescribeParquet (file_name file)) ;;
            converted <- lift (convertBigIntValues_rows (toArray schemaResult)) ;;
            let schemaRows := rows_of converted in
            columns <- lift (schema_columns schemaRows) ;;
            conn_query (CreateTable tableName (JSArr.dense columns)) ;;;
            conn_query (InsertFromParquet tableName (file_name file)) ;;;
            ret tt)) w
    else if String.eqb ext "xlsx" || String.eqb ext "xls" then
      (jsonData <- xlsx_first_sheet file ;;
       match jsonData with
       | [] => throw_Error "Excel file is empty or could not be parsed"
       | headers :: rows =>
           conn_query (CreateTable tableName (header_columns headers)) ;;;
           for_of rows (insert_row tableName headers)
       end) w
    else throw_Error "Unsupported file type" w.



(** ** Names of a file that stay inside their quotes *)

(** A header cell whose column name, as [header_column] writes it between
    double quotes, holds no double quote. A placeholder never does. *)
Definition header_stays_quoted (header : Cell) : bool :=
  negb (cell_truthy header)
  || negb (JSString.has_char "034"%char (cell_toString header)).

(** The names of the file that an ingestion splices into its statements
    stay where the templates put them: the header cells of a spreadsheet
    hold no double quote; the name of any other file holds no single
    quote. *)
Definition names_stay_quoted (file : File) : bool :=
  if is_excel (file_ext (file_name file)) then
    match body file with
    | Workbook (headers :: _) => all_present header_stays_quoted headers
    | _ => true
    end
  else clean_file_name (file_name file).

(** What [runQuery] returns. *)
Record QueryResult : Type := {
  columns : list string;
  rows : list JSValue;
}.

(** [runQuery(sql)] *)
Definition runQuery (sql : string) : Async QueryResult :=
  fun w =>
  if negb (initialized w) then throw_Error "DuckDB connection not initialized" w
  else
    (result <- conn_query (UserSql sql) ;;
     let columns := fields result in
     let rows := toArray result in
     serializableRows <- lift (convertBigIntValues_rows rows) ;;
     ret {| columns := columns; rows := rows_of serializableRows |}) w.

End Lib.

Arguments initialized {E} _.
Arguments eng {E} _.
Arguments sent {E} _.
Arguments ret {E A} _ _.
Arguments throw {E A} _ _.
Arguments throw_Error {E A} _ _.
Arguments bind {E A B} _ _ _.
Arguments try_catch {E A} _ _ _.
Arguments lift {E A} _ _.
Arguments conn_query {E} _ _.
Arguments db_registerFileHandle {E} _ _ _.
Arguments for_of {E A} _ _ _.

(* ===================================================================== *)
(** * [src/context/DuckDBContext.tsx]: provider state and actions *)
(* ===================================================================== *)

Section Provider.

Variable E : Engine.
Variable Number_toString : spec_float -> string.

(** The [useState] cells of [DuckDBProvider]. *)
Record ProviderState : Type := {
  isInitialized : bool;
  isLoading : bool;
  error : option string;
  tables : list TableInfo;
  queryResult : option QueryResult;
  isQueryRunning : bool;
}.

Definition setIsLoading (b : bool) (s : ProviderState) : ProviderState :=
  {| isInitialized := isInitialized s; isLoading := b; error := error s;
     tables := tables s; queryResult := queryResult s;
     isQueryRunning := isQueryRunning s |}.

Definition setError (e : option string) (s : ProviderState) : ProviderState :=
  {| isInitialized := isInitialized s; isLoading := isLoading s; error := e;
     tables := tables s; queryResult := queryResult s;
     isQueryRunning := isQueryRunning s |}.

(** [setTables(prev => f(prev))] *)
Definition setTables (f : list TableInfo -> list TableInfo) (s : ProviderState)
  : ProviderState :=
  {| isInitialized := isInitialized s; isLoading := isLoading s; error := error s;
     tables := f (tables s); queryResult := queryResult s;
     isQueryRunning := isQueryRunning s |}.

Definition setQueryResult (r : option QueryResult) (s : ProviderState)
  : ProviderState :=
  {| isInitialized := isInitialized s; isLoading := isLoading s; error := error s;
     tables := tables s; queryResult := r;
     isQueryRunning := isQueryRunning s |}.

Definition setIsQueryRunning (b : bool) (s : ProviderState) : ProviderState :=
  {| isInitialized := isInitialized s; isLoading := isLoading s; error := error s;
     tables := tables s; queryResult := queryResult s;
     isQueryRunning := b |}.

(** The running application: the provider's current state and the library
    module with its engine. *)
Record App : Type := {
  ui : ProviderState;
  world : World E;
}.

(** [registerFile(file)]. The function is a closure of one render:
    [render] is the provider state that render saw, and it is what
    [isInitialized] and (inside [generateTableName]) [tables] read. State
    updates go to the current state. *)
Definition registerFile (render : ProviderState) (file : File) (a : App) : App :=
  if negb (isInitialized render) then
    {| ui := setError (Some "DuckDB not initialized") (ui a); world := world a |}
  else
    let ui1 := setError None (setIsLoading true (ui a)) in
    let ext := file_ext (file_name file) in
    let tableName := generateTableName (tables render) (file_name file) ext in
    match registerFileAsTable E Number_toString file tableName (world a) with
    | (inr _, w') =>
        let newTable :=
          {| name := tableName; fileType := ext; fileName := file_name file |} in
        {| ui := setIsLoading false
                   (setTables (fun prev => prev ++ [newTable])%list ui1);
           world := w' |}
    | (inl err, w') =>
        {| ui := setIsLoading false (setError (Some (message err)) ui1);
           world := w' |}
    end.

(** [executeQuery(sql)], a closure of one render like [registerFile]. *)
Definition executeQuery (render : ProviderState) (sql : string) (a : App) : App :=
  if negb (isInitialized render) then
    {| ui := setError (Some "DuckDB not initialized") (ui a); world := world a |}
  else
    let ui1 := setError None (setIsQueryRunning true (ui a)) in
    match runQuery E sql (world a) with
    | (inr result, w') =>
        {| ui := setIsQueryRunning false (setQueryResult (Some result) ui1);
           world := w' |}
    | (inl err, w') =>
        {| ui := setIsQueryRunning false
                   (setQueryResult None (setError (Some (message err)) ui1));
           world := w' |}
    end.

(** [await runQuery(sql)] made by a component: the call reaches the
    library module and the engine behind it. The cells of the provider
    change through their setters only, and the library has none of them. *)
Definition call_runQuery (sql : string) (a : App)
  : (Error + QueryResult) * App :=
  let '(r, w') := runQuery E sql (world a) in
  (r, {| ui := ui a; world := w' |}).

(** [clearError()] *)
Definition clearError (a : App) : App :=
  {| ui := setError None (ui a); world := world a |}.

(** A user action handled by the closure of the latest render. *)
Definition on_registerFile (file : File) (a : App) : App :=
  registerFile (ui a) file a.
Definition on_executeQuery (sql : string) (a : App) : App :=
  executeQuery (ui a) sql a.

(** ** [src/components/FileSelector.tsx]: one selection of several files *)

Definition is_valid_file (file : File) : bool :=
  let ext := file_ext (file_name file) in
  String.eqb ext "csv" || String.eqb ext "parquet" || is_excel ext.

(** The [for] loop of [handleFileSelect]: every iteration calls the
    [registerFile] the callback was created with; an Excel file opens the
    sheet picker and ends the loop. *)
Fixpoint handleFileSelect_loop (registerFile_ : File -> App -> App)
  (validFiles : list File) (a : App) : App :=
  match validFiles with
  | [] => a
  | file :: rest =>
      if is_excel (file_ext (file_name file)) then a
      else handleFileSelect_loop registerFile_ rest (registerFile_ file a)
  end.

Definition handleFileSelect (render : ProviderState) (files : list File) (a : App)
  : App :=
  match filter is_valid_file files with
  | [] => a
  | validFiles =>
      handleFileSelect_loop (registerFile render) validFiles (clearError a)
  end.

(** ** The registry and the engine side by side *)

Definition registered (a : App) (n : string) : Prop :=
  exists t, In t (tables (ui a)) /\ name t = n.

Definition queryable (a : App) (n : string) : Prop :=
  has_table E (eng (world a)) n = true.

(** Every record of the registry names a queryable table. *)
Definition registry_sound (a : App) : Prop :=
  forall n, registered a n -> queryable a n.

(** The lockstep invariant of the specification: a record exists if and
    only if a queryable table of that name exists. The engine resolves a
    name without regard to the case of its letters, so a name is queryable
    when it is, up to case, the name of a record. *)
Definition lockstep (a : App) : Prop :=
  forall n, queryable a n <-> exists m, registered a m /\ same_name n m = true.

End Provider.

Arguments ui {E} _.
Arguments world {E} _.
Arguments clearError {E} _.
Arguments call_runQuery {E} _ _.
Arguments registered {E} _ _.
Arguments queryable {E} _ _.
Arguments registry_sound {E} _.
Arguments lockstep {E} _.

(* ===================================================================== *)
(** * A reference engine *)
(* ===================================================================== *)

(** A small engine that implements the contract of [Engine]: it reads the
    texts of the application's statements, keeps a catalog of tables with
    their columns and row counts, and the files registered under a URL. It
    is the engine the examples run on. A text it cannot read is a syntax
    error to it. *)
Module RefEngine.

Record Table : Type := {
  table_name : string;
  table_columns : list (string * string);
  nrows : nat;
}.

Record State : Type := {
  catalog : list Table;
  files : list (string * File);
}.

Definition empty : State := {| catalog := []; files := [] |}.

Fixpoint find_table (n : string) (cat : list Table) : option Table :=
  match cat with
  | [] => None
  | t :: rest => if same_name (table_name t) n then Some t else find_table n rest
  end.

Definition has_table (st : State) (n : string) : bool :=
  match find_table n (catalog st) with
  | Some _ => true
  | None => false
  end.

Definition row_count (st : State) (n : string) : nat :=
  match find_table n (catalog st) with
  | Some t => nrows t
  | None => O
  end.

Fixpoint find_file (url : string) (fs : list (string * File)) : option File :=
  match fs with
  | [] => None
  | (u, f) :: rest => if String.eqb u url then Some f else find_file url rest
  end.

(** ** Reading a statement *)

(** What the engine understands. *)
Inductive Parsed : Type :=
| PCreateAs (t f : string)
| PDescribeFile (f : string)
| PCreate (t : string) (cols : list (string * string))
| PInsertFile (t f : string)
| PInsertValues (t : string) (nvalues : nat)
| PDescribe (t : string)
| PCount (t : string)
| PDrop (t : string).

(** The text behind a prefix. *)
Fixpoint strip (p s : string) : option string :=
  match p with
  | EmptyString => Some s
  | String c p' =>
      match s with
      | String d s' => if Ascii.eqb c d then strip p' s' else None
      | EmptyString => None
      end
  end.

(** The longest word a text begins with, and the text behind it. *)
Fixpoint read_word (s : string) : string * string :=
  match s with
  | EmptyString => (EmptyString, EmptyString)
  | String c s' =>
      if is_word_char c
      then let '(w, r) := read_word s' in (String c w, r)
      else (EmptyString, s)
  end.

(** A file name up to the quote that ends it, when [close] follows the
    quote and ends the text. *)
Definition read_file_name (close : string) (s : string) : option string :=
  match JSString.cut "'"%char s with
  | Some (f, r) => if String.eqb r close then Some f else None
  | None => None
  end.

(** Column definitions up to the closing parenthesis: a name between
    double quotes, a space and a type each, separated by a comma and a
    space. *)
Fixpoint read_columns (fuel : nat) (s : string) : option (list (string * string)) :=
  match fuel with
  | O => None
  | S fuel' =>
      match strip JSString.dquote s with
      | None => None
      | Some r =>
          match JSString.cut "034"%char r with
          | None => None
          | Some (name, r1) =>
              match strip " " r1 with
              | None => None
              | Some r2 =>
                  let '(type, r3) := read_word r2 in
                  if String.eqb type "" then None
                  else if String.eqb r3 ")" then Some [(name, type)]
                  else
                    match strip ", " r3 with
                    | Some r4 =>
                        option_map (cons (name, type)) (read_columns fuel' r4)
                    | None => None
                    end
              end
          end
      end
  end.

(** The text behind a string literal whose opening quote has been read. *)
Fixpoint skip_literal (s : string) : option string :=
  match s with
  | EmptyString => None
  | String c s' =>
      if Ascii.eqb c "'"%char then
        match s' with
        | String c' s'' =>
            if Ascii.eqb c' "'"%char then skip_literal s'' else Some s'
        | EmptyString => Some EmptyString
        end
      else skip_literal s'
  end.

(** The text behind one value: the keyword NULL or a string literal. *)
Definition skip_value (s : string) : option string :=
  match strip "NULL" s with
  | Some r => Some r
  | None =>
      match s with
      | String c s' => if Ascii.eqb c "'"%char then skip_literal s' else None
      | EmptyString => None
      end
  end.

(** The number of values up to the closing parenthesis. *)
Fixpoint count_values (fuel : nat) (s : string) : option nat :=
  match fuel with
  | O => None
  | S fuel' =>
      match skip_value s with
      | None => None
      | Some r =>
          if String.eqb r ")" then Some 1%nat
          else
            match strip ", " r with
            | Some r' => option_map S (count_values fuel' r')
            | None => None
            end
      end
  end.

(** A text that is a table name and nothing else. *)
Definition read_table_name (s : string) : option string :=
  let '(t, r) := read_word s in
  if String.eqb t "" || negb (String.eqb r "") then None else Some t.

(** What follows [CREATE TABLE]. *)
Definition read_create (s : string) : option Parsed :=
  let '(t, r) := read_word s in
  if String.eqb t "" then None
  else
    match strip " AS SELECT * FROM read_csv_auto('memory://" r with
    | Some r1 => option_map (PCreateAs t) (read_file_name ")" r1)
    | None =>
        match strip " AS SELECT * FROM parquet_scan('memory://" r with
        | Some r1 => option_map (PCreateAs t) (read_file_name ")" r1)
        | None =>
            match strip " (" r with
            | Some r1 => option_map (PCreate t) (read_columns (String.length r1) r1)
            | None => None
            end
        end
    end.

(** What follows [INSERT INTO]. *)
Definition read_insert (s : string) : option Parsed :=
  let '(t, r) := read_word s in
  if String.eqb t "" then None
  else
    match strip " SELECT * FROM ( SELECT * FROM parquet_scan('memory://" r with
    | Some r1 => option_map (PInsertFile t) (read_file_name ") ) t" r1)
    | None =>
        match strip " VALUES (" r with
        | Some r1 =>
            option_map (PInsertValues t) (count_values (String.length r1) r1)
        | None => None
        end
    end.

Definition parse (sql : string) : option Parsed :=
  match strip "CREATE TABLE " sql with
  | Some r => read_create r
  | None =>
  match strip "INSERT INTO " sql with
  | Some r => read_insert r
  | None =>
  match strip "DESCRIBE parquet_scan('memory://" sql with
  | Some r => option_map PDescribeFile (read_file_name ")" r)
  | None =>
  match strip "DESCRIBE " sql with
  | Some r => option_map PDescribe (read_table_name r)
  | None =>
  match strip "SELECT COUNT(*) as cnt FROM " sql with
  | Some r => option_map PCount (read_table_name r)
  | None =>
  match strip "DROP TABLE " sql with
  | Some r => option_map PDrop (read_table_name r)
  | None => None
  end end end end end end.

(** ** Running a statement *)

Definition fail (k : ErrorKind) (msg : string) (st : State)
  : (Error + ArrowTable) * State :=
  (inl {| kind := k; message := msg |}, st).

Definition ok (a : ArrowTable) (st : State) : (Error + ArrowTable) * State :=
  (inr a, st).

Definition no_rows : ArrowTable := {| fields := []; toArray := [] |}.

Definition add_table (t : Table) (st : State) : State :=
  {| catalog := (catalog st ++ [t])%list; files := files st |}.

Definition add_rows (n : string) (k : nat) (st : State) : State :=
  {| catalog :=
       map (fun t => if same_name (table_name t) n
                     then {| table_name := table_name t;
                             table_columns := table_columns t;
                             nrows := nrows t + k |}
                     else t) (catalog st);
     files := files st |}.

Definition drop_table (n : string) (st : State) : State :=
  {| catalog := filter (fun t => negb (same_name (table_name t) n)) (catalog st);
     files := files st |}.

Definition exists_error (t : string) : string :=
  "Catalog Error: Table with name " ++ t ++ " already exists!".

Definition missing_error (t : string) : string :=
  "Catalog Error: Table with name " ++ t ++ " does not exist!".

Definition no_file_error (f : string) : string :=
  "IO Error: No files found that match the pattern " ++ f.

(** One row of [DESCRIBE]: column_name, column_type, null, key, default,
    extra. *)
Definition describe_column (col : string * string) : JSValue :=
  JObject [("column_name", JString (fst col)); ("column_type", JString (snd col));
           ("null", JString "YES"); ("key", JNull); ("default", JNull);
           ("extra", JNull)].

Definition describe_answer (cols : list (string * string)) : ArrowTable :=
  {| fields := describe_fields; toArray := map describe_column cols |}.

Definition count_answer (n : nat) : ArrowTable :=
  {| fields := ["cnt"]; toArray := [JObject [("cnt", JBigInt (Z.of_nat n))]] |}.

(** Two columns of one name, up to case. *)
Fixpoint repeated_name (names : list string) : bool :=
  match names with
  | [] => false
  | x :: rest => existsb (same_name x) rest || repeated_name rest
  end.

Definition run (p : Parsed) (st : State) : (Error + ArrowTable) * State :=
  match p with
  | PCreateAs t f =>
      if has_table st t then fail TableExists (exists_error t) st
      else
        match find_file ("memory://" ++ f) (files st) with
        | Some {| body := Tabular cols n true |} =>
            ok no_rows
               (add_table {| table_name := t; table_columns := cols; nrows := n |} st)
        | Some {| body := Tabular _ _ false |} =>
            fail EngineError "Invalid Input Error: the file could not be scanned" st
        | _ => fail IOError (no_file_error f) st
        end
  | PDescribeFile f =>
      match find_file ("memory://" ++ f) (files st) with
      | Some {| body := Tabular cols _ _ |} => ok (describe_answer cols) st
      | _ => fail IOError (no_file_error f) st
      end
  | PCreate t cols =>
      if has_table st t then fail TableExists (exists_error t) st
      else if repeated_name (map fst cols) then
        fail EngineError "Catalog Error: Column already exists!" st
      else
        ok no_rows
           (add_table {| table_name := t; table_columns := cols; nrows := 0 |} st)
  | PInsertFile t f =>
      match find_table t (catalog st), find_file ("memory://" ++ f) (files st) with
      | None, _ => fail TableNotFound (missing_error t) st
      | Some tb, Some {| body := Tabular cols n _ |} =>
          if (List.length (table_columns tb) =? List.length cols)%nat
          then ok no_rows (add_rows t n st)
          else fail BinderError "Binder Error: column count mismatch" st
      | Some _, _ => fail IOError (no_file_error f) st
      end
  | PInsertValues t nvalues =>
      match find_table t (catalog st) with
      | None => fail TableNotFound (missing_error t) st
      | Some tb =>
          if (List.length (table_columns tb) =? nvalues)%nat
          then ok no_rows (add_rows t 1 st)
          else
            fail BinderError
                 ("Binder Error: table " ++ t ++ " has "
                  ++ JSString.of_nat (List.length (table_columns tb))
                  ++ " columns but " ++ JSString.of_nat nvalues
                  ++ " values were supplied") st
      end
  | PDescribe t =>
      match find_table t (catalog st) with
      | Some tb => ok (describe_answer (table_columns tb)) st
      | None => fail TableNotFound (missing_error t) st
      end
  | PCount t =>
      match find_table t (catalog st) with
      | Some tb => ok (count_answer (nrows tb)) st
      | None => fail TableNotFound (missing_error t) st
      end
  | PDrop t =>
      if has_table st t then ok no_rows (drop_table t st)
      else fail TableNotFound (missing_error t) st
  end.

Definition query (sql : string) (st : State) : (Error + ArrowTable) * State :=
  match parse sql with
  | Some p => run p st
  | None => fail ParserError "Parser Error: syntax error" st
  end.

Definition registerFileHandle (url : string) (f : File) (st : State)
  : (Error + unit) * State :=
  (inr tt, {| catalog := catalog st; files := (url, f) :: files st |}).

(** [Number.prototype.toString] on the integral values the examples use:
    the decimal digits of the integer. *)
Definition Number_toString (x : spec_float) : string :=
  match Host.integer_value x with
  | Some v => JSString.of_Z v
  | None => "NaN"
  end.

End RefEngine.

(* ===================================================================== *)
(** * [initDuckDB]: calls that overlap *)
(* ===================================================================== *)

Module Init.

(** The module variables [db] and [conn], and the objects created so far:
    [Worker]s, [AsyncDuckDB] instances (numbered from 0) and connections
    (each with the instance it was opened on). *)
Record Lib : Type := {
  db : option nat;
  conn : option nat;
  workers : nat;
  databases : nat;
  connections : list nat;
}.

Definition fresh : Lib :=
  {| db := None; conn := None; workers := 0; databases := 0; connections := [] |}.

(** How the awaited collaborators answer. *)
Record Env : Type := {
  bundle_has_mainWorker : bool;
  instantiate_resolves : bool;
  connect_resolves : bool;
}.

(** Where one call of [initDuckDB] stands: not started, suspended at one of
    its three [await]s, or settled. *)
Inductive Call : Type :=
| NotStarted
| AwaitSelectBundle
| AwaitInstantiate
| AwaitConnect (on_db : nat)
| Resolved (result_db result_conn : nat)
| Rejected (msg : string).

(** One uninterrupted run of a call, from where it stands to its next
    [await] or to its end. *)
Definition step (env : Env) (c : Call) (l : Lib) : Call * Lib :=
  match c with
  | NotStarted =>
      match db l, conn l with
      | Some d, Some k => (Resolved d k, l)
      | _, _ => (AwaitSelectBundle, l)
      end
  | AwaitSelectBundle =>
      if negb (bundle_has_mainWorker env) then
        (Rejected "No mainWorker found in selected DuckDB bundle", l)
      else
        let d := databases l in
        (AwaitInstantiate,
         {| db := Some d; conn := conn l; workers := S (workers l);
            databases := S (databases l); connections := connections l |})
  | AwaitInstantiate =>
      if negb (instantiate_resolves env) then (Rejected "instantiate failed", l)
      else
        match db l with
        | Some d => (AwaitConnect d, l)
        | None => (Rejected "Cannot read properties of null (reading 'connect')", l)
        end
  | AwaitConnect d =>
      if negb (connect_resolves env) then (Rejected "connect failed", l)
      else
        let k := List.length (connections l) in
        let l' := {| db := db l; conn := Some k; workers := workers l;
                     databases := databases l;
                     connections := (connections l ++ [d])%list |} in
        match db l' with
        | Some d' => (Resolved d' k, l')
        | None => (Rejected "db is null", l')
        end
  | Resolved _ _ | Rejected _ => (c, l)
  end.

(** Two callers and the order in which the scheduler runs them: [true] runs
    the first caller's next step, [false] the second's. *)
Fixpoint run (env : Env) (schedule : list bool) (a b : Call) (l : Lib)
  : Call * Call * Lib :=
  match schedule with
  | [] => (a, b, l)
  | true :: rest => let '(a', l') := step env a l in run env rest a' b l'
  | false :: rest => let '(b', l') := step env b l in run env rest a b' l'
  end.

Definition all_resolve : Env :=
  {| bundle_has_mainWorker := true; instantiate_resolves := true;
     connect_resolves := true |}.

End Init.

(* ===================================================================== *)
(** * [ResultTable]: pages of the result and its export *)
(* ===================================================================== *)

Module ResultTable.

Definition ITEMS_PER_PAGE : Z := 50.

(** [Math.ceil(a / b)] for an array length [a] and a positive integer [b].
    The quotient of two such integers is never rounded onto or across an
    integer it does not equal, so the host's ceiling is the exact one. *)
Definition Math_ceil_div (a b : Z) : Z := - ((- a) / b).

(** What [paginatedData] holds. *)
Record PaginatedData : Type := {
  data : list JSValue;
  totalPages : Z;
  totalRows : Z;
}.

(** The [useMemo] of [paginatedData], for the result held by the provider
    and the component's [currentPage]. *)
Definition paginatedData (queryResult : option QueryResult) (currentPage : Z)
  : PaginatedData :=
  match queryResult with
  | None => {| data := []; totalPages := 0; totalRows := 0 |}
  | Some r =>
      let totalRows := Z.of_nat (List.length (rows r)) in
      let totalPages := Math_ceil_div totalRows ITEMS_PER_PAGE in
      let startIndex := (currentPage - 1) * ITEMS_PER_PAGE in
      let endIndex := startIndex + ITEMS_PER_PAGE in
      {| data := JSText.slice (rows r) startIndex endIndex;
         totalPages := totalPages;
         totalRows := totalRows |}
  end.

(** The label [Showing <from> to <to> of <totalRows> results]. *)
Definition showing_from (currentPage : Z) : Z :=
  (currentPage - 1) * ITEMS_PER_PAGE + 1.
Definition showing_to (currentPage totalRows : Z) : Z :=
  Z.min (currentPage * ITEMS_PER_PAGE) totalRows.

(** The number on the page button of index [i]. *)
Definition pageNum (totalPages currentPage i : Z) : Z :=
  if totalPages <=? 5 then i + 1
  else if currentPage <=? 3 then i + 1
  else if currentPage >=? totalPages - 2 then totalPages - 4 + i
  else currentPage - 2 + i.

(** [Array.from({ length: Math.min(5, totalPages) }, (_, i) => ...)]: the
    numbers of the page buttons, which are also their React keys. *)
Definition page_buttons (totalPages currentPage : Z) : list Z :=
  map (fun i => pageNum totalPages currentPage (Z.of_nat i))
      (seq 0 (Z.to_nat (Z.min 5 totalPages))).

(** The pages [handlePageChange] can be called with by one click: the
    pager is rendered when there is more than one page; [Previous] is
    disabled on page 1 and [Next] on the last page. *)
Definition pager_targets (totalPages currentPage : Z) : list Z :=
  if 1 <? totalPages then
    ((if currentPage =? 1 then [] else [currentPage - 1])
     ++ page_buttons totalPages currentPage
     ++ (if currentPage =? totalPages then [] else [currentPage + 1]))%list
  else [].

(** ** Export *)

(** A dense array of strings joined. *)
Definition join (sep : string) (l : list string) : string :=
  JSArr.join sep (JSArr.dense l).

Section ExportFile.

Variable Number_toString : spec_float -> string.

(** [Array.isArray(row) ? row[i] : row[col]] *)
Definition cell_of (row : JSValue) (i : nat) (col : string) : Error + JSValue :=
  match row with
  | JArray elems => inr (nth i elems JUndefined)
  | _ => JSText.get_member row col
  end.

(** The cells [columns.map((col, i) => ...)] looks up in one row, [i]
    being the index of the first of [columns]. *)
Fixpoint cells_of (row : JSValue) (i : nat) (columns : list string)
  : Error + list JSValue :=
  match columns with
  | [] => inr []
  | col :: rest =>
      match cell_of row i col with
      | inl e => inl e
      | inr cell =>
          match cells_of row (S i) rest with
          | inl e => inl e
          | inr cells => inr (cell :: cells)
          end
      end
  end.

(** Does the text need quotes: it holds a comma, a double quote or a line
    feed. *)
Definition needs_quotes (str : string) : bool :=
  JSString.includes str ","
  || JSString.includes str JSString.dquote
  || JSString.includes str JSText.newline.

(** The text written for one cell. *)
Definition csv_cell (cell : JSValue) : string :=
  match cell with
  | JNull | JUndefined => ""
  | _ =>
      let str := JSText.JS_String Number_toString cell in
      if needs_quotes str
      then JSString.dquote ++ JSText.double_quotes str ++ JSString.dquote
      else str
  end.

(** The text a cell stands for in the export: nothing for [null] and
    [undefined], [String(cell)] otherwise. *)
Definition cell_text (cell : JSValue) : string :=
  match cell with
  | JNull | JUndefined => ""
  | _ => JSText.JS_String Number_toString cell
  end.

Definition csv_row (columns : list string) (row : JSValue) : Error + string :=
  match cells_of row 0 columns with
  | inl e => inl e
  | inr cells => inr (join "," (map csv_cell cells))
  end.

(** [rows.map(row => ...)]: the first row that throws ends the map. *)
Fixpoint csv_rows (columns : list string) (rows : list JSValue)
  : Error + list string :=
  match rows with
  | [] => inr []
  | row :: rest =>
      match csv_row columns row with
      | inl e => inl e
      | inr line =>
          match csv_rows columns rest with
          | inl e => inl e
          | inr lines => inr (line :: lines)
          end
      end
  end.

(** What [downloadFile] is called with. *)
Record Download : Type := {
  content : string;
  filename : string;
  mimeType : string;
}.

(** [exportAsCSV()]: nothing without a result; otherwise the header line
    and one line per row, joined by line feeds, handed to
    [downloadFile]. *)
Definition exportAsCSV (queryResult : option QueryResult)
  : Error + option Download :=
  match queryResult with
  | None => inr None
  | Some r =>
      match csv_rows (columns r) (rows r) with
      | inl e => inl e
      | inr lines =>
          inr (Some {| content :=
                         join JSText.newline (join "," (columns r) :: lines);
                       filename := "query_result.csv";
                       mimeType := "text/csv" |})
      end
  end.

End ExportFile.

End ResultTable.

(** How a reader of comma-separated values takes a text apart: fields are
    separated by commas and records by line feeds; inside double quotes
    commas and line feeds are text, and two adjacent double quotes stand
    for one. [field] and [record] are what has been read of the current
    field and record. *)
Module Csv.

Fixpoint read_from (quoted : bool) (field : string) (record : list string)
  (s : string) : list (list string) :=
  match s with
  | EmptyString => [(record ++ [field])%list]
  | String c s' =>
      if quoted then
        if Ascii.eqb c "034"%char then
          match s' with
          | String c' s'' =>
              if Ascii.eqb c' "034"%char
              then read_from true (field ++ String c "") record s''
              else read_from false field record s'
          | EmptyString => read_from false field record s'
          end
        else read_from true (field ++ String c "") record s'
      else if Ascii.eqb c ","%char then
        read_from false "" (record ++ [field])%list s'
      else if Ascii.eqb c "010"%char then
        (record ++ [field])%list :: read_from false "" [] s'
      else if Ascii.eqb c "034"%char then read_from true field record s'
      else read_from false (field ++ String c "") record s'
  end.

Definition read (s : string) : list (list string) := read_from false "" [] s.

(** The characters that have a meaning for the reader, and the texts that
    hold none of them. *)
Definition special (c : ascii) : bool :=
  Ascii.eqb c ","%char || Ascii.eqb c "034"%char || Ascii.eqb c "010"%char.

Fixpoint plain (s : string) : bool :=
  match s with
  | EmptyString => true
  | String c s' => negb (special c) && plain s'
  end.

End Csv.

(* ===================================================================== *)
(** * [TableList] and [QueryEditor] *)
(* ===================================================================== *)

Module TableList.

(** The query the [Sample] button of a table dispatches in its [setQuery]
    event. *)
Definition sampleQuery (tableName : string) : string :=
  "SELECT * FROM " ++ tableName ++ " LIMIT 10;".

End TableList.

(** The page renders the editor without its optional [onQueryChange]
    property, so the calls [onQueryChange?.(...)] do nothing. *)
Module QueryEditor.

Section Editor.

Variable E : Engine.

(** The query of the first effect. *)
Definition initialQuery (tableName : string) : string :=
  "SELECT * FROM " ++ tableName ++ " LIMIT 10;".

(** The first [useEffect], after a render that saw [tables] and [query]:
    the [query] state it leaves. *)
Definition initial_query_effect (tables : list TableInfo) (query : string)
  : string :=
  match tables with
  | t :: _ => if String.eqb query "" then initialQuery (name t) else query
  | [] => query
  end.

(** [handleSetQuery(event)]: the listener of the [setQuery] event;
    [detail] is [event.detail]. *)
Definition handleSetQuery (detail : string) (query : string) : string := detail.

(** [handleQueryChange(value)]: [value || ''] becomes the query. *)
Definition handleQueryChange (value : option string) (query : string) : string :=
  match value with
  | Some v => v
  | None => ""
  end.

(** [handleRunQuery()], with the [executeQuery] and the [query] of the
    render the handler belongs to. *)
Definition handleRunQuery (render : ProviderState) (query : string) (a : App E)
  : App E :=
  if String.eqb (JSText.trim query) "" then a
  else executeQuery E render (JSText.trim query) a.

End Editor.

End QueryEditor.

(** Does a text consist of white space only? *)
Fixpoint all_space (s : string) : bool :=
  match s with
  | EmptyString => true
  | String c s' => JSText.is_space c && all_space s'
  end.

(* ===================================================================== *)
(** * [FileSelector]: the component's state and handlers *)
(* ===================================================================== *)

Module FileSelector.

(** What the explore dialog shows once both queries have answered. *)
Record Details : Type := {
  rowCount : spec_float;
  columns : list string;
  columnCount : nat;
  fileSizeMB : string;
}.

Record ExploreModal : Type := {
  file : File;
  tableName : string;
  details : option Details;
  loading : bool;
  error : option string;
}.

(** The [useState] cells of [FileSelector]. *)
Record State : Type := {
  isDragOver : bool;
  selectedFiles : list File;
  excelSheetModal : option (File * list string);
  selectedSheets : list string;
  exploreModal : option ExploreModal;
}.

Definition setSelectedFiles (f : list File -> list File) (s : State) : State :=
  {| isDragOver := isDragOver s; selectedFiles := f (selectedFiles s);
     excelSheetModal := excelSheetModal s; selectedSheets := selectedSheets s;
     exploreModal := exploreModal s |}.

Definition setExcelSheetModal (m : option (File * list string)) (s : State)
  : State :=
  {| isDragOver := isDragOver s; selectedFiles := selectedFiles s;
     excelSheetModal := m; selectedSheets := selectedSheets s;
     exploreModal := exploreModal s |}.

Definition setSelectedSheets (l : list string) (s : State) : State :=
  {| isDragOver := isDragOver s; selectedFiles := selectedFiles s;
     excelSheetModal := excelSheetModal s; selectedSheets := l;
     exploreModal := exploreModal s |}.

Definition setExploreModal (m : option ExploreModal) (s : State) : State :=
  {| isDragOver := isDragOver s; selectedFiles := selectedFiles s;
     excelSheetModal := excelSheetModal s; selectedSheets := selectedSheets s;
     exploreModal := m |}.

Section Selector.

Variable E : Engine.
Variable Number_toString : spec_float -> string.

(** The spreadsheet parser: [XLSX.read(buffer, { type: 'array' })], given
    by the [SheetNames] of the workbook it returns or by the error it
    throws, and [XLSX.utils.sheet_to_json(workbook.Sheets[sheetName],
    { header: 1 })]. *)
Variable XLSX_read : File -> Error + list string.
Variable XLSX_sheet_to_json : File -> string -> Error + list (JSArray Cell).

(** [Number(text)] on a string, and the size label
    [(file.size / 1024 / 1024).toFixed(2)] of a file. *)
Variable Number_of_string : string -> spec_float.
Variable size_label : File -> string.

(** The component and the application it runs in. *)
Record UI : Type := {
  sel : State;
  app : App E;
}.

(** ** Selection *)

(** The [for] loop of [handleFileSelect], with the component's state: a
    file that is not a spreadsheet is handed to [registerFile] and then
    listed, whatever [registerFile] made of it; the first spreadsheet opens
    the sheet picker and ends the loop. *)
Fixpoint handleFileSelect_loop (registerFile_ : File -> App E -> App E)
  (validFiles : list File) (u : UI) : (Error + unit) * UI :=
  match validFiles with
  | [] => (inr tt, u)
  | file :: rest =>
      if is_excel (file_ext (file_name file)) then
        match XLSX_read file with
        | inl e => (inl e, u)
        | inr sheetNames =>
            (inr tt,
             {| sel := setExcelSheetModal (Some (file, sheetNames)) (sel u);
                app := app u |})
        end
      else
        handleFileSelect_loop registerFile_ rest
          {| sel := setSelectedFiles (fun prev => prev ++ [file])%list (sel u);
             app := registerFile_ file (app u) |}
  end.

(** [handleFileSelect(files)], a closure of the render that saw the
    provider state [render]. With no valid file it shows an [alert], which
    changes no state, and returns. *)
Definition handleFileSelect (render : ProviderState) (files : list File) (u : UI)
  : (Error + unit) * UI :=
  match filter is_valid_file files with
  | [] => (inr tt, u)
  | validFiles =>
      handleFileSelect_loop (registerFile E Number_toString render) validFiles
        {| sel := sel u; app := clearError (app u) |}
  end.

(** ** Import of the picked sheets *)

(** [new File([file], `${file.name.replace(/\.[^.]+$/, '')}_${sheetName}.xlsx`,
    { type: file.type })]: the bytes of the workbook under another name. *)
Definition sheetFile (file : File) (sheetName : string) : File :=
  {| file_name := JSText.strip_extension (file_name file) ++ "_" ++ sheetName
                  ++ ".xlsx";
     body := body file |}.

(** The loop of [handleExcelSheetImport] over the selected sheets. *)
Fixpoint import_loop (registerFile_ : File -> App E -> App E) (file : File)
  (sheets : list string) (u : UI) : (Error + unit) * UI :=
  match sheets with
  | [] => (inr tt, u)
  | sheetName :: rest =>
      match XLSX_sheet_to_json file sheetName with
      | inl e => (inl e, u)
      | inr [] => import_loop registerFile_ file rest u
      | inr (_ :: _) =>
          import_loop registerFile_ file rest
            {| sel := setSelectedFiles
                        (fun prev => prev ++ [sheetFile file sheetName])%list
                        (sel u);
               app := registerFile_ (sheetFile file sheetName) (app u) |}
      end
  end.

(** [handleExcelSheetImport()], a closure of the render that saw the
    component state [seen]. *)
Definition handleExcelSheetImport (render : ProviderState) (seen : State) (u : UI)
  : (Error + unit) * UI :=
  match excelSheetModal seen with
  | None => (inr tt, u)
  | Some (file, _) =>
      match XLSX_read file with
      | inl e => (inl e, u)
      | inr _ =>
          match import_loop (registerFile E Number_toString render) file
                  (selectedSheets seen) u with
          | (inl e, u') => (inl e, u')
          | (inr _, u') =>
              (inr tt,
               {| sel := setSelectedSheets [] (setExcelSheetModal None (sel u'));
                  app := app u' |})
          end
      end
  end.

(** ** Removing a file *)

(** [f !== file] on [File] objects, which the host tells apart by
    identity. *)
Variable same_file : File -> File -> bool.

(** [removeTable(t.name)]. The component takes [removeTable] from the
    value of the context, and [DuckDBProvider] puts no member of that name
    into the value (its members are the six state cells,
    [initializeDuckDB], [registerFile], [executeQuery] and [clearError]):
    the name is bound to [undefined], and the call raises a [TypeError]. *)
Definition removeTable (tableName : string) : Error + unit :=
  inl {| kind := JsTypeError; message := "removeTable is not a function" |}.

(** The loop of [handleRemoveFile] over the related records: the first
    call that throws ends it. *)
Fixpoint remove_loop (relatedTables : list TableInfo) : Error + unit :=
  match relatedTables with
  | [] => inr tt
  | t :: rest =>
      match removeTable (name t) with
      | inl e => inl e
      | inr _ => remove_loop rest
      end
  end.

(** [handleRemoveFile(file)], a closure of the render that saw the
    registry [tables]. *)
Definition handleRemoveFile (tables : list TableInfo) (f : File) (u : UI)
  : (Error + unit) * UI :=
  let baseName := JSText.strip_extension (file_name f) in
  let relatedTables :=
    filter (fun t => JSString.startsWith (fileName t) baseName) tables in
  match remove_loop relatedTables with
  | inl e => (inl e, u)
  | inr _ =>
      (inr tt,
       {| sel := setSelectedFiles (filter (fun x => negb (same_file x f))) (sel u);
          app := app u |})
  end.

(** ** Exploring a file *)

(** The record [handleExploreFile] looks up in the registry. *)
Definition explore_table (f : File) (tables : list TableInfo) : option TableInfo :=
  let baseName := JSText.strip_extension (file_name f) in
  find (fun t => String.eqb (fileName t) (file_name f)
                 || JSString.startsWith (fileName t) baseName) tables.

(** [x ?? y] *)
Definition nullish (v : JSValue) : bool :=
  match v with
  | JNull | JUndefined => true
  | _ => false
  end.

(** [Object.values(value)[0]] *)
Definition first_value (value : JSValue) : JSValue :=
  match value with
  | JObject ((_, v) :: _) => v
  | JArray (v :: _) => v
  | JString (String c _) => JString (String c "")
  | _ => JUndefined
  end.

(** [Number(value)] *)
Definition JS_Number (value : JSValue) : spec_float :=
  match value with
  | JUndefined => S754_nan
  | JNull => S754_zero false
  | JBool true => Host.Number 1
  | JBool false => S754_zero false
  | JNumber x => x
  | JBigInt n => Host.Number n
  | JString s => Number_of_string s
  | JArray _ | JObject _ =>
      Number_of_string (JSText.JS_String Number_toString value)
  end.

(** [xs.map(f)] with a callback that may throw. *)
Fixpoint map_throwing {A B} (f : A -> Error + B) (xs : list A) : Error + list B :=
  match xs with
  | [] => inr []
  | x :: rest =>
      match f x with
      | inl e => inl e
      | inr y =>
          match map_throwing f rest with
          | inl e => inl e
          | inr ys => inr (y :: ys)
          end
      end
  end.

(** The first cell of a row, or its cell under [key]: what the two
    branches of the extraction read. *)
Definition keyed_or_first (key : string) (row : JSValue) : Error + JSValue :=
  match JSText.get_member row key with
  | inl e => inl e
  | inr v => inr (if nullish v then first_value row else v)
  end.

Definition is_array (v : JSValue) : bool :=
  match v with
  | JArray _ => true
  | _ => false
  end.

Definition is_object (v : JSValue) : bool :=
  match v with
  | JArray _ | JObject _ => true
  | _ => false
  end.

(** The column names read off the rows of the [DESCRIBE] answer. *)
Definition describe_columns (rows : list JSValue) : Error + list string :=
  match rows with
  | [] => inr []
  | first :: _ =>
      if is_array first then
        map_throwing
          (fun row =>
             match JSText.get_member row "0" with
             | inl e => inl e
             | inr v => inr (JSText.JS_String Number_toString v)
             end) rows
      else if is_object first then
        map_throwing
          (fun row =>
             match keyed_or_first "column_name" row with
             | inl e => inl e
             | inr v => inr (JSText.JS_String Number_toString v)
             end) rows
      else inr []
  end.

(** The row count read off the first row of the count's answer. *)
Definition count_of (rows : list JSValue) : Error + spec_float :=
  match rows with
  | [] => inr (S754_zero false)
  | first :: _ =>
      if is_array first then
        match JSText.get_member first "0" with
        | inl e => inl e
        | inr v => inr (JS_Number v)
        end
      else if is_object first then
        match keyed_or_first "cnt" first with
        | inl e => inl e
        | inr v => inr (JS_Number v)
        end
      else inr (S754_zero false)
  end.

(** The [try] block of [handleExploreFile]: the two queries, sent through
    [runQuery], and what is read off their answers. *)
Definition explore_details (f : File) (table_name : string) : Async E Details :=
  fun w =>
    match runQuery E ("DESCRIBE " ++ table_name) w with
    | (inl e, w1) => (inl e, w1)
    | (inr describeRes, w1) =>
        match describe_columns (rows describeRes) with
        | inl e => (inl e, w1)
        | inr cols =>
            match runQuery E (count_rows_sql table_name) w1 with
            | (inl e, w2) => (inl e, w2)
            | (inr countRes, w2) =>
                match count_of (rows countRes) with
                | inl e => (inl e, w2)
                | inr n =>
                    (inr {| rowCount := n; columns := cols;
                            columnCount := List.length cols;
                            fileSizeMB := size_label f |}, w2)
                end
            end
        end
    end.

(** [handleExploreFile(file)], a closure of the render that saw the
    registry [tables]. *)
Definition handleExploreFile (tables : list TableInfo) (f : File) (u : UI) : UI :=
  match explore_table f tables with
  | None => u
  | Some table =>
      match explore_details f (name table) (world (app u)) with
      | (inr d, w') =>
          {| sel := setExploreModal
                      (Some {| file := f; tableName := name table;
                               details := Some d; loading := false;
                               error := None |}) (sel u);
             app := {| ui := ui (app u); world := w' |} |}
      | (inl err, w') =>
          {| sel := setExploreModal
                      (Some {| file := f; tableName := name table;
                               details := None; loading := false;
                               error := Some (message err) |}) (sel u);
             app := {| ui := ui (app u); world := w' |} |}
      end
  end.

End Selector.

End FileSelector.

(* ===================================================================== *)
(** * [initializeDuckDB]: the provider's initialization *)
(* ===================================================================== *)

Module ProviderInit.

(** [setIsInitialized(b)] *)
Definition setIsInitialized (b : bool) (s : ProviderState) : ProviderState :=
  {| isInitialized := b; isLoading := isLoading s; error := error s;
     tables := tables s; queryResult := queryResult s;
     isQueryRunning := isQueryRunning s |}.

(** One call of [initDuckDB] that no other call overlaps: from its start
    through its three [await]s. *)
Definition initDuckDB_alone (env : Init.Env) (l : Init.Lib) : Init.Call * Init.Lib :=
  let '(c1, l1) := Init.step env Init.NotStarted l in
  let '(c2, l2) := Init.step env c1 l1 in
  let '(c3, l3) := Init.step env c2 l2 in
  Init.step env c3 l3.

(** [initializeDuckDB()], a closure of the render that saw [render], with
    no other call of [initDuckDB] in flight. A call left alone has settled
    after its three [await]s ([initDuckDB_alone_settles]), so the last
    case does not arise. *)
Definition initializeDuckDB (env : Init.Env) (render : ProviderState)
  (s : ProviderState) (l : Init.Lib) : ProviderState * Init.Lib :=
  if isInitialized render then (s, l)
  else
    let s1 := setError None (setIsLoading true s) in
    match initDuckDB_alone env l with
    | (Init.Resolved _ _, l') =>
        (setIsLoading false (setIsInitialized true s1), l')
    | (Init.Rejected msg, l') =>
        (setIsLoading false (setError (Some msg) s1), l')
    | (_, l') => (s1, l')
    end.

End ProviderInit.

(** The files of a selection that come before its first spreadsheet, and
    that spreadsheet. *)
Fixpoint before_spreadsheet (validFiles : list File) : list File :=
  match validFiles with
  | [] => []
  | f :: rest =>
      if is_excel (file_ext (file_name f)) then []
      else f :: before_spreadsheet rest
  end.

Fixpoint first_spreadsheet (validFiles : list File) : option File :=
  match validFiles with
  | [] => None
  | f :: rest =>
      if is_excel (file_ext (file_name f)) then Some f
      else first_spreadsheet rest
  end.

(** The sheets the import loop hands on to [registerFile], in order, and
    the error that ends the loop early when a sheet cannot be read. *)
Fixpoint import_plan (sheet_to_json : string -> Error + list (JSArray Cell))
  (sheets : list string) : list string * option Error :=
  match sheets with
  | [] => ([], None)
  | sheetName :: rest =>
      match sheet_to_json sheetName with
      | inl e => ([], Some e)
      | inr [] => import_plan sheet_to_json rest
      | inr (_ :: _) =>
          let '(imported, thrown) := import_plan sheet_to_json rest in
          (sheetName :: imported, thrown)
      end
  end.

(** The position of the first header cell that holds the empty text (the
    number of cells and holes before it). *)
Fixpoint first_blank (hs : list (option string)) : nat :=
  match hs with
  | [] => O
  | Some EmptyString :: _ => O
  | _ :: rest => S (first_blank rest)
  end.

(* ===================================================================== *)
(** * Properties *)
(* ===================================================================== *)

(** ** Numeric normalization *)

Example convert_small : convertBigIntValues (JBigInt 42) =
  JNumber (S754_finite false 5910974510923776 (-47)).
Proof. reflexivity. Qed.

Example convert_max_safe :
  convertBigIntValues (JBigInt 9007199254740991) =
  JNumber (S754_finite false 9007199254740991 0).
Proof. reflexivity. Qed.

Example convert_first_unsafe :
  convertBigIntValues (JBigInt 9007199254740992) = JString "9007199254740992".
Proof. reflexivity. Qed.

Example convert_rounds_down_into_2_53 :
  convertBigIntValues (JBigInt 9007199254740993) = JString "9007199254740993".
Proof. reflexivity. Qed.

Example convert_int64_min :
  convertBigIntValues (JBigInt (-9223372036854775808)) =
  JString "-9223372036854775808".
Proof. reflexivity. Qed.

Example convert_nested :
  convertBigIntValues
    (JArray [JObject [("id", JBigInt 1); ("big", JBigInt (2 ^ 64))]; JNull]) =
  JArray [JObject [("id", JNumber (S754_finite false 4503599627370496 (-52)));
                   ("big", JString "18446744073709551616")]; JNull].
Proof. reflexivity. Qed.

Lemma digits2_pos_size p : digits2_pos p = Pos.size p.
Proof. induction p; simpl; congruence. Qed.

Lemma digits2_pos_bounds p :
  2 ^ (Zpos (digits2_pos p) - 1) <= Zpos p < 2 ^ Zpos (digits2_pos p).
Proof.
  rewrite digits2_pos_size. split.
  - pose proof (Pos.size_le p) as H.
    apply Pos2Z.pos_le_pos in H. rewrite Pos2Z.inj_pow in H.
    replace (Zpos (Pos.size p)) with (Z.succ (Zpos (Pos.size p) - 1)) in H by lia.
    rewrite Z.pow_succ_r in H by lia.
    change (Zpos p~0) with (2 * Zpos p) in H. lia.
  - pose proof (Pos.size_gt p) as H.
    apply Pos2Z.pos_lt_pos in H. now rewrite Pos2Z.inj_pow in H.
Qed.

Lemma iter_xO_value p k : Zpos (Pos.iter xO p k) = Zpos p * 2 ^ Zpos k.
Proof.
  induction k using Pos.peano_ind.
  - simpl. lia.
  - rewrite Pos.iter_succ, Pos2Z.inj_xO, IHk, Pos2Z.inj_succ, Z.pow_succ_r by lia. lia.
Qed.

Lemma iter_xO_digits p k :
  digits2_pos (Pos.iter xO p k) = (digits2_pos p + k)%positive.
Proof.
  induction k using Pos.peano_ind.
  - simpl. lia.
  - rewrite Pos.iter_succ. simpl. rewrite IHk. lia.
Qed.

Lemma fexp64 e : -1021 <= e -> fexp Host.prec Host.emax e = e - 53.
Proof. intros. unfold fexp, emin, Host.prec, Host.emax. lia. Qed.

Lemma binary_round_aux_canonical s m e :
  Zpos (digits2_pos m) = 53 -> -1074 <= e <= 971 ->
  binary_round_aux Host.prec Host.emax s (Zpos m) e loc_Exact = S754_finite s m e.
Proof.
  intros Hd He.
  assert (Hsh : shr_fexp Host.prec Host.emax (Zpos m) e loc_Exact
                = ({| shr_m := Zpos m; shr_r := false; shr_s := false |}, e)).
  { unfold shr_fexp. simpl Zdigits2. rewrite Hd, fexp64 by lia.
    replace (53 + e - 53 - e) with 0 by lia. reflexivity. }
  unfold binary_round_aux. rewrite Hsh. simpl. rewrite Hsh. simpl.
  replace (e <=? 971) with true by (symmetry; apply Z.leb_le; lia).
  reflexivity.
Qed.

Lemma binary_round_small s p :
  Zpos (digits2_pos p) <= 53 ->
  exists m e, binary_round Host.prec Host.emax s p 0 = S754_finite s m e
              /\ -52 <= e <= 0 /\ Zpos m = Zpos p * 2 ^ (- e).
Proof.
  intros Hd. unfold binary_round. rewrite Z.add_0_r, fexp64 by lia.
  unfold shl_align.
  destruct (Zpos (digits2_pos p) - 53 - 0) as [|k|k] eqn:E; try lia.
  - exists p, 0. rewrite binary_round_aux_canonical by lia.
    repeat split; try lia.
  - exists (Pos.iter xO p k), (Zpos (digits2_pos p) - 53).
    rewrite binary_round_aux_canonical.
    + repeat split; try lia. rewrite iter_xO_value. f_equal. f_equal. lia.
    + rewrite iter_xO_digits. lia.
    + lia.
Qed.

Lemma safe_digits p : Zpos p < 2 ^ 53 -> Zpos (digits2_pos p) <= 53.
Proof.
  intros H. destruct (digits2_pos_bounds p) as [Hlo _].
  assert (2 ^ (Zpos (digits2_pos p) - 1) < 2 ^ 53) as Hlt by lia.
  apply Z.pow_lt_mono_r_iff in Hlt; lia.
Qed.

Lemma unsafe_digits p : 2 ^ 53 <= Zpos p -> 54 <= Zpos (digits2_pos p).
Proof.
  intros H. destruct (digits2_pos_bounds p) as [_ Hhi].
  assert (2 ^ 53 < 2 ^ Zpos (digits2_pos p)) as Hlt by lia.
  apply Z.pow_lt_mono_r_iff in Hlt; lia.
Qed.

Lemma integer_value_exact s m e p :
  e <= 0 -> Zpos m = Zpos p * 2 ^ (- e) ->
  Host.integer_value (S754_finite s m e) = Some (cond_Zopp s (Zpos p)).
Proof.
  intros He Hm. unfold Host.integer_value.
  destruct (0 <=? e) eqn:E0.
  - apply Z.leb_le in E0. assert (e = 0) by lia. subst e.
    simpl in Hm. rewrite Z.pow_0_r. do 2 f_equal. lia.
  - apply Z.leb_gt in E0.
    assert (0 < 2 ^ (- e)) by (apply Z.pow_pos_nonneg; lia).
    rewrite Hm, Z.mod_mul, Z.eqb_refl, Z.div_mul by lia. reflexivity.
Qed.

Lemma integer_value_Number n :
  Z.abs n < 2 ^ 53 -> Host.integer_value (Host.Number n) = Some n.
Proof.
  intros Hn. destruct n as [|p|p]; [reflexivity| |];
    unfold Host.Number, binary_normalize.
  - destruct (binary_round_small false p) as (m & e & -> & He & Hm).
    { apply safe_digits. lia. }
    now rewrite (integer_value_exact _ _ _ p) by lia.
  - destruct (binary_round_small true p) as (m & e & -> & He & Hm).
    { apply safe_digits. lia. }
    now rewrite (integer_value_exact _ _ _ p) by lia.
Qed.

Lemma shr_1_m r : 0 <= shr_m r -> shr_m (shr_1 r) = shr_m r / 2.
Proof.
  destruct r as [m r s]. simpl. intros Hm.
  rewrite <- Z.div2_div.
  destruct m as [|[q|q|]|q]; try reflexivity; lia.
Qed.

Lemma shr_iter_m k : forall r,
  0 <= shr_m r -> shr_m (iter_pos shr_1 k r) = shr_m r / 2 ^ Zpos k.
Proof.
  induction k as [k IH|k IH|]; intros r Hr; simpl iter_pos.
  - assert (H1 : 0 <= shr_m (shr_1 r)).
    { rewrite shr_1_m by lia. apply Z.div_pos; lia. }
    assert (Hp : 0 < 2 ^ Zpos k) by (apply Z.pow_pos_nonneg; lia).
    assert (H2 : 0 <= shr_m (iter_pos shr_1 k (shr_1 r))).
    { rewrite IH by lia. apply Z.div_pos; lia. }
    rewrite IH, IH, shr_1_m by lia.
    rewrite !Z.div_div by lia. f_equal.
    replace (Zpos k~1) with (Zpos k + Zpos k + 1) by lia.
    rewrite !Z.pow_add_r by lia. change (2 ^ 1) with 2. ring.
  - assert (Hp : 0 < 2 ^ Zpos k) by (apply Z.pow_pos_nonneg; lia).
    assert (H2 : 0 <= shr_m (iter_pos shr_1 k r)).
    { rewrite IH by lia. apply Z.div_pos; lia. }
    rewrite IH, IH by lia.
    rewrite !Z.div_div by lia. f_equal.
    replace (Zpos k~0) with (Zpos k + Zpos k) by lia.
    rewrite !Z.pow_add_r by lia. ring.
  - rewrite shr_1_m by lia. reflexivity.
Qed.

Lemma abs_cond_Zopp s v : Z.abs (cond_Zopp s v) = Z.abs v.
Proof. destruct s; simpl; lia. Qed.

Lemma isSafeInteger_large s m e :
  0 <= e -> 2 ^ 53 <= Zpos m * 2 ^ e ->
  Host.isSafeInteger (S754_finite s m e) = false.
Proof.
  intros He Hv. unfold Host.isSafeInteger, Host.integer_value.
  replace (0 <=? e) with true by (symmetry; apply Z.leb_le; lia).
  rewrite abs_cond_Zopp. apply Z.leb_gt. unfold Host.MAX_SAFE_INTEGER. lia.
Qed.

Lemma round_nearest_even_range m l :
  m <= round_nearest_even m l <= m + 1.
Proof.
  destruct l as [|[]]; simpl; try lia. destruct (Z.even m); lia.
Qed.

Lemma binary_round_large s p :
  2 ^ 53 <= Zpos p ->
  Host.isSafeInteger (binary_round Host.prec Host.emax s p 0) = false.
Proof.
  intros Hp. pose proof (Hdig := unsafe_digits p Hp).
  destruct (digits2_pos_bounds p) as [Hlo Hhi].
  set (d := Zpos (digits2_pos p)) in *.
  unfold binary_round. rewrite Z.add_0_r, fexp64 by lia. fold d.
  unfold shl_align.
  destruct (d - 53 - 0) as [|k|k] eqn:E; try lia.
  assert (Hsh : shr_fexp Host.prec Host.emax (Zpos p) 0 loc_Exact
                = (iter_pos shr_1 k {| shr_m := Zpos p; shr_r := false; shr_s := false |},
                   Zpos k)).
  { unfold shr_fexp. simpl Zdigits2. fold d.
    rewrite Z.add_0_r, fexp64, E by lia. reflexivity. }
  unfold binary_round_aux. rewrite Hsh. clear Hsh.
  set (r1 := iter_pos shr_1 k _).
  assert (Hq : shr_m r1 = Zpos p / 2 ^ Zpos k).
  { unfold r1. rewrite shr_iter_m; simpl; [reflexivity|lia]. }
  assert (Hk : 0 < 2 ^ Zpos k) by (apply Z.pow_pos_nonneg; lia).
  assert (Hk2 : 2 <= 2 ^ Zpos k).
  { change 2 with (2 ^ 1) at 1. apply Z.pow_le_mono_r; lia. }
  assert (Hd : 2 ^ d = 2 ^ 53 * 2 ^ Zpos k).
  { rewrite <- Z.pow_add_r by lia. f_equal. lia. }
  assert (Hd1 : 2 ^ (d - 1) = 2 ^ 52 * 2 ^ Zpos k).
  { rewrite <- Z.pow_add_r by lia. f_equal. lia. }
  assert (Hqr : 2 ^ 52 <= shr_m r1 < 2 ^ 53).
  { rewrite Hq. split.
    - apply Z.div_le_lower_bound; lia.
    - apply Z.div_lt_upper_bound; lia. }
  pose proof (round_nearest_even_range (shr_m r1) (loc_of_shr_record r1)) as Hr.
  destruct (round_nearest_even (shr_m r1) (loc_of_shr_record r1))
    as [|m1|m1]; try lia.
  destruct (digits2_pos_bounds m1) as [Hlo1 Hhi1].
  assert (Hd1' : 53 <= Zpos (digits2_pos m1) <= 54).
  { split.
    - assert (2 ^ 52 < 2 ^ Zpos (digits2_pos m1)) as Hlt by lia.
      apply Z.pow_lt_mono_r_iff in Hlt; lia.
    - assert (2 ^ (Zpos (digits2_pos m1) - 1) < 2 ^ 54) as Hlt by lia.
      apply Z.pow_lt_mono_r_iff in Hlt; lia. }
  unfold shr_fexp. simpl Zdigits2. rewrite fexp64 by lia.
  assert (Zpos (digits2_pos m1) = 53 \/ Zpos (digits2_pos m1) = 54) as [H53|H54] by lia.
  - rewrite H53. replace (53 + Zpos k - 53 - Zpos k) with 0 by lia.
    simpl shr. cbv iota beta. simpl shr_m.
    destruct (Zpos k <=? Host.emax - Host.prec); [|reflexivity].
    apply isSafeInteger_large; [lia|]. nia.
  - rewrite H54. replace (54 + Zpos k - 53 - Zpos k) with 1 by lia.
    unfold shr, shr_record_of_loc.
    change (iter_pos shr_1 1 ?r) with (shr_1 r).
    set (r2 := shr_1 _).
    assert (Hm2 : shr_m r2 = Zpos m1 / 2).
    { unfold r2. rewrite shr_1_m; simpl; [reflexivity|lia]. }
    assert (2 ^ 53 <= Zpos m1).
    { rewrite H54 in Hlo1. exact Hlo1. }
    assert (2 ^ 52 <= Zpos m1 / 2).
    { apply Z.div_le_lower_bound; lia. }
    destruct (shr_m r2) as [|m2|m2]; try lia.
    destruct (_ <=? Host.emax - Host.prec); [|reflexivity].
    apply isSafeInteger_large; [lia|].
    replace (Zpos (k + 1)) with (Zpos k + 1) by lia.
    rewrite Z.pow_add_r by lia. nia.
Qed.

Lemma isSafeInteger_Number n :
  Host.isSafeInteger (Host.Number n) = (Z.abs n <=? Host.MAX_SAFE_INTEGER).
Proof.
  destruct (Z.leb_spec (Z.abs n) Host.MAX_SAFE_INTEGER) as [Hs|Hs];
    unfold Host.MAX_SAFE_INTEGER in Hs.
  - unfold Host.isSafeInteger. rewrite integer_value_Number by lia.
    apply Z.leb_le. unfold Host.MAX_SAFE_INTEGER. lia.
  - destruct n as [|p|p]; simpl in Hs; try lia;
      unfold Host.Number, binary_normalize; apply binary_round_large; lia.
Qed.

Lemma parse_decimal_BigInt_toString n :
  Host.parse_decimal (Host.BigInt_toString n) = Some n.
Proof.
  unfold Host.parse_decimal, Host.BigInt_toString.
  rewrite NilZero.isi.
  - simpl. now rewrite DecimalZ.of_to.
  - destruct n; simpl; try discriminate.
    intros [= H]. now apply DecimalPos.Unsigned.to_uint_nonnil in H.
  - destruct n; simpl; try discriminate.
    intros [= H]. now apply DecimalPos.Unsigned.to_uint_nonnil in H.
Qed.

(** ** Building the converted object *)

Lemma get_prop_None_iff key props :
  get_prop key props = None <-> ~ In key (map fst props).
Proof.
  induction props as [|[k w] rest IH]; simpl; [tauto|].
  destruct (String.eqb_spec k key) as [->|Hne].
  - split; [discriminate|]. intros H. exfalso. apply H. now left.
  - rewrite IH. tauto.
Qed.

Lemma replace_value_keys key v props :
  map fst (replace_value key v props) = map fst props.
Proof.
  induction props as [|[k w] rest IH]; simpl; [reflexivity|].
  destruct (String.eqb k key); simpl; [reflexivity|now rewrite IH].
Qed.

Lemma create_property_keys key v props :
  exists before after,
    map fst props = (before ++ after)%list
    /\ map fst (create_property key v props) = (before ++ key :: after)%list
    /\ Forall (fun k => goes_before key k = false) before
    /\ match after with
       | [] => True
       | k :: _ => goes_before key k = true
       end.
Proof.
  induction props as [|[k w] rest IH]; simpl.
  - exists [], []. repeat split. constructor.
  - destruct (goes_before key k) eqn:Hk.
    + exists [], (k :: map fst rest). repeat split; [constructor|exact Hk].
    + destruct IH as (before & after & H1 & H2 & H3 & H4).
      exists (k :: before), after. simpl. rewrite H1, H2.
      repeat split; [now constructor|exact H4].
Qed.

Lemma create_property_last key v props :
  Forall (fun k => goes_before key k = false) (map fst props) ->
  create_property key v props = (props ++ [(key, v)])%list.
Proof.
  induction props as [|[k w] rest IH]; simpl; intros H; [reflexivity|].
  inversion H as [|? ? Hk Hrest]; subst. rewrite Hk. f_equal. now apply IH.
Qed.

(** A key is a member of the object after [converted[key] = v] exactly
    when it was one before or is the key assigned, [__proto__] apart. *)
Lemma obj_set_In key v props k :
  In k (map fst (obj_set key v props))
  <-> In k (map fst props) \/ (k = key /\ key <> "__proto__").
Proof.
  unfold obj_set. destruct (String.eqb_spec key "__proto__") as [Hp|Hp].
  - tauto.
  - destruct (get_prop key props) as [x|] eqn:Hg.
    + rewrite replace_value_keys. split; [tauto|].
      intros [H|[-> _]]; [exact H|].
      destruct (in_dec string_dec key (map fst props)) as [Hin|Hin]; [exact Hin|].
      apply get_prop_None_iff in Hin. congruence.
    + destruct (create_property_keys key v props)
        as (before & after & H1 & H2 & _ & _).
      rewrite H1, H2, !in_app_iff. simpl. intuition congruence.
Qed.

Lemma NoDup_insert {A} (x : A) before after :
  NoDup (before ++ after) -> ~ In x (before ++ after) ->
  NoDup (before ++ x :: after).
Proof.
  intros Hnd Hin. apply NoDup_Add with (a := x) (l := (before ++ after)%list).
  - apply Add_app.
  - now constructor.
Qed.

Lemma obj_set_keys_nodup key v props :
  NoDup (map fst props) -> NoDup (map fst (obj_set key v props)).
Proof.
  intros Hnd. unfold obj_set. destruct (String.eqb key "__proto__"); [exact Hnd|].
  destruct (get_prop key props) as [x|] eqn:Hg.
  - now rewrite replace_value_keys.
  - destruct (create_property_keys key v props)
      as (before & after & H1 & H2 & _ & _).
    rewrite H2. rewrite H1 in Hnd. apply NoDup_insert; [exact Hnd|].
    rewrite <- H1. now apply get_prop_None_iff.
Qed.

Lemma replace_value_values (P : JSValue -> Prop) key v props :
  P v -> Forall (fun kv => P (snd kv)) props ->
  Forall (fun kv => P (snd kv)) (replace_value key v props).
Proof.
  intros Hv. induction 1 as [|[k w] rest Hw Hrest IH]; simpl; [constructor|].
  destruct (String.eqb k key); constructor; auto.
Qed.

Lemma create_property_values (P : JSValue -> Prop) key v props :
  P v -> Forall (fun kv => P (snd kv)) props ->
  Forall (fun kv => P (snd kv)) (create_property key v props).
Proof.
  intros Hv. induction 1 as [|[k w] rest Hw Hrest IH]; simpl.
  - now repeat constructor.
  - destruct (goes_before key k); repeat constructor; auto.
Qed.

Lemma obj_set_values (P : JSValue -> Prop) key v props :
  P v -> Forall (fun kv => P (snd kv)) props ->
  Forall (fun kv => P (snd kv)) (obj_set key v props).
Proof.
  intros Hv Hall. unfold obj_set.
  destruct (String.eqb key "__proto__"); [exact Hall|].
  destruct (get_prop key props).
  - now apply replace_value_values.
  - now apply create_property_values.
Qed.

(** *** The order of the keys *)

Lemma in_property_order_app before after :
  in_property_order (before ++ after) = true
  <-> in_property_order before = true /\ in_property_order after = true
      /\ Forall (fun a => Forall (fun b => goes_before b a = false) after) before.
Proof.
  induction before as [|a before IH]; simpl.
  - split; [intros H; repeat split; trivial; constructor|tauto].
  - rewrite !andb_true_iff, forallb_app, andb_true_iff, IH. split.
    + intros ((Hb & Ha) & H1 & H2 & H3). repeat split; trivial.
      constructor; [|exact H3]. apply Forall_forall. intros b Hin.
      rewrite forallb_forall in Ha. specialize (Ha b Hin).
      now apply negb_true_iff in Ha.
    + intros ((Hb & H1) & H2 & H3). inversion H3 as [|? ? Ha Hrest]; subst.
      repeat split; trivial. apply forallb_forall. intros b Hin.
      rewrite Forall_forall in Ha. apply negb_true_iff. now apply Ha.
Qed.

(** A key that goes before [k] also goes before every key that [k] does
    not have to follow. *)
Lemma goes_before_later key k b :
  goes_before key k = true -> goes_before b k = false -> goes_before b key = false.
Proof.
  unfold goes_before.
  destruct (Host.array_index key) as [i|]; [|discriminate].
  destruct (Host.array_index b) as [j|]; [|reflexivity].
  destruct (Host.array_index k) as [m|]; [|discriminate].
  rewrite !N.ltb_lt, !N.ltb_ge. lia.
Qed.

Lemma goes_before_irrefl key : goes_before key key = false.
Proof.
  unfold goes_before. destruct (Host.array_index key); [|reflexivity].
  apply N.ltb_irrefl.
Qed.

Lemma goes_before_asym key k :
  goes_before key k = true -> goes_before k key = false.
Proof.
  intros H. apply (goes_before_later key k k H), goes_before_irrefl.
Qed.

Lemma create_property_order key v props :
  in_property_order (map fst props) = true ->
  in_property_order (map fst (create_property key v props)) = true.
Proof.
  intros Hord.
  destruct (create_property_keys key v props)
    as (before & after & H1 & H2 & Hb & Ha).
  rewrite H2. rewrite H1 in Hord.
  apply in_property_order_app in Hord. destruct Hord as (Ho1 & Ho2 & Hcross).
  apply in_property_order_app. split; [exact Ho1|]. split.
  - simpl. rewrite Ho2, andb_true_r. apply forallb_forall. intros b Hin.
    apply negb_true_iff. destruct after as [|k after]; [destruct Hin|].
    destruct Hin as [<-|Hin]; [now apply goes_before_asym|].
    apply (goes_before_later key k b Ha).
    simpl in Ho2. apply andb_true_iff in Ho2. destruct Ho2 as [Ho2 _].
    rewrite forallb_forall in Ho2. apply negb_true_iff. now apply Ho2.
  - rewrite Forall_forall in *. intros a Hin. constructor.
    + now apply Hb.
    + now apply Hcross.
Qed.

Lemma obj_set_order key v props :
  in_property_order (map fst props) = true ->
  in_property_order (map fst (obj_set key v props)) = true.
Proof.
  intros Hord. unfold obj_set.
  destruct (String.eqb key "__proto__"); [exact Hord|].
  destruct (get_prop key props).
  - now rewrite replace_value_keys.
  - now apply create_property_order.
Qed.

(** *** Looking a key up in the object being built *)

Lemma get_prop_replace key v props k :
  get_prop key props <> None ->
  get_prop k (replace_value key v props)
  = if String.eqb key k then Some v else get_prop k props.
Proof.
  induction props as [|[k1 w] rest IH]; simpl; intros Hin; [congruence|].
  destruct (String.eqb_spec k1 key) as [->|Hne].
  - simpl. destruct (String.eqb_spec key k); reflexivity.
  - simpl. destruct (String.eqb_spec k1 k) as [->|Hk].
    + destruct (String.eqb_spec key k); [congruence|reflexivity].
    + now apply IH.
Qed.

Lemma get_prop_create key v props k :
  get_prop key props = None ->
  get_prop k (create_property key v props)
  = if String.eqb key k then Some v else get_prop k props.
Proof.
  induction props as [|[k1 w] rest IH]; simpl; intros Hin.
  - reflexivity.
  - destruct (String.eqb_spec k1 key) as [->|Hne]; [discriminate|].
    destruct (goes_before key k1); simpl.
    + destruct (String.eqb_spec key k); reflexivity.
    + destruct (String.eqb_spec k1 k) as [->|Hk].
      * destruct (String.eqb_spec key k); [congruence|reflexivity].
      * now apply IH.
Qed.

Lemma get_prop_obj_set key v props k :
  get_prop k (obj_set key v props)
  = if String.eqb key "__proto__" then get_prop k props
    else if String.eqb key k then Some v else get_prop k props.
Proof.
  unfold obj_set. destruct (String.eqb key "__proto__"); [reflexivity|].
  destruct (get_prop key props) as [x|] eqn:Hg.
  - apply get_prop_replace. congruence.
  - now apply get_prop_create.
Qed.

Lemma convert_object_unfold props :
  convertBigIntValues (JObject props) = JObject (fold_left convert_entry props []).
Proof. reflexivity. Qed.

(** The members of the converted object: the last entry under a key
    decides, and with distinct keys that is the only one. *)
Lemma get_prop_fold_convert k props : forall acc,
  NoDup (map fst props) ->
  get_prop k (fold_left convert_entry props acc)
  = match get_prop k props with
    | Some x =>
        if String.eqb k "__proto__" then get_prop k acc
        else Some (convertBigIntValues x)
    | None => get_prop k acc
    end.
Proof.
  induction props as [|[k1 v1] rest IH]; intros acc Hnd; [reflexivity|].
  inversion Hnd as [|? ? Hnotin Hnd']; subst. simpl.
  rewrite (IH _ Hnd'), get_prop_obj_set.
  destruct (String.eqb_spec k1 k) as [->|Hne].
  - apply get_prop_None_iff in Hnotin. rewrite Hnotin.
    now destruct (String.eqb k "__proto__").
  - destruct (get_prop k rest); [|now destruct (String.eqb k1 "__proto__")].
    destruct (String.eqb k "__proto__"); [|reflexivity].
    now destruct (String.eqb k1 "__proto__").
Qed.

(** On an object whose keys are distinct, in property order and none of
    them [__proto__], the loop lists the converted entries as they
    came. *)
Lemma fold_convert_entry_plain props : forall acc,
  NoDup (map fst (acc ++ props)%list) ->
  in_property_order (map fst (acc ++ props)%list) = true ->
  ~ In "__proto__" (map fst props) ->
  fold_left convert_entry props acc
  = (acc ++ map (fun kv => (fst kv, convertBigIntValues (snd kv))) props)%list.
Proof.
  induction props as [|[k v] rest IH]; intros acc Hnd Hord Hproto; simpl.
  - now rewrite app_nil_r.
  - assert (Hset : obj_set k (convertBigIntValues v) acc
                   = (acc ++ [(k, convertBigIntValues v)])%list).
    { unfold obj_set.
      destruct (String.eqb_spec k "__proto__") as [->|_];
        [exfalso; apply Hproto; now left|].
      rewrite map_app in Hnd, Hord. simpl in Hnd, Hord.
      assert (Hfresh : get_prop k acc = None).
      { apply get_prop_None_iff. apply NoDup_remove_2 in Hnd.
        intros H. apply Hnd. apply in_or_app. now left. }
      rewrite Hfresh. apply create_property_last.
      apply in_property_order_app in Hord. destruct Hord as (_ & _ & Hcross).
      rewrite Forall_forall in *. intros a Ha. specialize (Hcross a Ha).
      now inversion Hcross. }
    rewrite Hset, IH.
    + now rewrite <- app_assoc.
    + rewrite <- app_assoc, map_app. now rewrite map_app in Hnd.
    + rewrite <- app_assoc, map_app. now rewrite map_app in Hord.
    + intros H. apply Hproto. now right.
Qed.

Lemma fold_convert_entry_invariant (P : JSValue -> Prop) props : forall acc,
  Forall (fun kv => P (convertBigIntValues (snd kv))) props ->
  NoDup (map fst acc) -> Forall (fun kv => P (snd kv)) acc ->
  NoDup (map fst (fold_left convert_entry props acc))
  /\ Forall (fun kv => P (snd kv)) (fold_left convert_entry props acc).
Proof.
  induction props as [|[k v] rest IH]; intros acc Hall Hnd Hacc; simpl.
  - now split.
  - inversion Hall; subst. apply IH; trivial.
    + now apply obj_set_keys_nodup.
    + now apply obj_set_values.
Qed.

Lemma fold_convert_entry_keys props : forall acc,
  in_property_order (map fst acc) = true -> ~ In "__proto__" (map fst acc) ->
  in_property_order (map fst (fold_left convert_entry props acc)) = true
  /\ ~ In "__proto__" (map fst (fold_left convert_entry props acc)).
Proof.
  induction props as [|[k v] rest IH]; intros acc Hord Hproto; simpl.
  - now split.
  - apply IH.
    + now apply obj_set_order.
    + rewrite obj_set_In. intros [H|[H1 H2]]; [contradiction|congruence].
Qed.

(** ** The result of a conversion is well formed and free of bigints *)

Lemma convert_wf v : wf_value (convertBigIntValues v).
Proof.
  induction v using JSValue_ind; try (now constructor).
  - simpl. destruct (Host.isSafeInteger _); constructor.
  - simpl. constructor. rewrite Forall_map. exact H.
  - rewrite convert_object_unfold.
    destruct (fold_convert_entry_invariant wf_value props []) as [Hnd Hall];
      trivial; constructor; trivial.
Qed.

Lemma existsb_false_Forall {A} (f : A -> bool) l :
  existsb f l = false <-> Forall (fun x => f x = false) l.
Proof.
  induction l as [|x l IH]; simpl.
  - split; [constructor|reflexivity].
  - rewrite orb_false_iff, IH. split.
    + intros [? ?]. now constructor.
    + now inversion 1.
Qed.

Lemma forallb_true_Forall {A} (f : A -> bool) l :
  forallb f l = true <-> Forall (fun x => f x = true) l.
Proof.
  induction l as [|x l IH]; simpl.
  - split; [constructor|reflexivity].
  - rewrite andb_true_iff, IH. split.
    + intros [? ?]. now constructor.
    + now inversion 1.
Qed.

Lemma convert_no_bigint v : has_bigint (convertBigIntValues v) = false.
Proof.
  induction v using JSValue_ind; try reflexivity.
  - simpl. now destruct (Host.isSafeInteger _).
  - simpl. apply existsb_false_Forall. rewrite Forall_map. exact H.
  - rewrite convert_object_unfold. simpl. apply existsb_false_Forall.
    apply (fold_convert_entry_invariant (fun v => has_bigint v = false) props []);
      trivial; constructor.
Qed.



Lemma no_proto_key_keys props :
  has_proto_key (JObject props) = false -> ~ In "__proto__" (map fst props).
Proof.
  simpl. rewrite existsb_false_Forall, Forall_forall. intros H Hin.
  apply in_map_iff in Hin. destruct Hin as ([k x] & Hk & Hin). simpl in Hk.
  subst k. specialize (H _ Hin). simpl in H. discriminate.
Qed.

(** A plain value without bigints is a fixed point of the conversion. *)
Lemma convert_fixed v :
  wf_value v -> keys_in_order v = true -> has_proto_key v = false ->
  has_bigint v = false -> convertBigIntValues v = v.
Proof.
  induction v using JSValue_ind; intros Hwf Hord Hproto Hnb; try reflexivity.
  - discriminate.
  - simpl. f_equal. inversion Hwf as [| | | | | |? Hall|]; subst.
    simpl in Hnb, Hord, Hproto.
    apply existsb_false_Forall in Hnb. apply existsb_false_Forall in Hproto.
    apply forallb_true_Forall in Hord.
    clear Hwf. induction elems as [|x l IH]; [reflexivity|].
    inversion H; inversion Hall; inversion Hnb; inversion Hord;
      inversion Hproto; subst. simpl. f_equal; auto.
  - inversion Hwf as [| | | | | | |? Hnd Hall]; subst.
    pose proof (no_proto_key_keys props Hproto) as Hkeys.
    simpl in Hord. apply andb_true_iff in Hord. destruct Hord as [Hord Hsub].
    rewrite convert_object_unfold, fold_convert_entry_plain by assumption.
    simpl. f_equal. simpl in Hnb, Hproto.
    apply existsb_false_Forall in Hnb. apply existsb_false_Forall in Hproto.
    apply forallb_true_Forall in Hsub.
    clear Hnd Hwf Hkeys Hord.
    induction props as [|[k x] l IH]; [reflexivity|].
    inversion H; inversion Hall; inversion Hnb; inversion Hsub;
      inversion Hproto; subst. simpl in *.
    match goal with
    | Hp : _ || has_proto_key x = false |- _ =>
        apply orb_false_iff in Hp; destruct Hp as [_ Hp]
    end.
    f_equal; [f_equal|]; auto.
Qed.

(** On a plain value the code follows the rule of the specification. *)
Lemma convert_refines_spec v :
  wf_value v -> keys_in_order v = true -> has_proto_key v = false ->
  convertBigIntValues v = normalize_spec v.
Proof.
  induction v using JSValue_ind; intros Hwf Hord Hproto; try reflexivity.
  - simpl. now rewrite isSafeInteger_Number.
  - simpl. f_equal. inversion Hwf as [| | | | | |? Hall|]; subst.
    simpl in Hord, Hproto.
    apply existsb_false_Forall in Hproto. apply forallb_true_Forall in Hord.
    clear Hwf. induction elems as [|x l IH]; [reflexivity|].
    inversion H; inversion Hall; inversion Hord; inversion Hproto; subst.
    simpl. f_equal; auto.
  - inversion Hwf as [| | | | | | |? Hnd Hall]; subst.
    pose proof (no_proto_key_keys props Hproto) as Hkeys.
    simpl in Hord. apply andb_true_iff in Hord. destruct Hord as [Hord Hsub].
    rewrite convert_object_unfold, fold_convert_entry_plain by assumption.
    simpl. f_equal. simpl in Hproto.
    apply existsb_false_Forall in Hproto. apply forallb_true_Forall in Hsub.
    clear Hnd Hwf Hkeys Hord.
    induction props as [|[k x] l IH]; [reflexivity|].
    inversion H; inversion Hall; inversion Hsub; inversion Hproto; subst.
    simpl in *.
    match goal with
    | Hp : _ || has_proto_key x = false |- _ =>
        apply orb_false_iff in Hp; destruct Hp as [_ Hp]
    end.
    f_equal; [f_equal|]; auto.
Qed.

(** ** Leaves keep their position *)

Lemma get_prop_In key props v :
  get_prop key props = Some v -> In (key, v) props.
Proof.
  induction props as [|[k w] rest IH]; simpl; [discriminate|].
  destruct (String.eqb_spec k key) as [->|Hne].
  - intros [= ->]. now left.
  - intros H. right. auto.
Qed.

Lemma get_path_convert path : forall v,
  wf_value v -> through_proto path = false ->
  get_path path (convertBigIntValues v)
  = match get_path path v with
    | Some leaf => Some (convertBigIntValues leaf)
    | None => None
    end.
Proof.
  induction path as [|[i|k] path IH]; intros v Hwf Hpath; [reflexivity| |].
  - destruct v; try reflexivity.
    + simpl. now destruct (Host.isSafeInteger _).
    + simpl. rewrite nth_error_map.
      destruct (nth_error elems i) as [x|] eqn:E; [|reflexivity].
      simpl. apply IH; [|exact Hpath]. inversion Hwf as [| | | | | |? Hall|]; subst.
      rewrite Forall_forall in Hall. apply Hall. eapply nth_error_In; eauto.
  - simpl in Hpath. apply orb_false_iff in Hpath. destruct Hpath as [Hk Hpath].
    destruct v; try reflexivity.
    + simpl. now destruct (Host.isSafeInteger _).
    + inversion Hwf as [| | | | | | |? Hnd Hall]; subst.
      rewrite convert_object_unfold. simpl.
      rewrite get_prop_fold_convert by exact Hnd. rewrite Hk.
      destruct (get_prop k props) as [x|] eqn:E; [|reflexivity].
      apply IH; [|exact Hpath]. rewrite Forall_forall in Hall.
      apply get_prop_In in E. exact (Hall _ E).
Qed.

(** The result has no own property named [__proto__], whatever the input
    holds under that name. *)
Lemma get_proto_convert props :
  get_prop "__proto__" (fold_left convert_entry props []) = None.
Proof.
  apply get_prop_None_iff.
  apply (fold_convert_entry_keys props []); [reflexivity|intros []].
Qed.

(** Every bigint leaf of a value passed to [convertBigIntValues], other
    than those under a property named [__proto__], becomes a number exactly
    when it lies within the safe-integer range, and that number has exactly
    the integer's value; outside the range it becomes the decimal string
    that reads back as exactly the same integer. Every other such leaf
    stays as it is. *)
Lemma convertBigIntValues_leaf_exact
  (v : JSValue) (path : list Step) (leaf : JSValue) :
  wf_value v -> through_proto path = false ->
  get_path path v = Some leaf ->
  (forall n, leaf = JBigInt n -> Z.abs n <= Host.MAX_SAFE_INTEGER ->
     get_path path (convertBigIntValues v) = Some (JNumber (Host.Number n))
     /\ Host.integer_value (Host.Number n) = Some n)
  /\ (forall n, leaf = JBigInt n -> Host.MAX_SAFE_INTEGER < Z.abs n ->
        get_path path (convertBigIntValues v)
        = Some (JString (Host.BigInt_toString n))
        /\ Host.parse_decimal (Host.BigInt_toString n) = Some n)
  /\ (is_plain_leaf leaf = true ->
        get_path path (convertBigIntValues v) = Some leaf).
Proof.
  intros Hwf Hpath Hget. pose proof (get_path_convert path v Hwf Hpath) as Hc.
  rewrite Hget in Hc. repeat split.
  - subst leaf. rewrite Hc. simpl. rewrite isSafeInteger_Number.
    now replace (Z.abs n <=? Host.MAX_SAFE_INTEGER) with true
      by (symmetry; now apply Z.leb_le).
  - apply integer_value_Number. unfold Host.MAX_SAFE_INTEGER in *. lia.
  - subst leaf. rewrite Hc. simpl. rewrite isSafeInteger_Number.
    now replace (Z.abs n <=? Host.MAX_SAFE_INTEGER) with false
      by (symmetry; now apply Z.leb_gt).
  - apply parse_decimal_BigInt_toString.
  - intros Hleaf. rewrite Hc. now destruct leaf.
Qed.

(** C1. A row with a column named [__proto__] that holds a wide integer:
    the assignment [converted['__proto__'] = ...] creates no property, so
    the leaf is in the input and not in the result, neither as a number nor
    as a decimal string. The other column of the row is converted as the
    claim says, and nothing is raised: [runQuery] returns the row without
    the column. *)
Theorem proto_column_is_dropped :
  let rows :=
    JArray [JObject [("__proto__", JBigInt 9223372036854775807); ("a", JBigInt 1)]] in
  wf_value rows
  /\ get_path [Index 0; Key "__proto__"] rows = Some (JBigInt 9223372036854775807)
  /\ convertBigIntValues rows = JArray [JObject [("a", JNumber (Host.Number 1))]]
  /\ get_path [Index 0; Key "__proto__"] (convertBigIntValues rows) = None
  /\ get_path [Index 0; Key "a"] (convertBigIntValues rows)
     = Some (JNumber (Host.Number 1))
  /\ convertBigIntValues_rows
       [JObject [("__proto__", JBigInt 9223372036854775807); ("a", JBigInt 1)]]
     = inr (JArray [JObject [("a", JNumber (Host.Number 1))]]).
Proof.
  intros rows. split; [|repeat split].
  constructor. constructor; [|constructor]. constructor.
  - simpl. constructor; [|constructor; [|constructor]]; simpl; intuition discriminate.
  - repeat constructor.
Qed.


(** ** Table names *)

Lemma append_length (s t : string) :
  String.length (s ++ t) = (String.length s + String.length t)%nat.
Proof. induction s; simpl; congruence. Qed.

Lemma append_inj_l (s a b : string) : s ++ a = s ++ b -> a = b.
Proof. induction s; simpl; intros H; [assumption|]. injection H. auto. Qed.

Lemma Nat_to_uint_nonnil n : Nat.to_uint n <> Decimal.Nil.
Proof.
  rewrite <- (DecimalNat.Unsigned.of_to n) at 1.
  rewrite DecimalNat.Unsigned.to_of. apply DecimalFacts.unorm_nonnil.
Qed.

Lemma of_nat_inj n m : JSString.of_nat n = JSString.of_nat m -> n = m.
Proof.
  unfold JSString.of_nat. intros H.
  apply DecimalNat.Unsigned.to_uint_inj.
  pose proof (NilZero.usu _ (Nat_to_uint_nonnil n)) as Hn.
  pose proof (NilZero.usu _ (Nat_to_uint_nonnil m)) as Hm.
  rewrite H in Hn. congruence.
Qed.

Lemma candidate_inj tableName i j :
  candidate tableName i = candidate tableName j -> i = j.
Proof.
  destruct i, j; simpl; intros H; try reflexivity.
  - apply (f_equal String.length) in H. rewrite append_length in H. simpl in H. lia.
  - apply (f_equal String.length) in H. rewrite append_length in H. simpl in H. lia.
  - apply append_inj_l in H. injection H as H. now apply of_nat_inj.
Qed.

Lemma taken_In tables n : taken tables n = true <-> In n (map name tables).
Proof.
  unfold taken. rewrite existsb_exists, in_map_iff. split.
  - intros (t & Ht & He). apply String.eqb_eq in He. eauto.
  - intros (t & He & Ht). exists t. split; [assumption|]. now apply String.eqb_eq.
Qed.

Lemma loop_step fuel tables tableName i :
  generateTableName_loop (S fuel) tables tableName (candidate tableName i) (S i)
  = if taken tables (candidate tableName i)
    then generateTableName_loop fuel tables tableName
           (candidate tableName (S i)) (S (S i))
    else Some (candidate tableName i).
Proof. reflexivity. Qed.

(** What the loop returns from candidate [i] on: the first candidate that
    no table bears. *)
Lemma loop_result fuel tables tableName : forall i r,
  generateTableName_loop fuel tables tableName (candidate tableName i) (S i) = Some r ->
  exists k, (i <= k)%nat /\ r = candidate tableName k
            /\ taken tables r = false
            /\ forall j, (i <= j < k)%nat -> taken tables (candidate tableName j) = true.
Proof.
  induction fuel as [|fuel IH]; intros i r; [discriminate|].
  rewrite loop_step.
  destruct (taken tables (candidate tableName i)) eqn:Et.
  - intros H. apply IH in H. destruct H as (k & Hk & Hr & Hf & Hall).
    exists k. repeat split; try assumption; try lia.
    intros j Hj. destruct (Nat.eq_dec j i) as [->|Hne]; [assumption|].
    apply Hall. lia.
  - intros [= <-]. exists i. repeat split; try assumption; try lia.
Qed.

Lemma loop_exhausted fuel tables tableName : forall i,
  generateTableName_loop fuel tables tableName (candidate tableName i) (S i) = None ->
  forall j, (i <= j < i + fuel)%nat -> taken tables (candidate tableName j) = true.
Proof.
  induction fuel as [|fuel IH]; intros i; [intros _ j Hj; lia|].
  rewrite loop_step.
  destruct (taken tables (candidate tableName i)) eqn:Et; [|discriminate].
  intros H j Hj. destruct (Nat.eq_dec j i) as [->|Hne]; [assumption|].
  apply (IH _ H). lia.
Qed.

Lemma candidates_nodup tableName n i :
  NoDup (map (candidate tableName) (seq i n)).
Proof.
  apply Injective_map_NoDup.
  - intros a b. apply candidate_inj.
  - apply seq_NoDup.
Qed.

(** The loop always ends within [length tables + 1] iterations: among that
    many distinct candidates one is borne by no table. *)
Lemma generateTableName_loop_terminates tables tableName :
  generateTableName_loop (S (List.length tables)) tables tableName tableName 1 <> None.
Proof.
  intros H. change tableName with (candidate tableName 0) in H at 2.
  pose proof (loop_exhausted _ _ _ _ H) as Hall.
  assert (Hincl : incl (map (candidate tableName) (seq 0 (S (List.length tables))))
                       (map name tables)).
  { intros c Hc. apply in_map_iff in Hc. destruct Hc as (j & <- & Hj).
    apply in_seq in Hj. apply taken_In. apply Hall. lia. }
  apply NoDup_incl_length in Hincl; [|apply candidates_nodup].
  rewrite !length_map, length_seq in Hincl. lia.
Qed.

Lemma generateTableName_spec tables file_name ext :
  let tableName := generateTableName_base file_name ext in
  exists k,
    generateTableName tables file_name ext = candidate tableName k
    /\ taken tables (candidate tableName k) = false
    /\ forall j, (j < k)%nat -> taken tables (candidate tableName j) = true.
Proof.
  intros tableName. unfold generateTableName. fold tableName.
  destruct (generateTableName_loop _ tables tableName tableName 1) as [r|] eqn:E.
  - change tableName with (candidate tableName 0) in E at 2.
    apply loop_result in E. destruct E as (k & _ & -> & Hf & Hall).
    exists k. repeat split; try assumption. intros j Hj. apply Hall. lia.
  - exfalso. now apply generateTableName_loop_terminates in E.
Qed.

Lemma generateTableName_fresh tables file_name ext :
  ~ In (generateTableName tables file_name ext) (map name tables).
Proof.
  destruct (generateTableName_spec tables file_name ext) as (k & -> & Hf & _).
  rewrite <- taken_In. now rewrite Hf.
Qed.

(** ** Names that can stand in a statement *)

Lemma string_app_assoc (a b c : string) : (a ++ b) ++ c = a ++ (b ++ c).
Proof. induction a as [|x a IH]; simpl; [reflexivity|now rewrite IH]. Qed.

Lemma string_app_nil_r (a : string) : a ++ "" = a.
Proof. induction a as [|x a IH]; simpl; [reflexivity|now rewrite IH]. Qed.

Lemma prefix_append p t : String.prefix p (p ++ t) = true.
Proof.
  induction p as [|c p IH]; simpl.
  - now destruct t.
  - destruct (ascii_dec c c); [assumption|contradiction].
Qed.

Lemma drop_append p t : JSString.drop (String.length p) (p ++ t) = t.
Proof. induction p; simpl; auto. Qed.

Lemma is_word_app (a b : string) : is_word (a ++ b) = is_word a && is_word b.
Proof.
  induction a as [|c a IH]; [reflexivity|]. simpl. now rewrite IH, andb_assoc.
Qed.

Lemma is_word_sanitize (s : string) : is_word (JSString.sanitize s) = true.
Proof.
  unfold JSString.sanitize. induction s as [|c s IH]; [reflexivity|].
  simpl. rewrite IH, andb_true_r. unfold is_word_char.
  destruct (JSString.is_alnum c) eqn:Hc; [now rewrite Hc|reflexivity].
Qed.

Lemma is_word_uint (u : Decimal.uint) :
  is_word (NilZero.string_of_uint u) = true.
Proof.
  destruct u as [|u|u|u|u|u|u|u|u|u|u]; [reflexivity|..];
    simpl;
    (induction u as [|u IH|u IH|u IH|u IH|u IH|u IH|u IH|u IH|u IH|u IH];
     [reflexivity|exact IH..]).
Qed.

Lemma is_word_candidate (tableName : string) (k : nat) :
  is_word tableName = true -> is_word (candidate tableName k) = true.
Proof.
  intros H. destruct k as [|k]; [exact H|].
  unfold candidate, JSString.of_nat. rewrite !is_word_app, H, is_word_uint.
  reflexivity.
Qed.

(** The extensions [handleFileSelect] lets through are words. *)
Lemma valid_file_ext (f : File) :
  is_valid_file f = true ->
  In (file_ext (file_name f)) ["csv"; "parquet"; "xlsx"; "xls"].
Proof.
  unfold is_valid_file, is_excel. intros H.
  repeat (apply orb_true_iff in H; destruct H as [H|H]);
    apply String.eqb_eq in H; rewrite H; simpl; auto.
Qed.

Lemma generateTableName_word tables fn e :
  is_word e = true -> is_word (generateTableName tables fn e) = true.
Proof.
  intros He. destruct (generateTableName_spec tables fn e) as (k & -> & _).
  apply is_word_candidate. unfold generateTableName_base.
  rewrite !is_word_app, He, is_word_sanitize. reflexivity.
Qed.

Lemma generateTableName_prefix tables fn e :
  String.prefix "file_" (generateTableName tables fn e) = true.
Proof.
  destruct (generateTableName_spec tables fn e) as (k & -> & _).
  unfold generateTableName_base, candidate.
  destruct k; [|rewrite string_app_assoc]; apply prefix_append.
Qed.

(** The name made for a file whose extension is a word is an
    identifier. *)
Lemma generateTableName_identifier tables fn e :
  is_word e = true -> is_identifier (generateTableName tables fn e) = true.
Proof.
  intros He. pose proof (generateTableName_word tables fn e He) as Hw.
  pose proof (generateTableName_prefix tables fn e) as Hp.
  destruct (generateTableName tables fn e) as [|c s]; [discriminate|].
  unfold is_identifier. rewrite Hw, andb_true_r.
  cbn [String.prefix] in Hp. destruct (ascii_dec "f" c) as [Hc|]; [|discriminate].
  now rewrite <- Hc.
Qed.

(** ** Texts between quotes *)

Lemma cut_app (c : ascii) (a b : string) :
  JSString.has_char c a = false ->
  JSString.cut c (a ++ String c b) = Some (a, b).
Proof.
  induction a as [|d a IH]; simpl; intros H.
  - now rewrite Ascii.eqb_refl.
  - apply orb_false_iff in H. destruct H as [Hd Ha].
    now rewrite Hd, IH.
Qed.

Lemma has_char_app (c : ascii) (a b : string) :
  JSString.has_char c (a ++ b) = JSString.has_char c a || JSString.has_char c b.
Proof.
  induction a as [|d a IH]; [reflexivity|]. simpl. now rewrite IH, orb_assoc.
Qed.

(** A word holds no quote of either kind. *)
Lemma word_has_no_quote (c : ascii) (s : string) :
  is_word_char c = false -> is_word s = true -> JSString.has_char c s = false.
Proof.
  intros Hc. induction s as [|d s IH]; [reflexivity|]. simpl.
  intros H. apply andb_true_iff in H. destruct H as [Hd Hs].
  rewrite (IH Hs), orb_false_r.
  destruct (Ascii.eqb_spec d c) as [->|_]; [congruence|reflexivity].
Qed.

Lemma of_Z_has_no_dquote (z : Z) :
  JSString.has_char "034"%char (JSString.of_Z z) = false.
Proof.
  unfold JSString.of_Z. destruct (Z.to_int z) as [u|u]; simpl.
  - apply word_has_no_quote; [reflexivity|apply is_word_uint].
  - apply word_has_no_quote; [reflexivity|apply is_word_uint].
Qed.

Lemma read_quoted_escape (s : string) :
  Sql.read_quoted (JSString.escape_quotes s ++ "'") = Some s.
Proof.
  induction s as [|c s IH]; [reflexivity|].
  simpl. destruct (Ascii.eqb c "'"%char) eqn:Hc.
  - apply Ascii.eqb_eq in Hc. subst c. simpl. now rewrite IH.
  - simpl. rewrite Hc. now rewrite IH.
Qed.

Lemma forallb_map {A B} (f : A -> B) (p : B -> bool) (l : list A) :
  forallb p (map f l) = forallb (fun x => p (f x)) l.
Proof. induction l as [|x l IH]; simpl; [reflexivity|now rewrite IH]. Qed.

(** ** The statements of an ingestion are clean *)

Section CleanFacts.

Variable Number_toString : spec_float -> string.

Lemma cell_literal_clean (value : Cell) :
  clean_value (cell_literal Number_toString value) = true.
Proof.
  unfold clean_value.
  destruct value; try reflexivity; unfold cell_literal; simpl;
    now rewrite read_quoted_escape.
Qed.

Lemma all_present_app {A} (test : A -> bool) (a b : JSArray A) :
  all_present test (a ++ b)%list = all_present test a && all_present test b.
Proof. unfold all_present. apply forallb_app. Qed.

Lemma push_nulls_clean deficit : forall values,
  all_present clean_value values = true ->
  all_present clean_value (push_nulls deficit values) = true.
Proof.
  induction deficit as [|d IH]; intros values H; [exact H|].
  simpl. apply IH. now rewrite all_present_app, H.
Qed.

Lemma row_values_clean (headers row : JSArray Cell) :
  all_present clean_value (row_values Number_toString headers row) = true.
Proof.
  unfold row_values. apply push_nulls_clean.
  unfold all_present, JSArr.map. rewrite forallb_map.
  apply forallb_forall. intros [c|] _; [apply cell_literal_clean|reflexivity].
Qed.

Lemma header_column_clean (headers : JSArray Cell) (header : Cell) :
  header_stays_quoted Number_toString header = true ->
  clean_column (header_column Number_toString headers header) = true.
Proof.
  intros H. unfold header_column.
  set (text := if cell_truthy header then _ else _).
  assert (Htext : JSString.has_char "034"%char text = false).
  { subst text. unfold header_stays_quoted in H.
    destruct (cell_truthy header).
    - simpl in H. now apply negb_true_iff in H.
    - rewrite has_char_app. simpl. apply of_Z_has_no_dquote. }
  unfold clean_column, JSString.dquote. cbn [append].
  rewrite Ascii.eqb_refl. cbn [andb].
  now rewrite (cut_app "034"%char text " VARCHAR" Htext).
Qed.

Lemma header_columns_clean (headers : JSArray Cell) :
  all_present (header_stays_quoted Number_toString) headers = true ->
  all_present clean_column (header_columns Number_toString headers) = true.
Proof.
  unfold header_columns. generalize headers at 2. intros hs.
  unfold all_present, JSArr.map. rewrite forallb_map. intros H.
  rewrite forallb_forall in *. intros [h|] Hin; [|reflexivity].
  apply header_column_clean. exact (H _ Hin).
Qed.

End CleanFacts.

(** ** The rows of a [DESCRIBE] answer, as the fallback reads them *)

Section DescribeFacts.

Variable Number_toString : spec_float -> string.

Lemma scalar_repeats_no_key v : is_scalar v = true -> repeats_key v = false.
Proof. now destruct v. Qed.

Lemma scalar_convert v :
  is_scalar v = true -> is_scalar (convertBigIntValues v) = true.
Proof.
  destruct v; try reflexivity; try discriminate.
  intros _. simpl. now destruct (Host.isSafeInteger _).
Qed.

Lemma describe_shaped_inv row :
  describe_shaped row = true ->
  exists props, row = JObject props /\ map fst props = describe_fields
                /\ forallb (fun kv => is_scalar (snd kv)) props = true.
Proof.
  destruct row; try discriminate. simpl. intros H.
  apply andb_true_iff in H. destruct H as [Hk Hv].
  destruct (list_eq_dec string_dec (map fst props) describe_fields);
    [|discriminate].
  eauto.
Qed.

Lemma describe_row_repeats_no_key row :
  describe_shaped row = true -> repeats_key row = false.
Proof.
  intros H. apply describe_shaped_inv in H.
  destruct H as (props & -> & Hk & Hv). simpl. rewrite Hk. simpl.
  apply existsb_false_Forall. rewrite forallb_forall in Hv.
  apply Forall_forall. intros kv Hin. apply scalar_repeats_no_key. now apply Hv.
Qed.

(** The conversion leaves the keys of such a row as they are, so the row
    has no member [1]: [columnType] is [undefined]. *)
Lemma describe_row_column row :
  describe_shaped row = true ->
  schema_column Number_toString (convertBigIntValues row)
  = inl includes_of_undefined.
Proof.
  intros H. apply describe_shaped_inv in H.
  destruct H as (props & -> & Hk & Hv).
  rewrite convert_object_unfold, (fold_convert_entry_plain props []).
  - unfold schema_column, JSText.get_member. cbn [app].
    assert (Hnone : forall k,
              ~ In k describe_fields ->
              get_prop k (map (fun kv => (fst kv, convertBigIntValues (snd kv)))
                              props) = None).
    { intros k Hin. apply get_prop_None_iff. rewrite map_map. simpl.
      change (map (fun x : string * JSValue => fst x) props)
        with (map fst props).
      now rewrite Hk. }
    rewrite !Hnone; [reflexivity| |];
      simpl; intuition discriminate.
  - cbn [app]. rewrite Hk.
    repeat constructor; simpl; intuition discriminate.
  - cbn [app]. rewrite Hk. reflexivity.
  - rewrite Hk. simpl. intuition discriminate.
Qed.

Lemma describe_rows_columns rows :
  forallb describe_shaped rows = true ->
  convertBigIntValues_rows rows = inr (JArray (map convertBigIntValues rows))
  /\ schema_columns Number_toString (map convertBigIntValues rows)
     = match rows with
       | [] => inr []
       | _ :: _ => inl includes_of_undefined
       end.
Proof.
  intros H. split.
  - unfold convertBigIntValues_rows.
    replace (existsb repeats_key rows) with false; [reflexivity|].
    symmetry. apply existsb_false_Forall. rewrite forallb_forall in H.
    apply Forall_forall. intros row Hin. apply describe_row_repeats_no_key.
    now apply H.
  - destruct rows as [|row rest]; [reflexivity|].
    simpl in H. apply andb_true_iff in H. destruct H as [Hrow _].
    simpl. now rewrite describe_row_column.
Qed.

End DescribeFacts.

(** ** Statements and the catalog *)

Ltac catalog_rewrite :=
  repeat match goal with
         | H : forall n : string, has_table _ _ n = _ |- _ => rewrite H
         end.

Section EngineFacts.

Variable E : Engine.
Variable Number_toString : spec_float -> string.

Lemma conn_query_inv (s : Stmt) (w : World E) r w' :
  conn_query s w = (r, w') ->
  query E (sql_text s) (eng w) = (r, eng w')
  /\ initialized w' = initialized w
  /\ sent w' = (sent w ++ [s])%list.
Proof.
  unfold conn_query. destruct (query E (sql_text s) (eng w)) as [r0 st'] eqn:Eq.
  intros [= <- <-]. simpl. auto.
Qed.

Lemma query_keeps s st r st' :
  clean s = true -> keeps_catalog s = true ->
  query E (sql_text s) st = (r, st') ->
  forall n, has_table E st' n = has_table E st n.
Proof.
  intros Hc Hk Hq n. destruct r as [e|a].
  - eapply failed_statement_changes_nothing; eauto.
  - eapply other_statements_keep_catalog; eauto.
Qed.

Lemma query_create s t st r st' :
  clean s = true -> created_table s = Some t ->
  query E (sql_text s) st = (r, st') ->
  forall n, has_table E st' n
            = match r with
              | inl _ => has_table E st n
              | inr _ => same_name n t || has_table E st n
              end.
Proof.
  intros Hcl Hc Hq n. destruct r as [e|a].
  - eapply failed_statement_changes_nothing; eauto.
  - eapply create_adds_table; eauto.
Qed.

Lemma db_registerFileHandle_inv url file (w : World E) r w' :
  db_registerFileHandle url file w = (r, w') ->
  (forall n, has_table E (eng w') n = has_table E (eng w) n)
  /\ initialized w' = initialized w
  /\ sent w' = sent w.
Proof.
  unfold db_registerFileHandle.
  destruct (registerFileHandle E url file (eng w)) as [r0 st'] eqn:Eq.
  intros [= <- <-]. simpl. repeat split; trivial.
  intros n. eapply registerFileHandle_keeps_catalog; eauto.
Qed.

Lemma conn_query_catalog (s : Stmt) (w : World E) r w' :
  clean s = true ->
  conn_query s w = (r, w') ->
  initialized w' = initialized w
  /\ (keeps_catalog s = true ->
      forall n, has_table E (eng w') n = has_table E (eng w) n)
  /\ (forall t, created_table s = Some t ->
      forall n, has_table E (eng w') n
                = match r with
                  | inl _ => has_table E (eng w) n
                  | inr _ => same_name n t || has_table E (eng w) n
                  end).
Proof.
  intros Hcl H. apply conn_query_inv in H. destruct H as (Hq & Hi & _).
  split; [exact Hi|]. split.
  - intros Hk. eapply query_keeps; eauto.
  - intros t Ht. eapply query_create; eauto.
Qed.

Lemma insert_clean tableName headers row :
  is_identifier tableName = true ->
  clean (InsertValues tableName (row_values Number_toString headers row)) = true.
Proof. intros H. simpl. now rewrite H, row_values_clean. Qed.

Lemma insert_loop_inv tableName headers rows : forall (w : World E) r w',
  is_identifier tableName = true ->
  for_of rows (insert_row E Number_toString tableName headers) w = (r, w') ->
  (forall n, has_table E (eng w') n = has_table E (eng w) n)
  /\ initialized w' = initialized w.
Proof.
  intros w r w' Hid. revert w r w'.
  induction rows as [|row rows IH]; intros w r w' H.
  - simpl in H. unfold ret in H. injection H as <- <-. auto.
  - simpl in H. unfold bind at 1 in H.
    destruct (insert_row E Number_toString tableName headers row w)
      as [[e|[]] w1] eqn:E1.
    + injection H as <- <-.
      unfold insert_row in E1.
      destruct (0 <? List.length row)%nat; [|discriminate].
      unfold bind in E1.
      destruct (conn_query _ w) as [[e'|a] w2] eqn:Eq; [|discriminate].
      injection E1 as <- <-.
      apply conn_query_catalog in Eq; [|now apply insert_clean].
      destruct Eq as (Hi & Hk & _). split; [now apply Hk|exact Hi].
    + apply IH in H. destruct H as (Hcat & Hinit).
      unfold insert_row in E1.
      destruct (0 <? List.length row)%nat.
      * unfold bind in E1.
        destruct (conn_query _ w) as [[e'|a] w2] eqn:Eq; [discriminate|].
        injection E1 as <-.
        apply conn_query_catalog in Eq; [|now apply insert_clean].
        destruct Eq as (Hi & Hk & _). split.
        -- intros n. rewrite Hcat. now apply Hk.
        -- congruence.
      * injection E1 as <-. auto.
Qed.

(** The extension of a file decides which of its names are spliced. *)
Lemma names_stay_quoted_reader (file : File) :
  is_excel (file_ext (file_name file)) = false ->
  names_stay_quoted Number_toString file = true ->
  clean_file_name (file_name file) = true.
Proof. unfold names_stay_quoted. now intros ->. Qed.

Lemma names_stay_quoted_sheet (file : File) headers rows :
  is_excel (file_ext (file_name file)) = true ->
  body file = Workbook (headers :: rows) ->
  names_stay_quoted Number_toString file = true ->
  all_present (header_stays_quoted Number_toString) headers = true.
Proof. unfold names_stay_quoted. now intros -> ->. Qed.

(** Case analysis on the outcome of the next [conn.query] of the goal,
    with what it did to the catalog. *)
Ltac sent_query Hclean :=
  match goal with
  | |- context [conn_query ?s ?w] =>
      let Hq := fresh "Hq" in
      let Hi := fresh "Hi" in
      let Hk := fresh "Hk" in
      let Hc := fresh "Hc" in
      destruct (conn_query s w) as [[?|?] ?] eqn:Hq;
      (apply conn_query_catalog in Hq; [|solve [Hclean]]);
      destruct Hq as (Hi & Hk & Hc);
      first [ specialize (Hk eq_refl); clear Hc
            | specialize (Hc _ eq_refl); cbv beta iota in Hc; clear Hk ]
  end.

(** What an ingestion does to the catalog: no table is lost; a table
    appears only under the name [tableName], and does when the ingestion
    succeeds. *)
Lemma registerFileAsTable_catalog file tableName (w : World E) r w' :
  is_identifier tableName = true ->
  names_stay_quoted Number_toString file = true ->
  registerFileAsTable E Number_toString file tableName w = (r, w') ->
  initialized w' = initialized w
  /\ (forall u, r = inr u ->
        forall n, has_table E (eng w') n
                  = same_name n tableName || has_table E (eng w) n)
  /\ (forall n, has_table E (eng w) n = true -> has_table E (eng w') n = true)
  /\ (forall n, same_name n tableName = false ->
        has_table E (eng w') n = has_table E (eng w) n).
Proof.
  intros Hid Hsafe. unfold registerFileAsTable.
  destruct (initialized w) eqn:Hinit; simpl negb; cbv iota.
  2:{ unfold throw_Error, throw. intros [= <- <-]. repeat split; trivial.
      intros u [=]. }
  fold (file_ext (file_name file)).
  set (ext := file_ext (file_name file)) in *.
  set (url := "memory://" ++ file_name file).
  assert (Hdone : forall (w1 : World E) (q : bool),
            initialized w1 = true ->
            (forall n, has_table E (eng w1) n
                       = (if q then same_name n tableName else false)
                         || has_table E (eng w) n) ->
            initialized w1 = true
            /\ (forall u : unit, q = true ->
                  forall n, has_table E (eng w1) n
                            = same_name n tableName || has_table E (eng w) n)
            /\ (forall n, has_table E (eng w) n = true ->
                  has_table E (eng w1) n = true)
            /\ (forall n, same_name n tableName = false ->
                  has_table E (eng w1) n = has_table E (eng w) n)).
  { intros w1 q Hi H. split; [exact Hi|]. split; [|split].
    - intros _ Hq n. rewrite H, Hq. reflexivity.
    - intros n Hn. rewrite H, Hn. apply orb_true_r.
    - intros n Hn. rewrite H, Hn. now destruct q. }
  assert (Hfinish : forall (r1 : Error + unit) (w1 : World E) (q : bool),
            initialized w1 = true ->
            (forall n, has_table E (eng w1) n
                       = (if q then same_name n tableName else false)
                         || has_table E (eng w) n) ->
            (forall u, r1 = inr u -> q = true) ->
            (r1, w1) = (r, w') ->
            initialized w' = true
            /\ (forall u, r = inr u ->
                  forall n, has_table E (eng w') n
                            = same_name n tableName || has_table E (eng w) n)
            /\ (forall n, has_table E (eng w) n = true ->
                  has_table E (eng w') n = true)
            /\ (forall n, same_name n tableName = false ->
                  has_table E (eng w') n = has_table E (eng w) n)).
  { intros r1 w1 q Hi H Hr [= <- <-].
    destruct (Hdone w1 q Hi H) as (H1 & H2 & H3 & H4).
    repeat split; trivial. intros u Hu. apply (H2 u). now apply (Hr u). }
  destruct (String.eqb ext "csv") eqn:Hcsv.
  { assert (Hx : is_excel ext = false).
    { apply String.eqb_eq in Hcsv. now rewrite Hcsv. }
    pose proof (names_stay_quoted_reader file Hx Hsafe) as Hf.
    unfold bind.
    destruct (db_registerFileHandle url file w) as [[e|[]] w1] eqn:E1;
      apply db_registerFileHandle_inv in E1; destruct E1 as (Hreg & Hreg' & _).
    - apply (Hfinish _ _ false); [congruence|exact Hreg|discriminate].
    - sent_query ltac:(simpl; now rewrite Hid, Hf).
      + apply (Hfinish _ _ false); [congruence| |discriminate].
        intros n. now rewrite Hc, Hreg.
      + apply (Hfinish _ _ true); [congruence| |reflexivity].
        intros n. now rewrite Hc, Hreg. }
  destruct (String.eqb ext "parquet") eqn:Hpq.
  { assert (Hx : is_excel ext = false).
    { apply String.eqb_eq in Hpq. now rewrite Hpq. }
    pose proof (names_stay_quoted_reader file Hx Hsafe) as Hf.
    unfold bind at 1.
    destruct (db_registerFileHandle url file w) as [[e|[]] w1] eqn:E1;
      apply db_registerFileHandle_inv in E1; destruct E1 as (Hreg & Hreg' & _).
    - apply (Hfinish _ _ false); [congruence|exact Hreg|discriminate].
    - unfold try_catch, bind at 1.
      sent_query ltac:(simpl; now rewrite Hid, Hf).
      2:{ apply (Hfinish _ _ true); [congruence| |reflexivity].
          intros n. now rewrite Hc, Hreg. }
      unfold bind at 1.
      destruct (conn_query (DescribeParquet (file_name file)) w0)
        as [[e3|answer] w3] eqn:Hq3.
      { apply conn_query_catalog in Hq3; [|exact Hf].
        destruct Hq3 as (Hi3 & Hk3 & _). specialize (Hk3 eq_refl).
        apply (Hfinish _ _ false); [congruence| |discriminate].
        intros n. now rewrite Hk3, Hc, Hreg. }
      pose proof Hq3 as Hshape. apply conn_query_inv in Hshape.
      destruct Hshape as (Hshape & _ & _).
      apply (describe_answer_is_keyed E _ _ _ _ Hf) in Hshape.
      apply conn_query_catalog in Hq3; [|exact Hf].
      destruct Hq3 as (Hi3 & Hk3 & _). specialize (Hk3 eq_refl).
      destruct (describe_rows_columns Number_toString _ Hshape) as (Hconv & Hcols).
      unfold bind at 1. rewrite Hconv. unfold lift at 1, ret at 1.
      cbn [rows_of]. unfold bind at 1. rewrite Hcols.
      destruct (toArray answer) as [|row rest].
      + unfold lift, ret at 1. unfold bind.
        sent_query ltac:(simpl; now rewrite Hid).
        * apply (Hfinish _ _ false); [congruence| |discriminate].
          intros n. now rewrite Hc0, Hk3, Hc, Hreg.
        * sent_query ltac:(simpl; now rewrite Hid, Hf).
          -- apply (Hfinish _ _ true); [congruence| |reflexivity].
             intros n. now rewrite Hk, Hc0, Hk3, Hc, Hreg.
          -- apply (Hfinish _ _ true); [congruence| |reflexivity].
             intros n. now rewrite Hk, Hc0, Hk3, Hc, Hreg.
      + unfold lift, throw.
        apply (Hfinish _ _ false); [congruence| |discriminate].
        intros n. now rewrite Hk3, Hc, Hreg. }
  destruct (String.eqb ext "xlsx" || String.eqb ext "xls") eqn:Hxl.
  { unfold bind at 1. unfold xlsx_first_sheet.
    destruct (body file) as [cols k ds|jsonData|] eqn:Hbody;
      try (unfold throw_Error, throw;
           apply (Hfinish _ _ false); [congruence|reflexivity|discriminate]).
    unfold ret at 1.
    destruct jsonData as [|headers rows].
    - unfold throw_Error, throw.
      apply (Hfinish _ _ false); [congruence|reflexivity|discriminate].
    - pose proof (names_stay_quoted_sheet file headers rows Hxl Hbody Hsafe) as Hh.
      unfold bind.
      sent_query ltac:(simpl; now rewrite Hid, header_columns_clean).
      + apply (Hfinish _ _ false); [congruence|exact Hc|discriminate].
      + intros H. pose proof H as Hloop. apply insert_loop_inv in Hloop; [|exact Hid].
        destruct Hloop as (Hrows & Hinit').
        destruct (for_of rows _ w0) as [r2 w2]. injection H as <- <-.
        repeat split.
        * congruence.
        * intros u _ n. now rewrite Hrows, Hc.
        * intros n Hn. rewrite Hrows, Hc, Hn. apply orb_true_r.
        * intros n Hn. now rewrite Hrows, Hc, Hn. }
  unfold throw_Error, throw.
  apply (Hfinish _ _ false); [congruence|reflexivity|discriminate].
Qed.

(** An ingestion under a name the engine already resolves fails: its
    [CREATE TABLE] is rejected, on the direct path and on the fallback
    path alike. *)
Lemma registerFileAsTable_existing_fails file tableName (w : World E) :
  is_identifier tableName = true ->
  names_stay_quoted Number_toString file = true ->
  has_table E (eng w) tableName = true ->
  exists e w', registerFileAsTable E Number_toString file tableName w = (inl e, w').
Proof.
  intros Hid Hsafe Hex.
  destruct (registerFileAsTable E Number_toString file tableName w)
    as [[e|u] w'] eqn:Hrun; [eauto|exfalso].
  revert Hrun. unfold registerFileAsTable.
  destruct (initialized w) eqn:Hinit; simpl negb; cbv iota;
    [|unfold throw_Error, throw; discriminate].
  fold (file_ext (file_name file)).
  set (ext := file_ext (file_name file)) in *.
  set (url := "memory://" ++ file_name file).
  assert (Hfail : forall s (w1 : World E),
            clean s = true -> created_table s = Some tableName ->
            (forall n, has_table E (eng w1) n = has_table E (eng w) n) ->
            exists e w2, conn_query s w1 = (inl e, w2)).
  { intros s w1 Hcl Hs Hsame. unfold conn_query.
    destruct (create_existing_fails E s tableName (eng w1) Hcl Hs) as (e & st' & ->);
      [now rewrite Hsame|eauto]. }
  destruct (String.eqb ext "csv") eqn:Hcsv.
  { assert (Hx : is_excel ext = false).
    { apply String.eqb_eq in Hcsv. now rewrite Hcsv. }
    pose proof (names_stay_quoted_reader file Hx Hsafe) as Hf.
    unfold bind.
    destruct (db_registerFileHandle url file w) as [[e|[]] w1] eqn:E1;
      [discriminate|].
    apply db_registerFileHandle_inv in E1. destruct E1 as (Hreg & _ & _).
    destruct (Hfail (CreateTableAsCsv tableName (file_name file)) w1) as (e & w2 & ->);
      [simpl; now rewrite Hid, Hf|reflexivity|exact Hreg|discriminate]. }
  destruct (String.eqb ext "parquet") eqn:Hpq.
  { assert (Hx : is_excel ext = false).
    { apply String.eqb_eq in Hpq. now rewrite Hpq. }
    pose proof (names_stay_quoted_reader file Hx Hsafe) as Hf.
    unfold bind at 1.
    destruct (db_registerFileHandle url file w) as [[e|[]] w1] eqn:E1;
      [discriminate|].
    apply db_registerFileHandle_inv in E1. destruct E1 as (Hreg & _ & _).
    unfold try_catch, bind at 1.
    destruct (Hfail (CreateTableAsParquet tableName (file_name file)) w1)
      as (e & w2 & Hq);
      [simpl; now rewrite Hid, Hf|reflexivity|exact Hreg|].
    rewrite Hq.
    apply conn_query_catalog in Hq; [|simpl; now rewrite Hid, Hf].
    destruct Hq as (_ & _ & Hc).
    specialize (Hc _ eq_refl). cbv beta iota in Hc.
    unfold bind at 1.
    destruct (conn_query (DescribeParquet (file_name file)) w2)
      as [[e3|a3] w3] eqn:Hq3; [discriminate|].
    pose proof Hq3 as Hshape. apply conn_query_inv in Hshape.
    destruct Hshape as (Hshape & _ & _).
    apply (describe_answer_is_keyed E _ _ _ _ Hf) in Hshape.
    apply conn_query_catalog in Hq3; [|exact Hf].
    destruct Hq3 as (_ & Hk & _). specialize (Hk eq_refl).
    destruct (describe_rows_columns Number_toString _ Hshape) as (Hconv & Hcols).
    unfold bind at 1. rewrite Hconv. unfold lift at 1, ret at 1.
    cbn [rows_of]. unfold bind at 1. rewrite Hcols.
    destruct (toArray a3) as [|row rest]; [|unfold lift, throw; discriminate].
    unfold lift, ret at 1. unfold bind.
    destruct (Hfail (CreateTable tableName (JSArr.dense [])) w3)
      as (e5 & w5 & ->);
      [simpl; now rewrite Hid|reflexivity| |discriminate].
    intros n. now rewrite Hk, Hc. }
  destruct (String.eqb ext "xlsx" || String.eqb ext "xls") eqn:Hxl;
    [|unfold throw_Error, throw; discriminate].
  unfold bind at 1, xlsx_first_sheet.
  destruct (body file) as [cols k ds|jsonData|] eqn:Hbody;
    try (unfold throw_Error, throw; discriminate).
  unfold ret at 1. destruct jsonData as [|headers rows];
    [unfold throw_Error, throw; discriminate|].
  pose proof (names_stay_quoted_sheet file headers rows Hxl Hbody Hsafe) as Hh.
  unfold bind.
  destruct (Hfail (CreateTable tableName (header_columns Number_toString headers)) w)
    as (e5 & w5 & ->);
    [simpl; now rewrite Hid, header_columns_clean|reflexivity|reflexivity
    |discriminate].
Qed.

(** A file of another type is refused before anything is sent. *)
Lemma registerFileAsTable_unsupported file tableName (w : World E) :
  is_valid_file file = false -> initialized w = true ->
  registerFileAsTable E Number_toString file tableName w
  = (inl {| kind := JsError; message := "Unsupported file type" |}, w).
Proof.
  unfold is_valid_file, is_excel, file_ext, registerFileAsTable.
  intros Hv Hi. rewrite Hi. simpl negb. cbv iota.
  apply orb_false_iff in Hv. destruct Hv as [Hv Hx].
  apply orb_false_iff in Hv. destruct Hv as [Hc Hp].
  now rewrite Hc, Hp, Hx.
Qed.

End EngineFacts.

(** ** The reference engine meets the contract *)

Lemma same_name_iff (a b : string) :
  same_name a b = true <-> JSString.toLowerCase a = JSString.toLowerCase b.
Proof. unfold same_name. apply String.eqb_eq. Qed.

Lemma same_name_refl (a : string) : same_name a a = true.
Proof. apply same_name_iff. reflexivity. Qed.

Lemma same_name_sym (a b : string) : same_name a b = same_name b a.
Proof. unfold same_name. apply String.eqb_sym. Qed.

(** Names that are the same up to case are the same to [same_name]. *)
Lemma same_name_congr (a b c : string) :
  same_name a b = true -> same_name c a = same_name c b.
Proof. intros H. apply same_name_iff in H. unfold same_name. now rewrite H. Qed.

Module RefEngineFacts.
Import RefEngine.

Ltac break_match :=
  repeat match goal with
         | |- context [match ?x with _ => _ end] =>
             lazymatch x with
             | context [match _ with _ => _ end] => fail
             | _ => destruct x eqn:?
             end
         end.

(** *** Reading *)

Lemma strip_app (p t : string) : strip p (p ++ t) = Some t.
Proof.
  induction p as [|c p IH]; simpl; [reflexivity|].
  now rewrite Ascii.eqb_refl.
Qed.

Lemma read_word_app (t rest : string) :
  is_word t = true ->
  match rest with
  | EmptyString => True
  | String c _ => is_word_char c = false
  end ->
  read_word (t ++ rest) = (t, rest).
Proof.
  intros Ht Hrest. induction t as [|c t IH]; simpl.
  - destruct rest as [|d rest]; [reflexivity|]. simpl. now rewrite Hrest.
  - simpl in Ht. apply andb_true_iff in Ht. destruct Ht as [Hc Ht].
    now rewrite Hc, (IH Ht).
Qed.

Lemma identifier_word (t : string) :
  is_identifier t = true -> is_word t = true /\ String.eqb t "" = false.
Proof.
  destruct t as [|c t]; [discriminate|]. unfold is_identifier.
  intros H. apply andb_true_iff in H. now destruct H.
Qed.

(** What the engine makes of the text of a [CREATE TABLE] of the
    application: a creation of that table, or nothing. *)
Lemma parse_created (s : Stmt) (t : string) :
  clean s = true -> created_table s = Some t ->
  match parse (sql_text s) with
  | Some (PCreateAs t' _) | Some (PCreate t' _) => t' = t
  | Some _ => False
  | None => True
  end.
Proof.
  destruct s; simpl created_table; try discriminate; intros Hcl [= ->];
    simpl in Hcl; apply andb_true_iff in Hcl; destruct Hcl as [Hid _];
    apply identifier_word in Hid; destruct Hid as [Hw Hne];
    unfold sql_text, parse; rewrite strip_app;
    unfold read_create; rewrite read_word_app by (trivial; reflexivity);
    rewrite Hne; cbn [strip Ascii.eqb Bool.eqb append];
    try rewrite strip_app; unfold option_map; break_match; trivial;
    congruence.
Qed.

(** The other statements of the application are no creation and no
    removal of a table to the engine. *)
Lemma parse_kept (s : Stmt) :
  keeps_catalog s = true ->
  match parse (sql_text s) with
  | Some (PCreateAs _ _) | Some (PCreate _ _) | Some (PDrop _) => False
  | _ => True
  end.
Proof.
  destruct s; simpl keeps_catalog; try discriminate; intros _;
    unfold sql_text, parse; cbn [strip Ascii.eqb Bool.eqb append].
  - try rewrite strip_app. unfold option_map. break_match; trivial; discriminate.
  - try rewrite strip_app. unfold read_insert, option_map.
    break_match; trivial; discriminate.
  - try rewrite strip_app. unfold read_insert, option_map.
    break_match; trivial; discriminate.
Qed.

Lemma parse_insert_values (t : string) (values : JSArray string) :
  is_identifier t = true ->
  match parse (sql_text (InsertValues t values)) with
  | Some (PInsertValues t' _) => t' = t
  | Some _ => False
  | None => True
  end.
Proof.
  intros Hid. apply identifier_word in Hid. destruct Hid as [Hw Hne].
  unfold sql_text, parse. cbn [strip Ascii.eqb Bool.eqb append].
  try rewrite strip_app. unfold read_insert.
  rewrite read_word_app by (trivial; reflexivity).
  rewrite Hne. cbn [strip Ascii.eqb Bool.eqb append].
  try rewrite strip_app. unfold option_map. break_match; trivial; congruence.
Qed.

Lemma parse_create_table (t : string) (cols : JSArray string) :
  is_identifier t = true ->
  match parse (sql_text (CreateTable t cols)) with
  | Some (PCreate t' _) => t' = t
  | Some _ => False
  | None => True
  end.
Proof.
  intros Hid. apply identifier_word in Hid. destruct Hid as [Hw Hne].
  unfold sql_text, parse. rewrite strip_app. unfold read_create.
  rewrite read_word_app by (trivial; reflexivity).
  rewrite Hne. cbn [strip Ascii.eqb Bool.eqb append].
  try rewrite strip_app. unfold option_map. break_match; trivial; congruence.
Qed.

Lemma parse_describe_file (f : string) :
  match parse (sql_text (DescribeParquet f)) with
  | Some (PDescribeFile _) | None => True
  | Some _ => False
  end.
Proof.
  unfold sql_text, parse. cbn [strip Ascii.eqb Bool.eqb append].
  try rewrite strip_app. unfold option_map. break_match; trivial; discriminate.
Qed.

(** *** The catalog *)

Lemma find_table_congr (n m : string) (cat : list Table) :
  same_name n m = true -> find_table n cat = find_table m cat.
Proof.
  intros H. induction cat as [|tb cat IH]; [reflexivity|]. simpl.
  now rewrite (same_name_congr n m (table_name tb) H), IH.
Qed.

Lemma find_table_name (n : string) (cat : list Table) tb :
  find_table n cat = Some tb -> same_name (table_name tb) n = true.
Proof.
  induction cat as [|x cat IH]; [discriminate|]. simpl.
  destruct (same_name (table_name x) n) eqn:Hx; [|exact IH].
  now intros [= <-].
Qed.

Lemma find_table_add (n : string) (cat : list Table) (tb : Table) :
  find_table n (cat ++ [tb])
  = match find_table n cat with
    | Some x => Some x
    | None => if same_name (table_name tb) n then Some tb else None
    end.
Proof.
  induction cat as [|x cat IH]; [reflexivity|]. simpl.
  now destruct (same_name (table_name x) n).
Qed.

Lemma has_table_add tb st n :
  has_table (add_table tb st) n = same_name n (table_name tb) || has_table st n.
Proof.
  unfold has_table, add_table. simpl. rewrite find_table_add.
  destruct (find_table n (catalog st)); [now rewrite orb_true_r|].
  rewrite orb_false_r, same_name_sym. now destruct (same_name _ _).
Qed.

Lemma find_table_add_rows t k n cat :
  find_table n
    (map (fun x => if same_name (table_name x) t
                   then {| table_name := table_name x;
                           table_columns := table_columns x;
                           nrows := nrows x + k |}
                   else x) cat)
  = match find_table n cat with
    | Some x =>
        Some (if same_name (table_name x) t
              then {| table_name := table_name x;
                      table_columns := table_columns x;
                      nrows := nrows x + k |}
              else x)
    | None => None
    end.
Proof.
  induction cat as [|x cat IH]; [reflexivity|]. simpl.
  destruct (same_name (table_name x) t) eqn:Ht; simpl;
    destruct (same_name (table_name x) n); try rewrite Ht; auto.
Qed.

Lemma has_table_add_rows t k st n :
  has_table (add_rows t k st) n = has_table st n.
Proof.
  unfold has_table, add_rows. simpl. rewrite find_table_add_rows.
  now destruct (find_table n (catalog st)).
Qed.

Lemma row_count_add_rows t k st n :
  has_table st t = true ->
  row_count (add_rows t k st) n
  = if same_name n t then (row_count st n + k)%nat else row_count st n.
Proof.
  unfold has_table, row_count, add_rows. simpl. intros Ht.
  rewrite find_table_add_rows.
  destruct (same_name n t) eqn:Hn.
  - rewrite (find_table_congr n t _ Hn).
    destruct (find_table t (catalog st)) as [x|] eqn:Hx; [|discriminate].
    now rewrite (find_table_name _ _ _ Hx).
  - destruct (find_table n (catalog st)) as [x|] eqn:Hx; [|reflexivity].
    apply find_table_name in Hx.
    rewrite same_name_sym, (same_name_congr (table_name x) n t Hx),
      same_name_sym, Hn. reflexivity.
Qed.

Lemma row_count_add tb st n :
  has_table st (table_name tb) = false ->
  row_count (add_table tb st) n
  = if same_name n (table_name tb) then nrows tb else row_count st n.
Proof.
  unfold has_table, row_count, add_table. simpl. intros Hfree.
  rewrite find_table_add.
  destruct (same_name n (table_name tb)) eqn:Hn.
  - rewrite (find_table_congr n _ _ Hn).
    destruct (find_table (table_name tb) (catalog st)); [discriminate|].
    now rewrite same_name_sym, Hn.
  - destruct (find_table n (catalog st)); [reflexivity|].
    now rewrite same_name_sym, Hn.
Qed.

(** *** Running *)

Lemma run_failure p st e st' : run p st = (inl e, st') -> st' = st.
Proof.
  destruct p; unfold run, fail, ok; break_match; intros [=]; congruence.
Qed.

Lemma query_failure sql st e st' : query sql st = (inl e, st') -> st' = st.
Proof.
  unfold query. destruct (parse sql); [apply run_failure|].
  unfold fail. now intros [= _ <-].
Qed.

Lemma run_create t st a st' (p : Parsed) :
  (exists f, p = PCreateAs t f) \/ (exists cols, p = PCreate t cols) ->
  run p st = (inr a, st') ->
  has_table st t = false
  /\ exists tb, table_name tb = t /\ st' = add_table tb st
                /\ ((exists cols, p = PCreate t cols) -> nrows tb = O).
Proof.
  intros [[f ->]|[cols ->]]; unfold run, fail, ok;
    destruct (has_table st t); try discriminate; break_match;
    intros [= <- <-]; (split; [reflexivity|]); eexists;
    (split; [|split; [reflexivity|]]); try reflexivity.
  intros [cols' [=]].
Qed.

Lemma run_kept p st a st' :
  match p with
  | PCreateAs _ _ | PCreate _ _ | PDrop _ => False
  | _ => True
  end ->
  run p st = (inr a, st') ->
  forall n, has_table st' n = has_table st n.
Proof.
  destruct p; intros []; unfold run, fail, ok; break_match;
    intros [= <- <-] n; try reflexivity; apply has_table_add_rows.
Qed.

Lemma law_failed s st e st' :
  clean s = true -> query (sql_text s) st = (inl e, st') ->
  forall n, has_table st' n = has_table st n /\ row_count st' n = row_count st n.
Proof. intros _ H n. now rewrite (query_failure _ _ _ _ H). Qed.

Lemma law_create s t st a st' :
  clean s = true -> created_table s = Some t ->
  query (sql_text s) st = (inr a, st') ->
  forall n, has_table st' n = same_name n t || has_table st n.
Proof.
  intros Hcl Hc. pose proof (parse_created s t Hcl Hc) as Hp. unfold query.
  destruct (parse (sql_text s)) as [p|]; [|discriminate].
  intros Hrun n.
  destruct (run_create t st a st' p) as (_ & tb & Hn & -> & _); trivial.
  - destruct p; try contradiction; subst; eauto.
  - rewrite has_table_add, Hn. reflexivity.
Qed.

Lemma law_create_existing s t st :
  clean s = true -> created_table s = Some t -> has_table st t = true ->
  exists e st', query (sql_text s) st = (inl e, st').
Proof.
  intros Hcl Hc Hex.
  destruct (query (sql_text s) st) as [[e|a] st'] eqn:Hq; [eauto|exfalso].
  pose proof (parse_created s t Hcl Hc) as Hp. unfold query in Hq.
  destruct (parse (sql_text s)) as [p|]; [|discriminate].
  destruct (run_create t st a st' p) as (Hfree & _); trivial.
  - destruct p; try contradiction; subst; eauto.
  - congruence.
Qed.

Lemma law_keeps s st a st' :
  clean s = true -> keeps_catalog s = true ->
  query (sql_text s) st = (inr a, st') ->
  forall n, has_table st' n = has_table st n.
Proof.
  intros _ Hk. pose proof (parse_kept s Hk) as Hp. unfold query.
  destruct (parse (sql_text s)) as [p|]; [|discriminate].
  apply run_kept. now destruct p.
Qed.

Lemma law_created_empty t columns st a st' :
  clean (CreateTable t columns) = true ->
  query (sql_text (CreateTable t columns)) st = (inr a, st') ->
  forall n, row_count st' n = if same_name n t then O else row_count st n.
Proof.
  intros Hcl. simpl in Hcl. apply andb_true_iff in Hcl. destruct Hcl as [Hid _].
  pose proof (parse_create_table t columns Hid) as Hp. unfold query.
  destruct (parse (sql_text (CreateTable t columns))) as [p|]; [|discriminate].
  destruct p; try contradiction. subst t0. intros Hrun n.
  destruct (run_create t st a st' (PCreate t cols))
    as (Hfree & tb & Hn & -> & Hrows); eauto.
  rewrite row_count_add, Hn by (now rewrite Hn).
  rewrite Hrows by eauto. reflexivity.
Qed.

Lemma law_insert t values st a st' :
  clean (InsertValues t values) = true ->
  query (sql_text (InsertValues t values)) st = (inr a, st') ->
  forall n, row_count st' n
            = if same_name n t then S (row_count st n) else row_count st n.
Proof.
  intros Hcl. simpl in Hcl. apply andb_true_iff in Hcl. destruct Hcl as [Hid _].
  pose proof (parse_insert_values t values Hid) as Hp. unfold query.
  destruct (parse (sql_text (InsertValues t values))) as [p|]; [|discriminate].
  destruct p; try contradiction. subst t0. unfold run, fail, ok.
  destruct (find_table t (catalog st)) as [tb|] eqn:Hfind; [|discriminate].
  destruct (List.length (table_columns tb) =? nvalues)%nat; [|discriminate].
  intros [= <- <-] n. rewrite row_count_add_rows.
  - destruct (same_name n t); [apply Nat.add_1_r|reflexivity].
  - unfold has_table. now rewrite Hfind.
Qed.

Lemma describe_answer_shaped cols :
  forallb describe_shaped (toArray (describe_answer cols)) = true.
Proof.
  unfold describe_answer. simpl. induction cols as [|col cols IH]; [reflexivity|].
  simpl map. cbn [forallb]. rewrite IH, andb_true_r. reflexivity.
Qed.

Lemma law_describe f st a st' :
  clean (DescribeParquet f) = true ->
  query (sql_text (DescribeParquet f)) st = (inr a, st') ->
  forallb describe_shaped (toArray a) = true.
Proof.
  intros _. pose proof (parse_describe_file f) as Hp. unfold query.
  destruct (parse (sql_text (DescribeParquet f))) as [p|]; [|discriminate].
  destruct p; try contradiction. unfold run, fail, ok.
  break_match; intros [= <- <-]; apply describe_answer_shaped.
Qed.

Lemma law_register url f st (r : Error + unit) st' :
  registerFileHandle url f st = (r, st') ->
  forall n, has_table st' n = has_table st n /\ row_count st' n = row_count st n.
Proof. unfold registerFileHandle. intros [= <- <-] n. split; reflexivity. Qed.

End RefEngineFacts.

(** The reference engine, as an [Engine]. *)
Definition ref_engine : Engine :=
  {| state := RefEngine.State;
     query := RefEngine.query;
     registerFileHandle := RefEngine.registerFileHandle;
     has_table := RefEngine.has_table;
     row_count := RefEngine.row_count;
     failed_statement_changes_nothing := RefEngineFacts.law_failed;
     create_adds_table := RefEngineFacts.law_create;
     create_existing_fails := RefEngineFacts.law_create_existing;
     other_statements_keep_catalog := RefEngineFacts.law_keeps;
     created_table_is_empty := RefEngineFacts.law_created_empty;
     insert_adds_one_row := RefEngineFacts.law_insert;
     describe_answer_is_keyed := RefEngineFacts.law_describe;
     registerFileHandle_keeps_catalog := RefEngineFacts.law_register |}.

(** ** Example data *)

Module Ex.

Definition N := RefEngine.Number_toString.

Definition ready_ui : ProviderState :=
  {| isInitialized := true; isLoading := false; error := None; tables := [];
     queryResult := None; isQueryRunning := false |}.

(** The application right after initialization: nothing loaded yet. *)
Definition ready : App ref_engine :=
  {| ui := ready_ui;
     world := Build_World ref_engine true RefEngine.empty [] |}.

Definition people_csv (file_name : string) : File :=
  {| file_name := file_name;
     body := Tabular [("id", "BIGINT"); ("name", "VARCHAR")] 3 true |}.

Definition str (s : string) : option Cell := Some (CellString s).

(** A sheet whose only data row has one cell more than the header row. *)
Definition long_row_book : File :=
  {| file_name := "book.xlsx";
     body := Workbook [[str "a"]; [str "1"; str "2"]] |}.

End Ex.

(** ** The registry and the engine *)

Section RegistryFacts.

Variable E : Engine.
Variable Number_toString : spec_float -> string.

(** The name [registerFile] makes for a file of an accepted type is an
    identifier. *)
Lemma registerFile_name_identifier (tables : list TableInfo) (file : File) :
  is_valid_file file = true ->
  is_identifier
    (generateTableName tables (file_name file) (file_ext (file_name file))) = true.
Proof.
  intros Hv. apply generateTableName_identifier. apply valid_file_ext in Hv.
  simpl in Hv. destruct Hv as [<-|[<-|[<-|[<-|[]]]]]; reflexivity.
Qed.

(** A file of another type is refused before the engine hears of it. *)
Lemma registerFileAsTable_refused file tableName (w : World E) :
  is_valid_file file = false ->
  exists e, registerFileAsTable E Number_toString file tableName w = (inl e, w).
Proof.
  intros Hv. destruct (initialized w) eqn:Hi.
  - rewrite registerFileAsTable_unsupported by assumption. eauto.
  - unfold registerFileAsTable. rewrite Hi. simpl. unfold throw_Error, throw. eauto.
Qed.

(** What a [registerFile] does to the catalog, whatever the file. *)
Lemma registerFile_catalog (render : ProviderState) (file : File) (a : App E) :
  names_stay_quoted Number_toString file = true ->
  let tableName :=
    generateTableName (tables render) (file_name file) (file_ext (file_name file)) in
  let a' := registerFile E Number_toString render file a in
  (forall n, has_table E (eng (world a)) n = true ->
             has_table E (eng (world a')) n = true)
  /\ (forall n, same_name n tableName = false ->
                has_table E (eng (world a')) n = has_table E (eng (world a)) n)
  /\ match error (ui a') with
     | None =>
         tables (ui a')
         = (tables (ui a)
            ++ [{| name := tableName; fileType := file_ext (file_name file);
                   fileName := file_name file |}])%list
         /\ has_table E (eng (world a)) tableName = false
         /\ forall n, has_table E (eng (world a')) n
                      = same_name n tableName || has_table E (eng (world a)) n
     | Some _ => tables (ui a') = tables (ui a)
     end.
Proof.
  intros Hsafe tableName a'. subst a'. unfold registerFile.
  destruct (isInitialized render); simpl negb; cbv iota.
  2:{ simpl. auto. }
  fold tableName.
  destruct (is_valid_file file) eqn:Hv.
  - pose proof (registerFile_name_identifier (tables render) file Hv) as Hid.
    fold tableName in Hid.
    destruct (registerFileAsTable E Number_toString file tableName (world a))
      as [[err|[]] w'] eqn:Hreg.
    + apply registerFileAsTable_catalog in Hreg; trivial.
      destruct Hreg as (_ & _ & Hmono & Hother). simpl. auto.
    + pose proof Hreg as Hcat.
      apply registerFileAsTable_catalog in Hcat; trivial.
      destruct Hcat as (_ & Hok & Hmono & Hother). simpl.
      repeat split; trivial.
      * destruct (has_table E (eng (world a)) tableName) eqn:Hex; [|reflexivity].
        destruct (registerFileAsTable_existing_fails E Number_toString file
                    tableName (world a) Hid Hsafe Hex) as (e & w2 & Hfail).
        congruence.
      * now apply (Hok tt).
  - destruct (registerFileAsTable_refused file tableName (world a) Hv) as (e & ->).
    simpl. auto.
Qed.

(** C3. After every [registerFile], successful or failed, every record of
    the registry names a queryable engine table, provided that held
    before; no table is lost, and no table appears under another name than
    the one derived for the file. A [registerFile] that ends without an
    error has appended exactly one record, under that name, and has added
    exactly the table of that name to the engine, which had none of that
    name before; so it keeps the registry and the engine in lockstep. One
    that ends with an error leaves the registry as it was. The file's names
    are such that they stay inside the quotes of the statements. *)
Theorem registerFile_keeps_registry_sound
  (render : ProviderState) (file : File) (a : App E) :
  names_stay_quoted Number_toString file = true ->
  registry_sound a ->
  let tableName :=
    generateTableName (tables render) (file_name file) (file_ext (file_name file)) in
  let a' := registerFile E Number_toString render file a in
  registry_sound a'
  /\ (forall n, queryable a n -> queryable a' n)
  /\ (forall n, same_name n tableName = false -> queryable a' n -> queryable a n)
  /\ match error (ui a') with
     | None =>
         tables (ui a')
         = (tables (ui a)
            ++ [{| name := tableName; fileType := file_ext (file_name file);
                   fileName := file_name file |}])%list
         /\ ~ queryable a tableName
         /\ (forall n, queryable a' n
                       <-> same_name n tableName = true \/ queryable a n)
         /\ (lockstep a -> lockstep a')
     | Some _ => tables (ui a') = tables (ui a)
     end.
Proof.
  intros Hsafe Hsound tableName a'.
  destruct (registerFile_catalog render file a Hsafe) as (Hmono & Hother & Hend).
  fold tableName in Hother, Hend. fold a' in Hmono, Hother, Hend.
  unfold queryable.
  assert (Hrest : forall n, same_name n tableName = false ->
                    has_table E (eng (world a')) n = true ->
                    has_table E (eng (world a)) n = true).
  { intros n Hn. now rewrite (Hother n Hn). }
  destruct (error (ui a')) as [msg|].
  - split; [|split; [exact Hmono|split; [exact Hrest|exact Hend]]].
    intros n (t & Hin & Hn). apply Hmono. apply Hsound.
    exists t. rewrite <- Hend. auto.
  - destruct Hend as (Htables & Hfree & Hadd).
    assert (Hiff : forall n, has_table E (eng (world a')) n = true
                             <-> same_name n tableName = true
                                 \/ has_table E (eng (world a)) n = true).
    { intros n. rewrite Hadd. apply orb_true_iff. }
    split; [|split; [exact Hmono|split; [exact Hrest|]]];
      [|split; [exact Htables|split; [|split; [exact Hiff|]]]].
    + intros n (t & Hin & Hn). rewrite Htables in Hin. apply Hiff.
      apply in_app_or in Hin. destruct Hin as [Hin|[<-|[]]].
      * right. apply Hsound. exists t. auto.
      * left. simpl in Hn. subst n. apply same_name_refl.
    + congruence.
    + intros Hlock n. unfold queryable, registered. rewrite Hiff, Htables. split.
      * intros [Hn|Hq].
        -- exists tableName. split; [|exact Hn]. eexists.
           split; [apply in_or_app; right; now left|reflexivity].
        -- apply Hlock in Hq. destruct Hq as (m & (t & Hin & Hm) & Hnm).
           exists m. split; [|exact Hnm]. exists t.
           split; [apply in_or_app; now left|exact Hm].
      * intros (m & (t & Hin & Hm) & Hnm). apply in_app_or in Hin.
        destruct Hin as [Hin|[<-|[]]].
        -- right. apply Hlock. exists m. split; [|exact Hnm]. exists t. auto.
        -- left. simpl in Hm. now subst m.
Qed.

End RegistryFacts.

(** Nothing is registered and nothing is queryable right after
    initialization. *)
Lemma lockstep_ready : lockstep Ex.ready.
Proof.
  intros n. unfold registered, queryable. simpl. split.
  - discriminate.
  - intros (m & (t & [] & _) & _).
Qed.

(** On the reference engine: people.csv is loaded into an application that
    already holds the table of another file. *)
Lemma registerFile_keeps_registry_sound_witness :
  let a := on_registerFile ref_engine Ex.N (Ex.people_csv "a-b.csv") Ex.ready in
  let a' := registerFile ref_engine Ex.N (ui a) (Ex.people_csv "people.csv") a in
  names_stay_quoted Ex.N (Ex.people_csv "people.csv") = true
  /\ registry_sound a
  /\ registry_sound a'
  /\ map name (tables (ui a')) = ["file_csv_a_b"; "file_csv_people"]
  /\ ~ queryable a "file_csv_people"
  /\ queryable a' "file_csv_people"
  /\ (forall n, queryable a' n
                <-> same_name n "file_csv_people" = true \/ queryable a n).
Proof.
  intros a a'.
  assert (H0 : registry_sound Ex.ready).
  { intros n (t & [] & _). }
  pose proof (registerFile_keeps_registry_sound ref_engine Ex.N Ex.ready_ui
                (Ex.people_csv "a-b.csv") Ex.ready eq_refl H0) as (Ha & _).
  fold a in Ha.
  pose proof (registerFile_keeps_registry_sound ref_engine Ex.N (ui a)
                (Ex.people_csv "people.csv") a eq_refl Ha)
    as (Ha' & _ & _ & Hend).
  fold a' in Ha', Hend.
  change (error (ui a')) with (@None string) in Hend.
  destruct Hend as (Htables & Hfree & Hiff & _).
  split; [reflexivity|]. split; [exact Ha|]. split; [exact Ha'|].
  split; [reflexivity|]. split; [exact Hfree|]. split; [reflexivity|exact Hiff].
Defined.

(** C3, as stated, fails: an ingestion that fails after its [CREATE TABLE]
    leaves an engine table that has no record. Here the sheet's data row is
    longer than its header row, so the [INSERT] is rejected. *)
Lemma failed_ingestion_breaks_lockstep :
  lockstep Ex.ready
  /\ ~ lockstep (on_registerFile ref_engine Ex.N Ex.long_row_book Ex.ready).
Proof.
  split; [exact lockstep_ready|].
  intros H. specialize (H "file_xlsx_book"). destruct H as [H _].
  destruct H as (m & (t & Hin & _) & _); [reflexivity|]. exact Hin.
Qed.

Example failed_ingestion_state :
  let a := on_registerFile ref_engine Ex.N Ex.long_row_book Ex.ready in
  tables (ui a) = []
  /\ error (ui a)
     = Some "Binder Error: table file_xlsx_book has 1 columns but 2 values were supplied"
  /\ has_table ref_engine (eng (world a)) "file_xlsx_book" = true
  /\ map sql_text (sent (world a))
     = ["CREATE TABLE file_xlsx_book (" ++ JSString.dquote ++ "a" ++ JSString.dquote
        ++ " VARCHAR)";
        "INSERT INTO file_xlsx_book VALUES ('1', '2')"].
Proof. repeat split. Qed.

(** ** Table names across ingestions *)

Section NameFacts.

Variable E : Engine.
Variable Number_toString : spec_float -> string.

(** An ingestion handled by the latest render either leaves the registry
    as it is or appends one record whose name no earlier record bears. *)
Lemma on_registerFile_tables (file : File) (a : App E) :
  let a' := on_registerFile E Number_toString file a in
  tables (ui a') = tables (ui a)
  \/ exists t, tables (ui a') = (tables (ui a) ++ [t])%list
               /\ ~ In (name t) (map name (tables (ui a))).
Proof.
  unfold on_registerFile, registerFile.
  destruct (isInitialized (ui a)); simpl negb; cbv iota; [|now left].
  destruct (registerFileAsTable E Number_toString file _ (world a)) as [[err|[]] w'].
  - now left.
  - right. eexists. split; [reflexivity|]. simpl. apply generateTableName_fresh.
Qed.

(** Names stay unique when every ingestion is handled by the render that
    follows the previous one. *)
Lemma sequential_ingestions_unique (files : list File) : forall a : App E,
  NoDup (map name (tables (ui a))) ->
  NoDup (map name (tables (ui (fold_left
                                 (fun a f => on_registerFile E Number_toString f a)
                                 files a)))).
Proof.
  induction files as [|f files IH]; intros a Hnd; [exact Hnd|].
  simpl. apply IH.
  destruct (on_registerFile_tables f a) as [->|(t & -> & Hfresh)]; [exact Hnd|].
  rewrite map_app. simpl. apply NoDup_app; trivial.
  - constructor; [intros []|constructor].
  - intros x Hx [<-|[]]. contradiction.
Qed.

(** The derived name depends on the file only through its base name. *)
Lemma generateTableName_same_base tables f1 e1 f2 e2 :
  generateTableName_base f1 e1 = generateTableName_base f2 e2 ->
  generateTableName tables f1 e1 = generateTableName tables f2 e2.
Proof. unfold generateTableName. now intros ->. Qed.

(** Two ingestions by the [registerFile] of one render, of files with the
    same base name: when the first succeeds, the second derives the same
    name again and fails, so the registry gains one record, not two. *)
Lemma second_ingestion_of_one_render_fails
  (render : ProviderState) (f1 f2 : File) (a : App E) :
  names_stay_quoted Number_toString f1 = true ->
  names_stay_quoted Number_toString f2 = true ->
  generateTableName_base (file_name f1) (file_ext (file_name f1))
  = generateTableName_base (file_name f2) (file_ext (file_name f2)) ->
  let a1 := registerFile E Number_toString render f1 a in
  let a2 := registerFile E Number_toString render f2 a1 in
  tables (ui a1) <> tables (ui a) ->
  tables (ui a2) = tables (ui a1) /\ error (ui a2) <> None.
Proof.
  intros Hs1 Hs2 Hbase a1 a2 Hgrew.
  destruct (registerFile_catalog E Number_toString render f1 a Hs1)
    as (_ & _ & H1).
  fold a1 in H1.
  destruct (error (ui a1)) as [msg|]; [contradiction|].
  destruct H1 as (_ & _ & Hadd).
  destruct (registerFile_catalog E Number_toString render f2 a1 Hs2)
    as (_ & _ & H2).
  fold a2 in H2.
  rewrite <- (generateTableName_same_base (tables render) _ _ _ _ Hbase) in H2.
  destruct (error (ui a2)) as [msg|]; [split; [exact H2|discriminate]|].
  destruct H2 as (_ & Hfree & _). exfalso.
  rewrite Hadd, same_name_refl in Hfree. discriminate.
Qed.

End NameFacts.

(** C4, the derivation itself: the name depends only on the registry, the
    file name and the format; it is the sanitized file name behind the
    format tag, with the first numeric suffix that makes it differ from
    every registered name. *)
Lemma generateTableName_derivation tables file_name ext :
  exists k,
    generateTableName tables file_name ext
    = candidate ("file_" ++ ext ++ "_"
                 ++ JSString.sanitize (JSString.remove_first ("." ++ ext) file_name)) k
    /\ ~ In (generateTableName tables file_name ext) (map name tables)
    /\ forall j, (j < k)%nat ->
         In (candidate (generateTableName_base file_name ext) j) (map name tables).
Proof.
  destruct (generateTableName_spec tables file_name ext) as (k & Hk & Hf & Hall).
  exists k. split; [exact Hk|]. split; [apply generateTableName_fresh|].
  intros j Hj. apply taken_In. now apply Hall.
Qed.

(** C4, the consequence, fails when the files arrive in one selection: the
    loop of [handleFileSelect] calls the [registerFile] of one render for
    every file, and that closure's [tables] is the registry as it was
    before the first of them. Two files whose names sanitize alike derive
    the same table name twice; the engine rejects the second
    [CREATE TABLE], and the registry ends with one name, not two. *)
Theorem batch_ingestion_reuses_name :
  let files := [Ex.people_csv "a-b.csv"; Ex.people_csv "a_b.csv"] in
  let a := handleFileSelect ref_engine Ex.N Ex.ready_ui files Ex.ready in
  generateTableName [] "a-b.csv" "csv" = "file_csv_a_b"
  /\ generateTableName [] "a_b.csv" "csv" = "file_csv_a_b"
  /\ map name (tables (ui a)) = ["file_csv_a_b"]
  /\ error (ui a)
     = Some "Catalog Error: Table with name file_csv_a_b already exists!"
  /\ map sql_text (sent (world a))
     = ["CREATE TABLE file_csv_a_b AS SELECT * FROM read_csv_auto('memory://a-b.csv')";
        "CREATE TABLE file_csv_a_b AS SELECT * FROM read_csv_auto('memory://a_b.csv')"].
Proof. repeat split. Qed.

(** The same two files, each handled by the render that follows the
    previous ingestion, get two names. *)
Example separate_ingestions_get_suffix :
  let a1 := on_registerFile ref_engine Ex.N (Ex.people_csv "a-b.csv") Ex.ready in
  let a2 := on_registerFile ref_engine Ex.N (Ex.people_csv "a_b.csv") a1 in
  map name (tables (ui a2)) = ["file_csv_a_b"; "file_csv_a_b_1"]
  /\ error (ui a2) = None.
Proof. repeat split. Qed.

(** ** Queries *)

Section QueryFacts.

Variable E : Engine.

(** Every outcome of [runQuery]: without a connection it throws and
    nothing is sent; with one the text is sent once, and the call ends with
    the engine's error, with the [TypeError] of the conversion, or with the
    answer converted. *)
Lemma runQuery_cases (sql : string) (w : World E) :
  match runQuery E sql w with
  | (r, w') =>
      if initialized w then
        sent w' = (sent w ++ [UserSql sql])%list
        /\ initialized w' = true
        /\ match query E sql (eng w) with
           | (inl e, st') => r = inl e /\ eng w' = st'
           | (inr answer, st') =>
               eng w' = st'
               /\ r = if existsb repeats_key (toArray answer)
                      then inl duplicate_keys_error
                      else inr {| columns := fields answer;
                                  rows := map convertBigIntValues (toArray answer) |}
           end
      else
        r = inl {| kind := JsError; message := "DuckDB connection not initialized" |}
        /\ w' = w
  end.
Proof.
  unfold runQuery. destruct (initialized w) eqn:Hinit; simpl negb; cbv iota.
  - unfold bind at 1, conn_query. simpl sql_text.
    destruct (query E sql (eng w)) as [[e|answer] st'] eqn:Hq.
    + simpl. rewrite Hinit. auto.
    + unfold bind, convertBigIntValues_rows.
      destruct (existsb repeats_key (toArray answer)); simpl; rewrite Hinit; auto.
  - unfold throw_Error, throw. auto.
Qed.


(** What the provider's own caller, [executeQuery], makes of the outcome:
    on a failure it records the message and sets the held result to null;
    on a success the held result is the new one. *)
Lemma executeQuery_outcome (render : ProviderState) (sql : string) (a : App E) :
  isInitialized render = true ->
  let a' := executeQuery E render sql a in
  match runQuery E sql (world a) with
  | (inl err, w') =>
      queryResult (ui a') = None
      /\ error (ui a') = Some (message err)
      /\ world a' = w'
  | (inr result, w') =>
      queryResult (ui a') = Some result
      /\ error (ui a') = None
      /\ world a' = w'
  end
  /\ tables (ui (executeQuery E render sql a)) = tables (ui a)
  /\ isQueryRunning (ui (executeQuery E render sql a)) = false.
Proof.
  intros Hinit. unfold executeQuery. rewrite Hinit. simpl negb. cbv iota.
  destruct (runQuery E sql (world a)) as [[err|result] w']; simpl; auto.
Qed.

End QueryFacts.

Definition earlier_result : QueryResult :=
  {| columns := ["cnt"]; rows := [JObject [("cnt", JNumber (Host.Number 3))]] |}.

(** The application holding the result of an earlier query. *)
Definition with_result : App ref_engine :=
  {| ui := setQueryResult (Some earlier_result) Ex.ready_ui; world := world Ex.ready |}.

(** On the reference engine: a query on a table that does not exist, made
    while an earlier result is held. [runQuery] leaves the held result
    alone; [executeQuery], its caller in the provider, then sets it to
    null. *)
Example failed_query_and_its_callers :
  fst (call_runQuery (count_rows_sql "missing") with_result)
  = inl {| kind := TableNotFound;
           message := "Catalog Error: Table with name missing does not exist!" |}
  /\ queryResult (ui (snd (call_runQuery (count_rows_sql "missing") with_result)))
     = Some earlier_result
  /\ queryResult (ui (on_executeQuery ref_engine (count_rows_sql "missing")
                        with_result)) = None
  /\ error (ui (on_executeQuery ref_engine (count_rows_sql "missing") with_result))
     = Some "Catalog Error: Table with name missing does not exist!".
Proof. repeat split. Qed.

(** ** Removal *)

Section RemovalFacts.

Variable E : Engine.
Variable same_file : File -> File -> bool.

(** [handleRemoveFile] on a file that has a record: the first call of
    [removeTable] raises the [TypeError], and the handler ends there with
    nothing changed. On a file without a record the loop has no
    iteration, and the file leaves the list of selected files; the
    registry and the engine are not touched either way. *)
Lemma handleRemoveFile_outcome (tables : list TableInfo) (f : File)
  (u : FileSelector.UI E) :
  let related :=
    filter (fun t => JSString.startsWith (fileName t)
                       (JSText.strip_extension (file_name f))) tables in
  match FileSelector.handleRemoveFile E same_file tables f u with
  | (r, u') =>
      FileSelector.app E u' = FileSelector.app E u
      /\ match related with
         | _ :: _ =>
             r = inl {| kind := JsTypeError;
                        message := "removeTable is not a function" |}
             /\ u' = u
         | [] =>
             r = inr tt
             /\ FileSelector.selectedFiles (FileSelector.sel E u')
                = filter (fun x => negb (same_file x f))
                    (FileSelector.selectedFiles (FileSelector.sel E u))
         end
  end.
Proof.
  intros related. unfold FileSelector.handleRemoveFile. fold related.
  destruct related as [|t rest]; simpl; auto.
Qed.

End RemovalFacts.

(** The component after people.csv was selected and ingested. *)
Definition people_listed : FileSelector.UI ref_engine :=
  {| FileSelector.sel :=
       {| FileSelector.isDragOver := false;
          FileSelector.selectedFiles := [Ex.people_csv "people.csv"];
          FileSelector.excelSheetModal := None;
          FileSelector.selectedSheets := [];
          FileSelector.exploreModal := None |};
     FileSelector.app :=
       on_registerFile ref_engine Ex.N (Ex.people_csv "people.csv") Ex.ready |}.

(** C5. The [Remove] button of a file that has been ingested: the call
    of [removeTable] raises a [TypeError], because the provider defines no
    such function. No [DROP TABLE] is sent, the engine keeps the table,
    the registry keeps the record, the file stays in the list, and a later
    query on the table is answered as before. *)
Theorem remove_button_removes_nothing (same_file : File -> File -> bool) :
  let u := people_listed in
  let a := FileSelector.app ref_engine u in
  let '(r, u') :=
    FileSelector.handleRemoveFile ref_engine same_file (tables (ui a))
      (Ex.people_csv "people.csv") u in
  let a' := FileSelector.app ref_engine u' in
  map name (tables (ui a)) = ["file_csv_people"]
  /\ has_table ref_engine (eng (world a)) "file_csv_people" = true
  /\ r = inl {| kind := JsTypeError; message := "removeTable is not a function" |}
  /\ u' = u
  /\ sent (world a') = sent (world a)
  /\ map name (tables (ui a')) = ["file_csv_people"]
  /\ has_table ref_engine (eng (world a')) "file_csv_people" = true
  /\ FileSelector.selectedFiles (FileSelector.sel ref_engine u')
     = [Ex.people_csv "people.csv"]
  /\ fst (runQuery ref_engine (count_rows_sql "file_csv_people") (world a'))
     = inr {| columns := ["cnt"]; rows := [JObject [("cnt", JNumber (Host.Number 3))]] |}.
Proof. repeat split. Qed.

(** ** The Parquet fallback *)

(** What the fallback is written for: rows that are arrays, with the name
    of the column first and its declared type second. On such rows a
    column whose type's text holds BIGINT or HUGEINT is declared VARCHAR
    and every other column keeps its type. *)
Example schema_columns_of_array_rows :
  schema_columns Ex.N
    [JArray [JString "id"; JString "BIGINT"; JString "YES"];
     JArray [JString "total"; JString "HUGEINT"; JString "YES"];
     JArray [JString "price"; JString "DOUBLE"; JString "YES"]]
  = inr [JSString.dquote ++ "id" ++ JSString.dquote ++ " VARCHAR";
         JSString.dquote ++ "total" ++ JSString.dquote ++ " VARCHAR";
         JSString.dquote ++ "price" ++ JSString.dquote ++ " DOUBLE"].
Proof. reflexivity. Qed.

(** The rows the fallback gets: [convertBigIntValues] returns every row
    of the answer as an object keyed by the fields of the answer, which
    has no member [1]. *)
Example schema_column_of_keyed_row :
  let row := RefEngine.describe_column ("id", "BIGINT") in
  convertBigIntValues row = row
  /\ JSText.get_member row "1" = inr JUndefined
  /\ JSText.get_member row "column_type" = inr (JString "BIGINT")
  /\ schema_column Ex.N row = inl includes_of_undefined.
Proof. repeat split. Qed.

Section FallbackFacts.

Variable E : Engine.
Variable Number_toString : spec_float -> string.

(** On every engine that meets the contract: when the direct scan of a
    Parquet file fails and the [DESCRIBE] is answered with at least one
    row, the fallback ends with the [TypeError] of [columnType.includes]
    right after the [DESCRIBE]: no [CREATE TABLE] with a rewritten schema
    is sent, and no table is created. *)
Lemma parquet_fallback_raises
  (file : File) (tableName : string) (w : World E)
  (st0 st1 st2 : state E) (e : Error) (answer : ArrowTable) :
  initialized w = true ->
  file_ext (file_name file) = "parquet" ->
  clean_file_name (file_name file) = true ->
  registerFileHandle E ("memory://" ++ file_name file) file (eng w) = (inr tt, st0) ->
  query E (sql_text (CreateTableAsParquet tableName (file_name file))) st0
  = (inl e, st1) ->
  query E (sql_text (DescribeParquet (file_name file))) st1 = (inr answer, st2) ->
  toArray answer <> [] ->
  registerFileAsTable E Number_toString file tableName w
  = (inl includes_of_undefined,
     {| initialized := true; eng := st2;
        sent := (sent w ++ [CreateTableAsParquet tableName (file_name file);
                            DescribeParquet (file_name file)])%list |}).
Proof.
  intros Hinit Hext Hf Hreg Hdirect Hdesc Hrows.
  pose proof (describe_answer_is_keyed E _ _ _ _ Hf Hdesc) as Hshape.
  destruct (describe_rows_columns Number_toString _ Hshape) as (Hconv & Hcols).
  unfold registerFileAsTable. rewrite Hinit. simpl negb. cbv iota.
  unfold file_ext in Hext. rewrite Hext. simpl String.eqb. cbv iota.
  unfold bind at 1, db_registerFileHandle. rewrite Hreg.
  unfold try_catch, bind at 1, conn_query at 1. cbn [eng]. rewrite Hdirect.
  unfold bind at 1, conn_query at 1. cbn [eng]. rewrite Hdesc.
  unfold bind at 1. rewrite Hconv. unfold lift at 1, ret at 1.
  cbn [rows_of]. unfold bind at 1. rewrite Hcols.
  destruct (toArray answer) as [|row rest]; [contradiction|].
  unfold lift, throw. cbn [initialized sent]. rewrite Hinit, <- app_assoc.
  reflexivity.
Qed.

End FallbackFacts.

(** A Parquet file whose direct scan the engine rejects. *)
Definition wide_parquet : File :=
  {| file_name := "wide.parquet";
     body := Tabular [("id", "BIGINT"); ("tags", "BIGINT[]"); ("name", "VARCHAR");
                      ("total", "HUGEINT"); ("price", "DOUBLE")] 2 false |}.

(** C2. The fallback of the Parquet ingestor, on a file with two wide
    integer columns whose direct scan fails: the schema is read with
    [DESCRIBE], and the rewriting of the schema ends with a [TypeError] at
    its first row, because the rows are objects keyed by field names and
    the code reads [row[1]]. No column is declared VARCHAR, no
    [CREATE TABLE] with a rewritten schema is sent, and the file gets no
    table. *)
Theorem parquet_fallback_raises_type_error :
  let '(r, w') :=
    registerFileAsTable ref_engine Ex.N wide_parquet "t" (world Ex.ready) in
  r = inl {| kind := JsTypeError;
             message := "Cannot read properties of undefined (reading 'includes')" |}
  /\ map sql_text (sent w')
     = ["CREATE TABLE t AS SELECT * FROM parquet_scan('memory://wide.parquet')";
        "DESCRIBE parquet_scan('memory://wide.parquet')"]
  /\ has_table ref_engine (eng w') "t" = false
  /\ error (ui (on_registerFile ref_engine Ex.N wide_parquet Ex.ready))
     = Some "Cannot read properties of undefined (reading 'includes')"
  /\ tables (ui (on_registerFile ref_engine Ex.N wide_parquet Ex.ready)) = [].
Proof. repeat split. Qed.

(** The direct scan also fails when the table exists already: here the
    same Parquet file is handed twice to the [registerFile] of one render.
    The fallback is entered, and what the user is told is the [TypeError],
    not that the table exists. *)
Example parquet_fallback_after_name_clash :
  let file := {| file_name := "a.parquet";
                 body := Tabular [("id", "BIGINT")] 2 true |} in
  let a1 := registerFile ref_engine Ex.N Ex.ready_ui file Ex.ready in
  let a2 := registerFile ref_engine Ex.N Ex.ready_ui file a1 in
  error (ui a1) = None
  /\ map name (tables (ui a1)) = ["file_parquet_a"]
  /\ error (ui a2)
     = Some "Cannot read properties of undefined (reading 'includes')"
  /\ map sql_text (sent (world a2))
     = ["CREATE TABLE file_parquet_a AS SELECT * FROM parquet_scan('memory://a.parquet')";
        "CREATE TABLE file_parquet_a AS SELECT * FROM parquet_scan('memory://a.parquet')";
        "DESCRIBE parquet_scan('memory://a.parquet')"].
Proof. repeat split. Qed.

(** ** The spreadsheet ingestor *)

Lemma push_nulls_repeat deficit : forall values,
  push_nulls deficit values = (values ++ repeat (Some "NULL") deficit)%list.
Proof.
  induction deficit as [|d IH]; intros values; simpl.
  - now rewrite app_nil_r.
  - rewrite IH, <- app_assoc. reflexivity.
Qed.

Section SpreadsheetFacts.

Variable E : Engine.
Variable Number_toString : spec_float -> string.

Lemma row_values_padded (headers row : JSArray Cell) :
  row_values Number_toString headers row
  = (JSArr.map (cell_literal Number_toString) row
     ++ repeat (Some "NULL") (List.length headers - List.length row))%list.
Proof.
  unfold row_values. rewrite push_nulls_repeat. unfold JSArr.map.
  now rewrite length_map.
Qed.

Lemma row_values_length (headers row : JSArray Cell) :
  List.length (row_values Number_toString headers row)
  = Nat.max (List.length headers) (List.length row).
Proof.
  rewrite row_values_padded, length_app, repeat_length. unfold JSArr.map.
  rewrite length_map. lia.
Qed.

Lemma registerFileAsTable_xlsx
  (file : File) (tableName : string) (headers : JSArray Cell)
  (rows : list (JSArray Cell)) (w : World E) :
  initialized w = true ->
  is_excel (file_ext (file_name file)) = true ->
  body file = Workbook (headers :: rows) ->
  registerFileAsTable E Number_toString file tableName w
  = bind (conn_query (CreateTable tableName (header_columns Number_toString headers)))
      (fun _ => for_of rows (insert_row E Number_toString tableName headers)) w.
Proof.
  intros Hinit Hext Hbody. unfold file_ext, is_excel in Hext.
  unfold registerFileAsTable. rewrite Hinit. simpl negb. cbv iota.
  apply orb_true_iff in Hext. destruct Hext as [Hx|Hx];
    apply String.eqb_eq in Hx; rewrite Hx; simpl String.eqb; cbv iota;
    simpl orb; cbv iota; unfold bind at 1, xlsx_first_sheet; rewrite Hbody;
    reflexivity.
Qed.




End SpreadsheetFacts.




(** C8. Two blank headers get the same placeholder: [indexOf] finds the
    first of them both times, so the second is not named after its own
    position, the two column names collide, and the engine rejects the
    [CREATE TABLE]: no row is inserted. *)
Theorem blank_headers_share_placeholder :
  let headers := [Ex.str "id"; Ex.str ""; Ex.str ""; Ex.str "name"] in
  let row := [Ex.str "1"; Ex.str "x"; Ex.str "y"; Ex.str "Ann"] in
  let file := {| file_name := "blank.xlsx"; body := Workbook [headers; row] |} in
  let '(r, w') := registerFileAsTable ref_engine Ex.N file "t" (world Ex.ready) in
  header_columns Ex.N headers
  = [Some (JSString.dquote ++ "id" ++ JSString.dquote ++ " VARCHAR");
     Some (JSString.dquote ++ "column_1" ++ JSString.dquote ++ " VARCHAR");
     Some (JSString.dquote ++ "column_1" ++ JSString.dquote ++ " VARCHAR");
     Some (JSString.dquote ++ "name" ++ JSString.dquote ++ " VARCHAR")]
  /\ r = inl {| kind := EngineError; message := "Catalog Error: Column already exists!" |}
  /\ sent w' = [CreateTable "t" (header_columns Ex.N headers)]
  /\ has_table ref_engine (eng w') "t" = false.
Proof. repeat split. Qed.

(** The scenario of the specification, one blank header in column 2, when
    the blank header is an empty string: the second column is column_1. *)
Example one_blank_header :
  map sql_text
    (sent (snd (registerFileAsTable ref_engine Ex.N
                  {| file_name := "one.xlsx";
                     body := Workbook [[Ex.str "id"; Ex.str ""; Ex.str "name"];
                                       [Ex.str "1"; Ex.str "x"; Ex.str "Ann"]] |}
                  "t" (world Ex.ready))))
  = ["CREATE TABLE t (" ++ JSString.dquote ++ "id" ++ JSString.dquote ++ " VARCHAR, "
       ++ JSString.dquote ++ "column_1" ++ JSString.dquote ++ " VARCHAR, "
       ++ JSString.dquote ++ "name" ++ JSString.dquote ++ " VARCHAR)";
     "INSERT INTO t VALUES ('1', 'x', 'Ann')"].
Proof. reflexivity. Qed.

(** When the blank header is a cell the sheet does not have, the header row
    has a hole there: [map] skips it and [join] leaves its place empty, so
    the statement has no second column definition at all. *)
Example missing_header_cell :
  map sql_text
    (sent (snd (registerFileAsTable ref_engine Ex.N
                  {| file_name := "hole.xlsx";
                     body := Workbook [[Ex.str "id"; None; Ex.str "name"];
                                       [Ex.str "1"; Ex.str "x"; Ex.str "Ann"]] |}
                  "t" (world Ex.ready))))
  = ["CREATE TABLE t (" ++ JSString.dquote ++ "id" ++ JSString.dquote ++ " VARCHAR, , "
       ++ JSString.dquote ++ "name" ++ JSString.dquote ++ " VARCHAR)"].
Proof. reflexivity. Qed.

(** A data row with a cell the sheet does not have in its middle: the hole
    stays a hole in [values], [join] leaves its place empty, and the engine
    cannot parse the statement. *)
Example missing_data_cell :
  let file := {| file_name := "gap.xlsx";
                 body := Workbook [[Ex.str "id"; Ex.str "name"; Ex.str "city"];
                                   [Ex.str "1"; None; Ex.str "Oslo"]] |} in
  let '(r, w') := registerFileAsTable ref_engine Ex.N file "t" (world Ex.ready) in
  r = inl {| kind := ParserError; message := "Parser Error: syntax error" |}
  /\ map sql_text (sent w')
     = ["CREATE TABLE t (" ++ JSString.dquote ++ "id" ++ JSString.dquote ++ " VARCHAR, "
          ++ JSString.dquote ++ "name" ++ JSString.dquote ++ " VARCHAR, "
          ++ JSString.dquote ++ "city" ++ JSString.dquote ++ " VARCHAR)";
        "INSERT INTO t VALUES ('1', , 'Oslo')"].
Proof. split; reflexivity. Qed.

(** ** Engine session initialization *)

(** Once [db] and [conn] are set, a call returns them at once and creates
    nothing. *)
Lemma initDuckDB_ready_returns env l d k :
  Init.db l = Some d -> Init.conn l = Some k ->
  Init.step env Init.NotStarted l = (Init.Resolved d k, l).
Proof. intros Hd Hk. simpl. now rewrite Hd, Hk. Qed.

(** A second call made after the first has finished finds the session
    ready: one worker, one database. *)
Example initDuckDB_calls_in_turn :
  let '(a, b, l) :=
    Init.run Init.all_resolve [true; true; true; true; false]
      Init.NotStarted Init.NotStarted Init.fresh in
  a = Init.Resolved 0 0 /\ b = Init.Resolved 0 0
  /\ Init.workers l = 1%nat /\ Init.databases l = 1%nat.
Proof. repeat split. Qed.

Lemma step_creates_only env c l :
  (Init.workers l <= Init.workers (snd (Init.step env c l)))%nat
  /\ (Init.databases l <= Init.databases (snd (Init.step env c l)))%nat.
Proof.
  destruct c; simpl;
    repeat match goal with
           | |- context [match ?x with _ => _ end] => destruct x
           | |- context [if ?x then _ else _] => destruct x
           end; simpl; lia.
Qed.

Lemma run_creates_only env schedule : forall a b l,
  (Init.workers l <= Init.workers (snd (Init.run env schedule a b l)))%nat
  /\ (Init.databases l <= Init.databases (snd (Init.run env schedule a b l)))%nat.
Proof.
  induction schedule as [|[|] rest IH]; intros a b l; simpl; [lia| |].
  - pose proof (step_creates_only env a l) as H.
    destruct (Init.step env a l) as [a' l']. simpl in H.
    specialize (IH a' b l'). lia.
  - pose proof (step_creates_only env b l) as H.
    destruct (Init.step env b l) as [b' l']. simpl in H.
    specialize (IH a b' l'). lia.
Qed.

Lemma run_app env s1 : forall s2 a b l,
  Init.run env (s1 ++ s2)%list a b l
  = let '(a', b', l') := Init.run env s1 a b l in Init.run env s2 a' b' l'.
Proof.
  induction s1 as [|[|] s1 IH]; intros s2 a b l; simpl.
  - now destruct (Init.run env s2 a b l) as [[a' b'] l'].
  - destruct (Init.step env a l) as [a' l']. apply IH.
  - destruct (Init.step env b l) as [b' l']. apply IH.
Qed.

(** A call that starts while [conn] is still null goes on to create a
    worker and a database of its own, whether [db] is set or not. *)
Lemma initDuckDB_not_ready_creates env l :
  Init.conn l = None -> Init.bundle_has_mainWorker env = true ->
  let '(c1, l1) := Init.step env Init.NotStarted l in
  let '(c2, l2) := Init.step env c1 l1 in
  c2 = Init.AwaitInstantiate
  /\ Init.workers l2 = S (Init.workers l)
  /\ Init.databases l2 = S (Init.databases l).
Proof.
  intros Hc Hb. simpl. rewrite Hc. destruct (Init.db l); simpl; rewrite Hb; simpl; auto.
Qed.

(** C9. Two calls that overlap: the second starts before the first has set
    [conn], either while the first is suspended in
    [await selectBundle(bundles)] (first schedule) or while it is suspended
    in [await db.instantiate(...)] (second schedule), so the guard
    [if (db && conn)] lets it through. Each call creates its own worker and
    its own database, and the second assignment to [db] replaces the
    first. However the calls go on from there, two workers and two
    databases exist. *)
Theorem overlapping_initDuckDB_calls_create_two_engines
  (instantiate_ok connect_ok : bool) (rest : list bool) :
  let env := {| Init.bundle_has_mainWorker := true;
                Init.instantiate_resolves := instantiate_ok;
                Init.connect_resolves := connect_ok |} in
  let both (schedule : list bool) :=
    Init.run env schedule Init.NotStarted Init.NotStarted Init.fresh in
  both [true; false; true; false]
  = (Init.AwaitInstantiate, Init.AwaitInstantiate,
     {| Init.db := Some 1%nat; Init.conn := None; Init.workers := 2;
        Init.databases := 2; Init.connections := [] |})
  /\ both [true; true; false; false]
     = (Init.AwaitInstantiate, Init.AwaitInstantiate,
        {| Init.db := Some 1%nat; Init.conn := None; Init.workers := 2;
           Init.databases := 2; Init.connections := [] |})
  /\ (2 <= Init.workers (snd (both ([true; false; true; false] ++ rest)%list)))%nat
  /\ (2 <= Init.databases (snd (both ([true; false; true; false] ++ rest)%list)))%nat
  /\ (2 <= Init.workers (snd (both ([true; true; false; false] ++ rest)%list)))%nat
  /\ (2 <= Init.databases (snd (both ([true; true; false; false] ++ rest)%list)))%nat.
Proof.
  cbv zeta. split; [reflexivity|]. split; [reflexivity|].
  rewrite !run_app.
  change (Init.run _ [true; false; true; false] Init.NotStarted Init.NotStarted
            Init.fresh)
    with (Init.AwaitInstantiate, Init.AwaitInstantiate,
          {| Init.db := Some 1%nat; Init.conn := None; Init.workers := 2;
             Init.databases := 2; Init.connections := [] |}).
  change (Init.run _ [true; true; false; false] Init.NotStarted Init.NotStarted
            Init.fresh)
    with (Init.AwaitInstantiate, Init.AwaitInstantiate,
          {| Init.db := Some 1%nat; Init.conn := None; Init.workers := 2;
             Init.databases := 2; Init.connections := [] |}).
  cbv beta iota.
  set (l2 := {| Init.db := Some 1%nat; Init.conn := None; Init.workers := 2;
                Init.databases := 2; Init.connections := [] |}).
  pose proof (run_creates_only
                {| Init.bundle_has_mainWorker := true;
                   Init.instantiate_resolves := instantiate_ok;
                   Init.connect_resolves := connect_ok |}
                rest Init.AwaitInstantiate Init.AwaitInstantiate l2) as [Hw Hd].
  change (Init.workers l2) with 2%nat in Hw.
  change (Init.databases l2) with 2%nat in Hd.
  repeat split; assumption.
Qed.

(** The two calls run to completion, every awaited promise resolving. *)
Example overlapping_initDuckDB_calls_complete :
  let '(a, b, l) :=
    Init.run Init.all_resolve [true; false; true; false; true; false; true; false]
      Init.NotStarted Init.NotStarted Init.fresh in
  Init.workers l = 2%nat /\ Init.databases l = 2%nat
  /\ a = Init.Resolved 1 0 /\ b = Init.Resolved 1 1.
Proof. repeat split. Qed.

(* ===================================================================== *)
(** * Further properties of [src/lib/duckdb.ts] *)
(* ===================================================================== *)

(** ** [convertBigIntValues] *)

(** X1. Whatever value [convertBigIntValues] is given, no
    bigint is left anywhere in its result, at any depth, and no object of
    the result lists a key twice: the result can be serialized. *)
Theorem convertBigIntValues_result_is_serializable (data : JSValue) :
  has_bigint (convertBigIntValues data) = false
  /\ wf_value (convertBigIntValues data).
Proof.
  split.
  - apply convert_no_bigint.
  - apply convert_wf.
Qed.

(** X2. Conversion keeps the shape of a value, properties
    named [__proto__] apart: a position (a sequence of array indices and
    object keys) that goes through no key [__proto__] exists in the result
    exactly when it exists in the input, and what the result holds there is
    the conversion of what the input holds there. *)
Theorem convertBigIntValues_commutes_with_access
  (data : JSValue) (path : list Step) :
  wf_value data -> through_proto path = false ->
  get_path path (convertBigIntValues data)
  = option_map convertBigIntValues (get_path path data).
Proof.
  intros Hwf Hpath. rewrite (get_path_convert path data Hwf Hpath).
  now destruct (get_path path data).
Qed.

Lemma convertBigIntValues_commutes_with_access_witness :
  let data := JArray [JObject [("n", JBigInt 5); ("tags", JArray [JString "a"])]] in
  wf_value data
  /\ through_proto [Index 0; Key "tags"] = false
  /\ get_path [Index 0; Key "tags"] (convertBigIntValues data)
     = Some (JArray [JString "a"])
  /\ get_path [Index 1] (convertBigIntValues data) = None.
Proof.
  intros data.
  assert (Hwf : wf_value data).
  { constructor. constructor; [|constructor]. constructor.
    - simpl. constructor; [|constructor; [|constructor]]; simpl; intuition discriminate.
    - repeat constructor. }
  split; [exact Hwf|]. split; [reflexivity|]. split.
  - exact (convertBigIntValues_commutes_with_access data [Index 0; Key "tags"]
             Hwf eq_refl).
  - exact (convertBigIntValues_commutes_with_access data [Index 1] Hwf eq_refl).
Defined.

(** X3. A value that holds no bigint, whose objects list
    their keys in the order in which an object lists its properties and
    have no property named [__proto__], comes back from
    [convertBigIntValues] as an equal value: numbers, strings, booleans,
    nulls and the arrays and objects made of them are left alone. *)
Theorem convertBigIntValues_keeps_values_without_bigint (data : JSValue) :
  wf_value data -> keys_in_order data = true -> has_proto_key data = false ->
  has_bigint data = false ->
  convertBigIntValues data = data.
Proof.
  intros Hwf Hord Hproto Hnb. now apply convert_fixed.
Qed.

Lemma convertBigIntValues_keeps_values_without_bigint_witness :
  let data := JArray [JObject [("name", JString "Ann"); ("ok", JBool true)]; JNull] in
  wf_value data /\ keys_in_order data = true /\ has_proto_key data = false
  /\ has_bigint data = false /\ convertBigIntValues data = data.
Proof.
  intros data.
  assert (Hwf : wf_value data).
  { constructor. constructor; [|repeat constructor]. constructor.
    - simpl. constructor; [|constructor; [|constructor]]; simpl; intuition discriminate.
    - repeat constructor. }
  split; [exact Hwf|]. split; [reflexivity|]. split; [reflexivity|].
  split; [reflexivity|].
  exact (convertBigIntValues_keeps_values_without_bigint data Hwf
           eq_refl eq_refl eq_refl).
Defined.

(** The hypotheses on keys are needed: an object that [JSON.parse] made
    with an integer key after another key comes back with the integer key
    first. *)
Example convertBigIntValues_lists_index_keys_first :
  convertBigIntValues (JObject [("b", JNull); ("1", JNull)])
  = JObject [("1", JNull); ("b", JNull)].
Proof. reflexivity. Qed.

(** ** [runQuery] *)

Section RunQueryFacts.

Variable E : Engine.

(** The log after a [runQuery]: one more statement with a connection, none
    without. *)
Lemma runQuery_sent (sql : string) (w : World E) :
  sent (snd (runQuery E sql w))
  = if initialized w then (sent w ++ [UserSql sql])%list else sent w.
Proof.
  pose proof (runQuery_cases E sql w) as H.
  destruct (runQuery E sql w) as [r w'], (initialized w); cbn [snd].
  - apply H.
  - destruct H as [_ ->]. reflexivity.
Qed.

Lemma runQuery_initialized (sql : string) (w : World E) :
  initialized (snd (runQuery E sql w)) = initialized w.
Proof.
  pose proof (runQuery_cases E sql w) as H.
  destruct (runQuery E sql w) as [r w'], (initialized w) eqn:Hi; cbn [snd].
  - apply H.
  - destruct H as [_ ->]. exact Hi.
Qed.

Lemma runQuery_success_initialized (sql : string) (w : World E) result w' :
  runQuery E sql w = (inr result, w') -> initialized w = true.
Proof.
  unfold runQuery. destruct (initialized w); [reflexivity|]. discriminate.
Qed.

(** X4. [runQuery] without a connection throws
    [DuckDB connection not initialized] and sends nothing. With one it
    sends exactly the text it was given, once; a failure of the engine is
    thrown on as it is; an answer with a row that reports a field name
    twice ends in the [TypeError] of the conversion; on any other answer
    the columns are the names of the answer's fields, there is one row per
    row of the answer, in order, each the conversion of the answer's row,
    and no row holds a bigint. *)
Theorem runQuery_outcome (sql : string) (w : World E) :
  match runQuery E sql w with
  | (r, w') =>
      if initialized w then
        sent w' = (sent w ++ [UserSql sql])%list
        /\ initialized w' = true
        /\ match query E sql (eng w) with
           | (inl e, st') => r = inl e /\ eng w' = st'
           | (inr answer, st') =>
               eng w' = st'
               /\ if existsb repeats_key (toArray answer) then
                    r = inl {| kind := JsTypeError;
                               message := "'ownKeys' on proxy: trap returned duplicate entries" |}
                  else
                    exists result,
                      r = inr result
                      /\ columns result = fields answer
                      /\ rows result = map convertBigIntValues (toArray answer)
                      /\ List.length (rows result) = List.length (toArray answer)
                      /\ forallb (fun row => negb (has_bigint row)) (rows result) = true
           end
      else
        r = inl {| kind := JsError; message := "DuckDB connection not initialized" |}
        /\ w' = w
  end.
Proof.
  pose proof (runQuery_cases E sql w) as H.
  destruct (runQuery E sql w) as [r w'], (initialized w); [|exact H].
  destruct H as (Hs & Hi & H). split; [exact Hs|]. split; [exact Hi|].
  destruct (query E sql (eng w)) as [[e|answer] st']; [exact H|].
  destruct H as [Hst H]. split; [exact Hst|].
  destruct (existsb repeats_key (toArray answer)); [exact H|].
  eexists. split; [exact H|]. cbn [columns rows]. repeat split.
  - apply length_map.
  - apply forallb_forall. intros row Hrow. apply in_map_iff in Hrow.
    destruct Hrow as (x & <- & _). now rewrite convert_no_bigint.
Qed.

End RunQueryFacts.

(** ** [registerFileAsTable] *)


Section IngestionFacts.

Variable E : Engine.
Variable Number_toString : spec_float -> string.

(** X5. An ingestion whose names stay inside their quotes
    never replaces or removes a table of the engine: every table that was
    queryable before is queryable after, no table of another name appears
    (the engine compares names without regard to case), and the ingestion
    can only succeed when no table bore [tableName] before, in which case
    that table is queryable afterwards. *)
Theorem registerFileAsTable_never_replaces_a_table
  (file : File) (tableName : string) (w : World E) :
  is_identifier tableName = true ->
  names_stay_quoted Number_toString file = true ->
  match registerFileAsTable E Number_toString file tableName w with
  | (r, w') =>
      (forall n, has_table E (eng w) n = true -> has_table E (eng w') n = true)
      /\ (forall n, same_name n tableName = false ->
            has_table E (eng w') n = has_table E (eng w) n)
      /\ match r with
         | inr _ =>
             has_table E (eng w) tableName = false
             /\ has_table E (eng w') tableName = true
         | inl _ => True
         end
  end.
Proof.
  intros Hid Hsafe.
  destruct (registerFileAsTable E Number_toString file tableName w)
    as [r w'] eqn:Hreg.
  pose proof (registerFileAsTable_catalog E Number_toString _ _ _ _ _ Hid Hsafe Hreg)
    as (_ & Hok & Hmono & Hother).
  split; [exact Hmono|]. split; [exact Hother|].
  destruct r as [e|u]; [exact I|]. split.
  - destruct (has_table E (eng w) tableName) eqn:Hbefore; [|reflexivity].
    destruct (registerFileAsTable_existing_fails E Number_toString file
                tableName w Hid Hsafe Hbefore) as (e & w2 & Hfail).
    congruence.
  - rewrite (Hok u eq_refl). now rewrite same_name_refl.
Qed.


















End IngestionFacts.

(** On the reference engine: a file is loaded next to a table that is
    there already, which stays. *)
Lemma registerFileAsTable_never_replaces_a_table_witness :
  let w := snd (registerFileAsTable ref_engine Ex.N (Ex.people_csv "a.csv")
                  "file_csv_a" (world Ex.ready)) in
  is_identifier "file_csv_b" = true
  /\ names_stay_quoted Ex.N (Ex.people_csv "b.csv") = true
  /\ has_table ref_engine (eng w) "file_csv_a" = true
  /\ has_table ref_engine
       (eng (snd (registerFileAsTable ref_engine Ex.N (Ex.people_csv "b.csv")
                    "file_csv_b" w)))
       "file_csv_a" = true.
Proof.
  intros w. split; [reflexivity|]. split; [reflexivity|].
  split; [reflexivity|].
  pose proof (registerFileAsTable_never_replaces_a_table ref_engine Ex.N
                (Ex.people_csv "b.csv") "file_csv_b" w eq_refl eq_refl) as H.
  destruct (registerFileAsTable ref_engine Ex.N (Ex.people_csv "b.csv")
              "file_csv_b" w) as [r w2].
  destruct H as (Hkeep & _). cbn [snd]. apply Hkeep. reflexivity.
Defined.

(** ** Literals of the spreadsheet ingestor *)

Section LiteralFacts.

Variable Number_toString : spec_float -> string.

(** X7. The value the insertion loop writes for a cell reads
    back, as SQL reads a string literal, as exactly the text of the cell,
    whatever quotes that text holds; [null] and [undefined] cells are
    written as the keyword NULL. *)
Theorem cell_literal_reads_back (value : Cell) :
  match value with
  | CellNull | CellUndefined => cell_literal Number_toString value = "NULL"
  | _ =>
      Sql.read_literal (cell_literal Number_toString value)
      = Some (cell_toString Number_toString value)
  end.
Proof.
  destruct value; try reflexivity; unfold cell_literal; simpl;
    apply read_quoted_escape.
Qed.

End LiteralFacts.

(* ===================================================================== *)
(** * [ResultTable]: pages *)
(* ===================================================================== *)

Lemma Math_ceil_div_bounds (a : Z) :
  a <= 50 * ResultTable.Math_ceil_div a 50 < a + 50.
Proof.
  unfold ResultTable.Math_ceil_div.
  pose proof (Z.div_mod (- a) 50 ltac:(lia)) as Hd.
  pose proof (Z.mod_pos_bound (- a) 50 ltac:(lia)) as Hm.
  lia.
Qed.

Lemma firstn_min_length {A} (n : nat) (l : list A) :
  firstn n l = firstn (Nat.min n (List.length l)) l.
Proof.
  destruct (Nat.le_ge_cases n (List.length l)) as [H|H].
  - now rewrite Nat.min_l.
  - rewrite Nat.min_r by exact H. now rewrite !firstn_all2.
Qed.

(** A slice between two non-negative bounds. *)
Lemma slice_chunk {A} (l : list A) (s c : Z) :
  0 <= s -> 0 <= c ->
  JSText.slice l s (s + c) = firstn (Z.to_nat c) (skipn (Z.to_nat s) l).
Proof.
  intros Hs Hc. unfold JSText.slice.
  replace (s <? 0) with false by (symmetry; apply Z.ltb_ge; lia).
  replace (s + c <? 0) with false by (symmetry; apply Z.ltb_ge; lia).
  remember (Z.of_nat (List.length l)) as len eqn:Hlen.
  destruct (Z.le_gt_cases len s) as [Hle|Hgt].
  - rewrite !skipn_all2 by lia. now rewrite !firstn_nil.
  - rewrite (Z.min_l s len) by lia.
    rewrite (firstn_min_length (Z.to_nat c)), (firstn_min_length (Z.to_nat (_ - s))).
    f_equal. rewrite length_skipn. lia.
Qed.

Lemma slice_length_le {A} (l : list A) (s c : Z) :
  0 <= c -> (List.length (JSText.slice l s (s + c)) <= Z.to_nat c)%nat.
Proof.
  intros Hc. unfold JSText.slice. rewrite length_firstn.
  remember (Z.of_nat (List.length l)) as len eqn:Hlen.
  destruct (s <? 0) eqn:E1; destruct (s + c <? 0) eqn:E2; lia.
Qed.

Lemma firstn_plus {A} (a b : nat) : forall l : list A,
  firstn (a + b) l = (firstn a l ++ firstn b (skipn a l))%list.
Proof.
  induction a as [|a IH]; intros l; [reflexivity|].
  destruct l as [|x l]; simpl; [now rewrite firstn_nil|].
  now rewrite IH.
Qed.

Lemma chunks_concat {A} (l : list A) (c : nat) : forall m i,
  List.concat (map (fun k => firstn c (skipn (k * c) l)) (seq i m))
  = firstn (m * c) (skipn (i * c) l).
Proof.
  induction m as [|m IH]; intros i; [reflexivity|].
  cbn [seq map List.concat]. rewrite IH.
  replace (S m * c)%nat with (c + m * c)%nat by lia.
  rewrite firstn_plus, skipn_skipn.
  now replace (c + i * c)%nat with (S i * c)%nat by lia.
Qed.

Section PageFacts.

Variable r : QueryResult.

Let page (p : Z) := ResultTable.paginatedData (Some r) p.
Let n := ResultTable.totalPages (page 1).

Lemma page_data (p : Z) :
  1 <= p ->
  ResultTable.data (page p)
  = firstn 50 (skipn (Z.to_nat (p - 1) * 50) (rows r)).
Proof.
  intros Hp. unfold page, ResultTable.paginatedData. cbn [ResultTable.data].
  unfold ResultTable.ITEMS_PER_PAGE. rewrite slice_chunk by lia.
  f_equal. f_equal. lia.
Qed.

Lemma totalPages_bounds :
  Z.of_nat (List.length (rows r)) <= 50 * n
  < Z.of_nat (List.length (rows r)) + 50.
Proof. apply Math_ceil_div_bounds. Qed.

(** X20. The pages of a result, from 1 to [totalPages], hold
    its rows in order, each row on exactly one page: put one after the
    other they are the rows of the result. No page, whatever
    [currentPage] is, holds more than 50 rows; every page before the last
    holds exactly 50 and the last page holds at least one. *)
Theorem pages_cover_the_rows :
  List.concat (map (fun k => ResultTable.data (page (Z.of_nat k)))
              (seq 1 (Z.to_nat n)))
  = rows r
  /\ (forall p, (List.length (ResultTable.data (page p)) <= 50)%nat)
  /\ (forall p, 1 <= p < n ->
        List.length (ResultTable.data (page p)) = 50%nat)
  /\ (1 <= n -> (1 <= List.length (ResultTable.data (page n)))%nat)
  /\ (forall p, ResultTable.totalPages (page p) = n
                /\ ResultTable.totalRows (page p)
                   = Z.of_nat (List.length (rows r))).
Proof.
  pose proof totalPages_bounds as Hn.
  split; [|split; [|split; [|split]]].
  - transitivity (firstn (Z.to_nat n * 50) (skipn (0 * 50) (rows r))).
    + rewrite <- chunks_concat. rewrite <- seq_shift, map_map.
      f_equal. apply map_ext_in. intros k Hk. rewrite page_data by lia.
      do 2 f_equal. lia.
    + simpl skipn. apply firstn_all2. lia.
  - intros p. unfold page, ResultTable.paginatedData. cbn [ResultTable.data].
    unfold ResultTable.ITEMS_PER_PAGE.
    apply (slice_length_le (rows r) ((p - 1) * 50) 50). lia.
  - intros p Hp. rewrite page_data by lia.
    rewrite length_firstn, length_skipn. lia.
  - intros H1. rewrite page_data by lia.
    rewrite length_firstn, length_skipn. lia.
  - intros p. split; reflexivity.
Qed.

(** X21. [currentPage] is state of the component that only
    [handlePageChange] sets. When it lies beyond the last page of the
    result held now, no row is displayed although the result has rows; and
    when that result has one page at most, no control is rendered that
    would change the page. *)
Theorem page_beyond_the_last_shows_nothing (currentPage : Z) :
  n < currentPage ->
  ResultTable.data (page currentPage) = []
  /\ ResultTable.totalRows (page currentPage) = Z.of_nat (List.length (rows r))
  /\ (n <= 1 -> ResultTable.pager_targets n currentPage = []).
Proof.
  intros Hp. pose proof totalPages_bounds as Hn.
  assert (H0 : 0 <= n) by lia.
  split; [|split; [reflexivity|]].
  - rewrite page_data by lia. rewrite skipn_all2 by lia. apply firstn_nil.
  - intros H1. unfold ResultTable.pager_targets.
    now replace (1 <? n) with false by (symmetry; apply Z.ltb_ge; lia).
Qed.

(** X22. On a page of the result (1 to [totalPages]) the
    label's two numbers are the positions, counted from 1, of the first and
    of the last row displayed: the rows displayed are the rows from
    position [showing_from] to position [showing_to] of the result, and
    their number is [showing_to - showing_from + 1]. *)
Theorem showing_label_matches_rows (currentPage : Z) :
  1 <= currentPage <= n ->
  let from := ResultTable.showing_from currentPage in
  let to := ResultTable.showing_to currentPage
              (ResultTable.totalRows (page currentPage)) in
  1 <= from <= to
  /\ to <= Z.of_nat (List.length (rows r))
  /\ ResultTable.data (page currentPage)
     = firstn (Z.to_nat (to - from + 1)) (skipn (Z.to_nat (from - 1)) (rows r))
  /\ Z.of_nat (List.length (ResultTable.data (page currentPage))) = to - from + 1.
Proof.
  intros Hp from to. pose proof totalPages_bounds as Hn.
  unfold ResultTable.showing_from, ResultTable.showing_to,
    ResultTable.ITEMS_PER_PAGE in from, to.
  cbn [ResultTable.totalRows page ResultTable.paginatedData] in to.
  assert (Hdata : ResultTable.data (page currentPage)
                  = firstn (Z.to_nat (to - from + 1))
                      (skipn (Z.to_nat (from - 1)) (rows r))).
  { rewrite page_data by lia.
    replace (Z.to_nat (from - 1)) with (Z.to_nat (currentPage - 1) * 50)%nat
      by (subst from; lia).
    rewrite (firstn_min_length 50), (firstn_min_length (Z.to_nat _)).
    f_equal. rewrite length_skipn. subst from to. lia. }
  split; [subst from to; lia|]. split; [subst to; lia|]. split; [exact Hdata|].
  rewrite Hdata, length_firstn, length_skipn. subst from to. lia.
Qed.

End PageFacts.

(** A result of [k] rows. *)
Definition result_of_rows (k : nat) : QueryResult :=
  {| columns := ["n"];
     rows := map (fun i => JArray [JNumber (Host.Number (Z.of_nat i))]) (seq 0 k) |}.

(** A result of 10 rows seen from page 3, where an earlier result was left:
    no row and no pager. *)
Lemma page_beyond_the_last_shows_nothing_witness :
  ResultTable.totalPages (ResultTable.paginatedData (Some (result_of_rows 10)) 1) < 3
  /\ ResultTable.data (ResultTable.paginatedData (Some (result_of_rows 10)) 3) = []
  /\ ResultTable.totalRows (ResultTable.paginatedData (Some (result_of_rows 10)) 3)
     = 10
  /\ ResultTable.pager_targets 1 3 = [].
Proof.
  split; [reflexivity|].
  destruct (page_beyond_the_last_shows_nothing (result_of_rows 10) 3 eq_refl)
    as (Hd & Ht & Hp).
  split; [exact Hd|]. split; [exact Ht|]. apply Hp. discriminate.
Defined.

(** The second page of a result of 120 rows: rows 51 to 100. *)
Lemma showing_label_matches_rows_witness :
  1 <= 2 <= ResultTable.totalPages
              (ResultTable.paginatedData (Some (result_of_rows 120)) 1)
  /\ ResultTable.showing_from 2 = 51
  /\ ResultTable.showing_to 2 120 = 100
  /\ Z.of_nat (List.length (ResultTable.data
                              (ResultTable.paginatedData
                                 (Some (result_of_rows 120)) 2))) = 50.
Proof.
  assert (H : 1 <= 2 <= ResultTable.totalPages
                          (ResultTable.paginatedData (Some (result_of_rows 120)) 1)).
  { split; discriminate. }
  split; [exact H|]. split; [reflexivity|]. split; [reflexivity|].
  exact (proj2 (proj2 (proj2
           (showing_label_matches_rows (result_of_rows 120) 2 H)))).
Defined.

(** ** The page buttons *)

Lemma page_buttons_nth (totalPages currentPage : Z) (i : nat) :
  (i < Z.to_nat (Z.min 5 totalPages))%nat ->
  nth_error (ResultTable.page_buttons totalPages currentPage) i
  = Some (ResultTable.pageNum totalPages currentPage 0 + Z.of_nat i).
Proof.
  intros Hi. unfold ResultTable.page_buttons.
  rewrite nth_error_map, nth_error_seq.
  replace (i <? Z.to_nat (Z.min 5 totalPages))%nat with true
    by (symmetry; now apply Nat.ltb_lt).
  simpl. f_equal. unfold ResultTable.pageNum.
  repeat match goal with |- context [if ?b then _ else _] => destruct b end; lia.
Qed.

Lemma page_buttons_spec (totalPages currentPage : Z) :
  ResultTable.page_buttons totalPages currentPage
  = map (fun i => ResultTable.pageNum totalPages currentPage 0 + Z.of_nat i)
        (seq 0 (Z.to_nat (Z.min 5 totalPages))).
Proof.
  unfold ResultTable.page_buttons. apply map_ext. intros i.
  unfold ResultTable.pageNum.
  repeat match goal with |- context [if ?b then _ else _] => destruct b end; lia.
Qed.

Lemma pageNum_first_bounds (totalPages currentPage : Z) :
  1 <= ResultTable.pageNum totalPages currentPage 0
  /\ ResultTable.pageNum totalPages currentPage 0 + Z.min 5 totalPages - 1
     <= Z.max totalPages 0.
Proof.
  unfold ResultTable.pageNum.
  destruct (totalPages <=? 5) eqn:E1; [lia|].
  destruct (currentPage <=? 3) eqn:E2; [lia|].
  destruct (currentPage >=? totalPages - 2) eqn:E3; lia.
Qed.

(** X23. The page buttons bear consecutive page numbers, as
    many as there are pages up to five, all of them pages of the result
    and no two alike (they are the buttons' keys), whatever
    [currentPage] is. When [currentPage] is a page of the result, it is
    among them, and every control of the pager that is enabled leads to a
    page of the result: clicking through the pager never leaves the
    result's pages. *)
Theorem pager_stays_on_the_result (totalPages currentPage : Z) :
  let buttons := ResultTable.page_buttons totalPages currentPage in
  Z.of_nat (List.length buttons) = Z.max 0 (Z.min 5 totalPages)
  /\ (forall i p, nth_error buttons i = Some p ->
        nth_error buttons 0 = Some (p - Z.of_nat i))
  /\ Forall (fun p => 1 <= p <= totalPages) buttons
  /\ NoDup buttons
  /\ (1 <= currentPage <= totalPages ->
        In currentPage buttons
        /\ Forall (fun p => 1 <= p <= totalPages)
             (ResultTable.pager_targets totalPages currentPage)).
Proof.
  intros buttons. subst buttons. rewrite page_buttons_spec.
  set (first := ResultTable.pageNum totalPages currentPage 0).
  set (k := Z.to_nat (Z.min 5 totalPages)).
  pose proof (pageNum_first_bounds totalPages currentPage) as Hb. fold first in Hb.
  assert (Hall : Forall (fun p => 1 <= p <= totalPages)
                   (map (fun i => first + Z.of_nat i) (seq 0 k))).
  { apply Forall_forall. intros p Hp. apply in_map_iff in Hp.
    destruct Hp as (i & <- & Hi). apply in_seq in Hi. subst k. lia. }
  split; [rewrite length_map, length_seq; subst k; lia|].
  split.
  { intros i p Hi. rewrite nth_error_map in *.
    destruct (nth_error (seq 0 k) i) as [j|] eqn:Ej; [|discriminate].
    assert (Hlt : (i < List.length (seq 0 k))%nat).
    { apply nth_error_Some. congruence. }
    rewrite length_seq in Hlt.
    rewrite nth_error_seq in Ej.
    replace (i <? k)%nat with true in Ej by (symmetry; now apply Nat.ltb_lt).
    injection Ej as <-. injection Hi as <-.
    rewrite nth_error_seq.
    replace (0 <? k)%nat with true by (symmetry; apply Nat.ltb_lt; lia).
    simpl. f_equal. lia. }
  split; [exact Hall|]. split.
  { apply Injective_map_NoDup; [|apply seq_NoDup].
    intros a b Hab. lia. }
  intros Hp.
  assert (Hin : In currentPage (map (fun i => first + Z.of_nat i) (seq 0 k))).
  { apply in_map_iff. exists (Z.to_nat (currentPage - first)).
    unfold first, ResultTable.pageNum in *. subst k.
    destruct (totalPages <=? 5) eqn:E1;
      [|destruct (currentPage <=? 3) eqn:E2;
        [|destruct (currentPage >=? totalPages - 2) eqn:E3]];
      (split; [lia|apply in_seq; lia]). }
  split; [exact Hin|].
  unfold ResultTable.pager_targets. destruct (1 <? totalPages); [|constructor].
  rewrite page_buttons_spec. fold first k.
  apply Forall_app. split.
  - destruct (currentPage =? 1) eqn:E; [constructor|].
    constructor; [|constructor]. apply Z.eqb_neq in E. lia.
  - apply Forall_app. split; [exact Hall|].
    destruct (currentPage =? totalPages) eqn:E; [constructor|].
    constructor; [|constructor]. apply Z.eqb_neq in E. lia.
Qed.

(** Ten pages seen from page 7: the five buttons around it, and where the
    enabled controls lead. *)
Example pager_in_the_middle :
  ResultTable.page_buttons 10 7 = [5; 6; 7; 8; 9]
  /\ ResultTable.pager_targets 10 7 = [6; 5; 6; 7; 8; 9; 8]
  /\ ResultTable.pager_targets 10 1 = [1; 2; 3; 4; 5; 2]
  /\ ResultTable.pager_targets 10 10 = [9; 6; 7; 8; 9; 10].
Proof. repeat split. Qed.

(* ===================================================================== *)
(** * [ResultTable]: the export reads back *)
(* ===================================================================== *)

Lemma prefix_char (c : ascii) (s : string) :
  String.prefix (String c "") s
  = match s with
    | String d _ => Ascii.eqb c d
    | EmptyString => false
    end.
Proof.
  destruct s as [|d s]; [reflexivity|]. simpl.
  destruct (Ascii.ascii_dec c d) as [->|Hne].
  - rewrite Ascii.eqb_refl. now destruct s.
  - symmetry. now apply Ascii.eqb_neq.
Qed.

(** A text that needs no quotes holds no character the reader gives a
    meaning to. *)
Lemma needs_quotes_negb_plain (str : string) :
  negb (ResultTable.needs_quotes str) = Csv.plain str.
Proof.
  unfold ResultTable.needs_quotes, JSString.dquote, JSText.newline.
  induction str as [|d str IH]; [reflexivity|].
  cbn [JSString.includes Csv.plain]. rewrite !prefix_char, <- IH.
  unfold Csv.special. rewrite !(Ascii.eqb_sym _ d).
  destruct (Ascii.eqb d ","%char), (Ascii.eqb d "034"%char),
    (Ascii.eqb d "010"%char), (JSString.includes str ","),
    (JSString.includes str (String "034"%char "")),
    (JSString.includes str (String "010"%char "")); reflexivity.
Qed.

Lemma needs_quotes_plain (str : string) :
  ResultTable.needs_quotes str = false <-> Csv.plain str = true.
Proof.
  rewrite <- needs_quotes_negb_plain.
  destruct (ResultTable.needs_quotes str); simpl; split; congruence.
Qed.

(** ** Reading one field *)

Lemma read_plain (f : string) : forall acc record rest,
  Csv.plain f = true ->
  Csv.read_from false acc record (f ++ rest)
  = Csv.read_from false (acc ++ f) record rest.
Proof.
  induction f as [|c f IH]; intros acc record rest Hp.
  - now rewrite string_app_nil_r.
  - simpl in Hp. apply andb_true_iff in Hp. destruct Hp as [Hc Hf].
    unfold Csv.special in Hc. apply negb_true_iff in Hc.
    apply orb_false_iff in Hc. destruct Hc as [Hc H3].
    apply orb_false_iff in Hc. destruct Hc as [H1 H2].
    cbn [append Csv.read_from]. rewrite H1, H2, H3.
    rewrite IH by exact Hf. now rewrite string_app_assoc.
Qed.

(** The text that follows a field: the end of the input, a comma or a line
    feed. *)
Definition after_field (rest : string) : bool :=
  match rest with
  | EmptyString => true
  | String c _ => Ascii.eqb c ","%char || Ascii.eqb c "010"%char
  end.

Lemma read_quoted_text (str : string) : forall acc record rest,
  after_field rest = true ->
  Csv.read_from true acc record
    (JSText.double_quotes str ++ JSString.dquote ++ rest)
  = Csv.read_from false (acc ++ str) record rest.
Proof.
  induction str as [|c str IH]; intros acc record rest Hr.
  - rewrite string_app_nil_r. unfold JSString.dquote.
    cbn [JSText.double_quotes append Csv.read_from].
    rewrite Ascii.eqb_refl. destruct rest as [|d rest]; [reflexivity|].
    simpl in Hr.
    destruct (Ascii.eqb d "034"%char) eqn:Hd; [|reflexivity].
    apply Ascii.eqb_eq in Hd. subst d. discriminate.
  - cbn [JSText.double_quotes].
    destruct (Ascii.eqb c "034"%char) eqn:Hc.
    + cbn [append Csv.read_from]. rewrite Hc. rewrite IH by exact Hr.
      now rewrite string_app_assoc.
    + cbn [append Csv.read_from]. rewrite Hc. rewrite IH by exact Hr.
      now rewrite string_app_assoc.
Qed.

Section ExportFacts.

Variable Number_toString : spec_float -> string.

Let text := ResultTable.cell_text Number_toString.
Let written := ResultTable.csv_cell Number_toString.

Lemma read_cell (cell : JSValue) (record : list string) (rest : string) :
  after_field rest = true ->
  Csv.read_from false "" record (written cell ++ rest)
  = Csv.read_from false (text cell) record rest.
Proof.
  intros Hr. unfold written, text, ResultTable.csv_cell, ResultTable.cell_text.
  assert (Hstr : forall str,
            Csv.read_from false "" record
              ((if ResultTable.needs_quotes str
                then JSString.dquote ++ JSText.double_quotes str ++ JSString.dquote
                else str) ++ rest)
            = Csv.read_from false str record rest).
  { intros str. destruct (ResultTable.needs_quotes str) eqn:Hq.
    - unfold JSString.dquote at 1. cbn [append Csv.read_from].
      change (Ascii.eqb "034" ",") with false.
      change (Ascii.eqb "034" "010") with false.
      rewrite Ascii.eqb_refl. cbv iota.
      rewrite string_app_assoc. now rewrite read_quoted_text.
    - apply needs_quotes_plain in Hq. now rewrite read_plain. }
  destruct cell; try apply Hstr; reflexivity.
Qed.

(** ** Reading one line *)

Lemma join_cons2 (sep x y : string) (l : list string) :
  ResultTable.join sep (x :: y :: l) = x ++ sep ++ ResultTable.join sep (y :: l).
Proof. reflexivity. Qed.

(** What the reader makes of a record and of what follows it. *)
Definition then_read (rest : string) : list (list string) :=
  match rest with
  | EmptyString => []
  | String _ rest' => Csv.read_from false "" [] rest'
  end.

Definition after_record (rest : string) : bool :=
  match rest with
  | EmptyString => true
  | String c _ => Ascii.eqb c "010"%char
  end.

Lemma read_end_of_record (field : string) (record : list string) (rest : string) :
  after_record rest = true ->
  Csv.read_from false field record rest
  = (record ++ [field])%list :: then_read rest.
Proof.
  destruct rest as [|c rest]; [reflexivity|]. simpl. intros Hc.
  apply Ascii.eqb_eq in Hc. subst c. reflexivity.
Qed.

Lemma read_line (cells : list JSValue) : forall cell record rest,
  after_record rest = true ->
  Csv.read_from false "" record
    (ResultTable.join "," (map written (cell :: cells)) ++ rest)
  = (record ++ map text (cell :: cells))%list :: then_read rest.
Proof.
  induction cells as [|cell2 cells IH]; intros cell record rest Hr.
  - change (ResultTable.join "," (map written [cell])) with (written cell).
    rewrite read_cell.
    + now apply read_end_of_record.
    + destruct rest as [|c rest]; [reflexivity|]. simpl in *.
      now rewrite Hr, orb_true_r.
  - cbn [map]. rewrite join_cons2, !string_app_assoc.
    rewrite read_cell by reflexivity.
    cbn [append Csv.read_from]. rewrite Ascii.eqb_refl.
    change (written cell2 :: map written cells) with (map written (cell2 :: cells)).
    rewrite IH by exact Hr.
    now rewrite <- app_assoc.
Qed.

(** ** Reading the whole text *)

Definition line_of (cells : list JSValue) : string :=
  ResultTable.join "," (map written cells).

Lemma read_lines (records : list (list JSValue)) : forall first,
  first <> [] -> Forall (fun cells => cells <> []) records ->
  Csv.read (ResultTable.join JSText.newline (map line_of (first :: records)))
  = map (map text) (first :: records).
Proof.
  unfold Csv.read.
  induction records as [|second records IH]; intros first Hf Hall.
  - destruct first as [|cell cells]; [contradiction|].
    change (ResultTable.join JSText.newline (map line_of [cell :: cells]))
      with (line_of (cell :: cells)).
    rewrite <- (string_app_nil_r (line_of (cell :: cells))).
    unfold line_of. now rewrite read_line.
  - destruct first as [|cell cells]; [contradiction|].
    inversion Hall as [|? ? Hs Hrest]; subst.
    cbn [map]. rewrite join_cons2. unfold line_of at 1.
    rewrite read_line by reflexivity.
    cbn [app then_read append JSText.newline]. f_equal.
    apply (IH second Hs Hrest).
Qed.

Lemma written_header (col : string) :
  Csv.plain col = true -> written (JString col) = col.
Proof.
  intros Hp. unfold written, ResultTable.csv_cell. cbn [JSText.JS_String].
  apply needs_quotes_plain in Hp. now rewrite Hp.
Qed.

Lemma cells_of_length (row : JSValue) (columns : list string) :
  forall i cells,
    ResultTable.cells_of row i columns = inr cells ->
    List.length cells = List.length columns.
Proof.
  induction columns as [|col columns IH]; intros i cells H.
  - injection H as <-. reflexivity.
  - simpl in H. destruct (ResultTable.cell_of row i col) as [e|cell]; [discriminate|].
    destruct (ResultTable.cells_of row (S i) columns) as [e|cs] eqn:Hcs;
      [discriminate|].
    injection H as <-. simpl. f_equal. eapply IH; eauto.
Qed.

Lemma csv_rows_cells (columns : list string) (rows : list JSValue) :
  forall lines,
    ResultTable.csv_rows Number_toString columns rows = inr lines ->
    exists cells,
      Forall2 (fun row cs => ResultTable.cells_of row 0 columns = inr cs) rows cells
      /\ lines = map line_of cells.
Proof.
  induction rows as [|row rows IH]; intros lines H.
  - injection H as <-. exists []. split; [constructor|reflexivity].
  - simpl in H. unfold ResultTable.csv_row in H.
    destruct (ResultTable.cells_of row 0 columns) as [e|cs] eqn:Hcs; [discriminate|].
    destruct (ResultTable.csv_rows Number_toString columns rows) as [e|ls];
      [discriminate|].
    injection H as <-. destruct (IH ls eq_refl) as (cells & Hall & ->).
    exists (cs :: cells). split; [now constructor|reflexivity].
Qed.

(** X24. What [exportAsCSV] hands to [downloadFile] reads back
    as the result: a reader of comma-separated values finds the column
    names as the first record and then one record per row, in order, whose
    fields are the texts of the row's cells (nothing for [null] and
    [undefined]), whatever commas, double quotes and line feeds those texts
    hold. The column names are written as they are, so this needs column
    names that hold none of these characters; and there must be a
    column. *)
Theorem exportAsCSV_reads_back (r : QueryResult) (d : ResultTable.Download) :
  columns r <> [] ->
  forallb Csv.plain (columns r) = true ->
  ResultTable.exportAsCSV Number_toString (Some r) = inr (Some d) ->
  ResultTable.filename d = "query_result.csv"
  /\ exists cells,
       Forall2 (fun row cs => ResultTable.cells_of row 0 (columns r) = inr cs)
         (rows r) cells
       /\ Csv.read (ResultTable.content d)
          = columns r :: map (map (ResultTable.cell_text Number_toString)) cells.
Proof.
  intros Hne Hplain Hexp. unfold ResultTable.exportAsCSV in Hexp.
  destruct (ResultTable.csv_rows Number_toString (columns r) (rows r))
    as [e|lines] eqn:Hrows; [discriminate|].
  injection Hexp as <-. split; [reflexivity|].
  destruct (csv_rows_cells _ _ _ Hrows) as (cells & Hall & ->).
  exists cells. split; [exact Hall|]. cbn [ResultTable.content].
  assert (Hhead : ResultTable.join "," (columns r)
                  = line_of (map JString (columns r))).
  { unfold line_of. f_equal. rewrite map_map.
    rewrite <- (map_id (columns r)) at 1. apply map_ext_in.
    intros col Hcol. symmetry. apply written_header.
    rewrite forallb_forall in Hplain. now apply Hplain. }
  rewrite Hhead.
  change (line_of (map JString (columns r)) :: map line_of cells)
    with (map line_of (map JString (columns r) :: cells)).
  rewrite read_lines.
  - cbn [map]. f_equal. rewrite map_map. apply map_id.
  - destruct (columns r); [contradiction|discriminate].
  - clear Hrows Hhead. induction Hall as [|row cs rows' cells' Hcs _ IH];
      constructor; trivial.
    apply cells_of_length in Hcs. destruct cs; [|discriminate].
    destruct (columns r); [contradiction|discriminate].
Qed.

End ExportFacts.

(** A result whose cells hold a comma, double quotes, a line feed and a
    null, as an object row and as an array row. *)
Definition quoted_result : QueryResult :=
  {| columns := ["name"; "note"];
     rows := [JObject [("name", JString "Ann");
                       ("note", JString ("says " ++ JSString.dquote ++ "hi"
                                         ++ JSString.dquote ++ ", twice"))];
              JArray [JNull; JString ("line 1" ++ JSText.newline ++ "line 2")]] |}.

Lemma exportAsCSV_reads_back_witness :
  columns quoted_result <> []
  /\ forallb Csv.plain (columns quoted_result) = true
  /\ match ResultTable.exportAsCSV Ex.N (Some quoted_result) with
     | inr (Some d) =>
         Csv.read (ResultTable.content d)
         = [["name"; "note"];
            ["Ann"; "says " ++ JSString.dquote ++ "hi" ++ JSString.dquote
                    ++ ", twice"];
            [""; "line 1" ++ JSText.newline ++ "line 2"]]
     | _ => False
     end.
Proof.
  assert (H1 : columns quoted_result <> []) by discriminate.
  split; [exact H1|]. split; [reflexivity|].
  destruct (ResultTable.exportAsCSV Ex.N (Some quoted_result)) as [e|[d|]] eqn:Hexp;
    try (vm_compute in Hexp; discriminate).
  destruct (exportAsCSV_reads_back Ex.N quoted_result d H1 eq_refl Hexp)
    as (_ & cells & Hcells & Hread).
  rewrite Hread. f_equal.
  inversion Hcells as [|row1 cs1 rest1 cells1 Hc1 Hrest1]; subst.
  inversion Hrest1 as [|row2 cs2 rest2 cells2 Hc2 Hrest2]; subst.
  inversion Hrest2; subst.
  vm_compute in Hc1. vm_compute in Hc2.
  injection Hc1 as <-. injection Hc2 as <-. reflexivity.
Defined.

(** The text written for that result. *)
Example exportAsCSV_text :
  match ResultTable.exportAsCSV Ex.N (Some quoted_result) with
  | inr (Some d) =>
      ResultTable.content d
      = "name,note" ++ JSText.newline
        ++ "Ann," ++ JSString.dquote ++ "says " ++ JSString.dquote
        ++ JSString.dquote ++ "hi" ++ JSString.dquote ++ JSString.dquote
        ++ ", twice" ++ JSString.dquote ++ JSText.newline
        ++ "," ++ JSString.dquote ++ "line 1" ++ JSText.newline ++ "line 2"
        ++ JSString.dquote
  | _ => False
  end.
Proof. reflexivity. Qed.

(* ===================================================================== *)
(** * [QueryEditor] and [TableList] *)
(* ===================================================================== *)

(** ** [trim] *)

Lemma trimStart_all_space (s : string) :
  all_space s = true -> JSText.trimStart s = "".
Proof.
  induction s as [|c s IH]; [reflexivity|]. simpl.
  destruct (JSText.is_space c); [exact IH|discriminate].
Qed.

Lemma trimStart_split (s : string) :
  exists l, s = l ++ JSText.trimStart s /\ all_space l = true.
Proof.
  induction s as [|c s (l & Hl & Hs)].
  - exists "". auto.
  - simpl. destruct (JSText.is_space c) eqn:Hc.
    + exists (String c l). simpl. rewrite Hc, Hs. split; [now f_equal|reflexivity].
    + exists "". auto.
Qed.

Lemma trimStart_fixed (s : string) :
  JSText.trimStart (JSText.trimStart s) = JSText.trimStart s.
Proof.
  induction s as [|c s IH]; [reflexivity|]. simpl.
  destruct (JSText.is_space c) eqn:Hc; [exact IH|]. simpl. now rewrite Hc.
Qed.

Lemma trimStart_empty_iff (s : string) :
  JSText.trimStart s = "" <-> all_space s = true.
Proof.
  split; [|apply trimStart_all_space].
  induction s as [|c s IH]; [reflexivity|]. simpl.
  destruct (JSText.is_space c); [exact IH|discriminate].
Qed.

Lemma trimEnd_cons (c : ascii) (s : string) :
  JSText.trimEnd (String c s)
  = if JSText.is_space c && all_space s then ""
    else String c (JSText.trimEnd s).
Proof.
  assert (H : forall t, JSText.trimEnd t = "" <-> all_space t = true).
  { induction t as [|d t IH]; [simpl; tauto|]. simpl.
    destruct (JSText.trimEnd t) eqn:Et.
    - destruct (JSText.is_space d); simpl; [|split; discriminate].
      split; [intros _; now apply IH|reflexivity].
    - split; [discriminate|]. intros Hd. apply andb_true_iff in Hd.
      destruct Hd as [_ Hd]. apply IH in Hd. discriminate. }
  simpl. destruct (JSText.trimEnd s) eqn:Es.
  - replace (all_space s) with true by (symmetry; now apply H).
    now rewrite andb_true_r.
  - replace (all_space s) with false; [now rewrite andb_false_r|].
    destruct (all_space s) eqn:Ea; [|reflexivity].
    apply H in Ea. congruence.
Qed.

Lemma trimEnd_empty_iff (s : string) :
  JSText.trimEnd s = "" <-> all_space s = true.
Proof.
  induction s as [|c s IH]; [simpl; tauto|].
  rewrite trimEnd_cons. simpl.
  destruct (JSText.is_space c && all_space s); split; congruence.
Qed.

Lemma trimEnd_split (s : string) :
  exists r, s = JSText.trimEnd s ++ r /\ all_space r = true.
Proof.
  induction s as [|c s (r & Hr & Hs)].
  - exists "". auto.
  - rewrite trimEnd_cons. destruct (JSText.is_space c && all_space s) eqn:Hc.
    + exists (String c s). split; [reflexivity|exact Hc].
    + exists r. split; [simpl; now f_equal|exact Hs].
Qed.

Lemma all_space_trimEnd (s : string) :
  all_space (JSText.trimEnd s) = all_space s.
Proof.
  induction s as [|c s IH]; [reflexivity|].
  rewrite trimEnd_cons. destruct (JSText.is_space c && all_space s) eqn:Hc.
  - simpl. now rewrite Hc.
  - simpl. now rewrite IH.
Qed.

Lemma trimEnd_fixed (s : string) :
  JSText.trimEnd (JSText.trimEnd s) = JSText.trimEnd s.
Proof.
  induction s as [|c s IH]; [reflexivity|].
  rewrite trimEnd_cons. destruct (JSText.is_space c && all_space s) eqn:Hc;
    [reflexivity|].
  rewrite trimEnd_cons, all_space_trimEnd, Hc. now rewrite IH.
Qed.

(** Trailing white space is no leading white space: [trimEnd] keeps a text
    that starts with another character starting with it. *)
Lemma trimStart_trimEnd (s : string) :
  JSText.trimStart s = s -> JSText.trimStart (JSText.trimEnd s) = JSText.trimEnd s.
Proof.
  destruct s as [|c s]; [reflexivity|]. intros H.
  assert (Hc : JSText.is_space c = false).
  { simpl in H. destruct (JSText.is_space c) eqn:Hc; [|reflexivity].
    exfalso. destruct (trimStart_split s) as (l & Hl & _).
    rewrite H in Hl. apply (f_equal String.length) in Hl.
    rewrite append_length in Hl. simpl in Hl. lia. }
  rewrite trimEnd_cons, Hc. simpl. now rewrite Hc.
Qed.

Lemma all_space_app (a b : string) :
  all_space (a ++ b) = all_space a && all_space b.
Proof.
  induction a as [|c a IH]; [reflexivity|]. simpl. now rewrite IH, andb_assoc.
Qed.

Lemma trim_empty_iff (s : string) :
  JSText.trim s = "" <-> all_space s = true.
Proof.
  unfold JSText.trim. rewrite trimEnd_empty_iff.
  destruct (trimStart_split s) as (l & Hl & Hs).
  rewrite Hl at 2. rewrite all_space_app, Hs. simpl. tauto.
Qed.

Lemma trimEnd_app_kept (a b : string) :
  all_space b = false -> JSText.trimEnd (a ++ b) = a ++ JSText.trimEnd b.
Proof.
  intros Hb. induction a as [|c a IH]; [reflexivity|].
  cbn [append]. rewrite trimEnd_cons, all_space_app, Hb, andb_false_r, andb_false_r.
  now rewrite IH.
Qed.

Section EditorFacts.

Variable E : Engine.

Lemma executeQuery_sent (render : ProviderState) (sql : string) (a : App E) :
  isInitialized render = true -> initialized (world a) = true ->
  sent (world (executeQuery E render sql a))
  = (sent (world a) ++ [UserSql sql])%list.
Proof.
  intros Hr Hw. unfold executeQuery. rewrite Hr. simpl negb. cbv iota.
  pose proof (runQuery_sent E sql (world a)) as H. rewrite Hw in H.
  now destruct (runQuery E sql (world a)) as [[err|result] w'].
Qed.

(** X18. [handleRunQuery] does nothing at all when the editor
    holds white space only: no state changes and nothing reaches the
    engine. Otherwise it calls [executeQuery] with the editor's text
    without its leading and trailing white space, and (the session being
    initialized) exactly that text is sent, once. The text that is run
    differs from the editor's text by white space at the two ends only, and
    has none there itself. *)
Theorem handleRunQuery_runs_trimmed_text
  (render : ProviderState) (query : string) (a : App E) :
  (if all_space query
   then QueryEditor.handleRunQuery E render query a = a
   else QueryEditor.handleRunQuery E render query a
        = executeQuery E render (JSText.trim query) a
        /\ (isInitialized render = true -> initialized (world a) = true ->
            sent (world (QueryEditor.handleRunQuery E render query a))
            = (sent (world a) ++ [UserSql (JSText.trim query)])%list))
  /\ (exists l r,
        query = l ++ JSText.trim query ++ r
        /\ all_space l = true /\ all_space r = true)
  /\ JSText.trimStart (JSText.trim query) = JSText.trim query
  /\ JSText.trimEnd (JSText.trim query) = JSText.trim query.
Proof.
  split; [|split; [|split]].
  - unfold QueryEditor.handleRunQuery.
    destruct (all_space query) eqn:Hq.
    + apply trim_empty_iff in Hq. now rewrite Hq.
    + destruct (String.eqb_spec (JSText.trim query) "") as [He|Hne].
      * apply trim_empty_iff in He. congruence.
      * split; [reflexivity|]. intros Hr Hw. now apply executeQuery_sent.
  - unfold JSText.trim.
    destruct (trimStart_split query) as (l & Hl & Hls).
    destruct (trimEnd_split (JSText.trimStart query)) as (r & Hr & Hrs).
    exists l, r. split; [|split; assumption].
    rewrite <- Hr. exact Hl.
  - unfold JSText.trim. apply trimStart_trimEnd, trimStart_fixed.
  - unfold JSText.trim. apply trimEnd_fixed.
Qed.

Lemma trim_sample (tableName : string) :
  JSText.trim ("SELECT * FROM " ++ tableName ++ " LIMIT 10;")
  = "SELECT * FROM " ++ tableName ++ " LIMIT 10;".
Proof.
  unfold JSText.trim.
  change (JSText.trimStart ("SELECT * FROM " ++ tableName ++ " LIMIT 10;"))
    with ("SELECT * FROM " ++ tableName ++ " LIMIT 10;").
  rewrite <- string_app_assoc.
  now rewrite trimEnd_app_kept.
Qed.

(** X19. The query the [Sample] button of a table puts into
    the editor, and the one the editor writes by itself when it is empty
    and a table is registered (for the first table of the registry), is run
    exactly as written, whatever the table's name: [Run Query] hands the
    text [SELECT * FROM <name> LIMIT 10;] to [executeQuery]. The editor
    leaves a text the user has typed alone. *)
Theorem sample_query_runs_as_written
  (render : ProviderState) (t : TableInfo) (others : list TableInfo)
  (query : string) (a : App E) :
  QueryEditor.handleRunQuery E render
    (QueryEditor.handleSetQuery (TableList.sampleQuery (name t)) query) a
  = executeQuery E render ("SELECT * FROM " ++ name t ++ " LIMIT 10;") a
  /\ QueryEditor.handleRunQuery E render
       (QueryEditor.initial_query_effect (t :: others) "") a
     = executeQuery E render ("SELECT * FROM " ++ name t ++ " LIMIT 10;") a
  /\ (if String.eqb query "" then True
      else QueryEditor.initial_query_effect (t :: others) query = query)
  /\ QueryEditor.initial_query_effect [] query = query.
Proof.
  assert (Hrun : forall n,
            QueryEditor.handleRunQuery E render
              ("SELECT * FROM " ++ n ++ " LIMIT 10;") a
            = executeQuery E render ("SELECT * FROM " ++ n ++ " LIMIT 10;") a).
  { intros n. unfold QueryEditor.handleRunQuery. rewrite trim_sample.
    reflexivity. }
  split; [apply Hrun|]. split; [apply Hrun|]. split; [|reflexivity].
  simpl. now destruct (String.eqb query "").
Qed.

End EditorFacts.

Example trim_keeps_inner_space :
  JSText.trim ("  SELECT 1 ;" ++ JSText.newline ++ " ") = "SELECT 1 ;"
  /\ JSText.trim (" " ++ JSText.newline) = "".
Proof. split; reflexivity. Qed.

(* ===================================================================== *)
(** * [FileSelector] *)
(* ===================================================================== *)

(** ** File names *)

Lemma prefix_refl_cons (c : ascii) (a b : string) :
  String.prefix (String c a) (String c b) = String.prefix a b.
Proof.
  simpl. destruct (Ascii.ascii_dec c c) as [_|Hne]; [reflexivity|].
  now contradiction Hne.
Qed.

(** What is left of a name without its extension is the beginning of the
    name. *)
Lemma strip_extension_prefix (s : string) :
  String.prefix (JSText.strip_extension s) s = true.
Proof.
  induction s as [|c s IH]; [reflexivity|].
  cbn [JSText.strip_extension].
  destruct (Ascii.eqb c "." && negb (String.eqb s "") && negb (JSText.has_dot s)).
  - reflexivity.
  - now rewrite prefix_refl_cons.
Qed.

Lemma split_pop_no_dot (t : string) : forall cur,
  JSText.has_dot t = false -> JSString.split_pop "."%char t cur = cur ++ t.
Proof.
  induction t as [|c t IH]; intros cur Hd.
  - symmetry. apply string_app_nil_r.
  - simpl in Hd. apply orb_false_iff in Hd. destruct Hd as [Hc Ht].
    simpl. rewrite Hc. rewrite IH by exact Ht.
    now rewrite string_app_assoc.
Qed.

Lemma split_pop_last (a t : string) : forall cur,
  JSText.has_dot t = false ->
  JSString.split_pop "."%char (a ++ String "."%char t) cur = t.
Proof.
  induction a as [|c a IH]; intros cur Hd.
  - simpl. now rewrite split_pop_no_dot.
  - cbn [append JSString.split_pop]. destruct (Ascii.eqb c "."); now apply IH.
Qed.

Lemma sheetFile_ext (f : File) (sheetName : string) :
  file_ext (file_name (FileSelector.sheetFile f sheetName)) = "xlsx".
Proof.
  unfold file_ext, FileSelector.sheetFile. cbn [file_name].
  rewrite <- !string_app_assoc.
  change ".xlsx" with (String "."%char "xlsx").
  now rewrite split_pop_last.
Qed.

Lemma find_ext {A} (f g : A -> bool) (l : list A) :
  (forall x, f x = g x) -> find f l = find g l.
Proof.
  intros H. induction l as [|x l IH]; [reflexivity|]. simpl.
  now rewrite H, IH.
Qed.

Section SelectorFacts.

Variable E : Engine.
Variable Number_toString : spec_float -> string.
Variable XLSX_read : File -> Error + list string.
Variable XLSX_sheet_to_json : File -> string -> Error + list (JSArray Cell).
Variable Number_of_string : string -> spec_float.
Variable size_label : File -> string.

(** ** One selection of files *)

Lemma handleFileSelect_loop_app (register : File -> App E -> App E)
  (validFiles : list File) : forall u : FileSelector.UI E,
  FileSelector.app E
    (snd (FileSelector.handleFileSelect_loop E XLSX_read register validFiles u))
  = handleFileSelect_loop E register validFiles (FileSelector.app E u).
Proof.
  induction validFiles as [|f rest IH]; intros u; [reflexivity|].
  simpl. destruct (is_excel (file_ext (file_name f))).
  - now destruct (XLSX_read f).
  - now rewrite IH.
Qed.

Lemma handleFileSelect_loop_outcome (register : File -> App E -> App E)
  (validFiles : list File) : forall u : FileSelector.UI E,
  match FileSelector.handleFileSelect_loop E XLSX_read register validFiles u with
  | (r, u') =>
      FileSelector.app E u'
      = fold_left (fun a f => register f a) (before_spreadsheet validFiles)
          (FileSelector.app E u)
      /\ FileSelector.selectedFiles (FileSelector.sel E u')
         = (FileSelector.selectedFiles (FileSelector.sel E u)
            ++ before_spreadsheet validFiles)%list
      /\ FileSelector.selectedSheets (FileSelector.sel E u')
         = FileSelector.selectedSheets (FileSelector.sel E u)
      /\ match first_spreadsheet validFiles with
         | None =>
             r = inr tt
             /\ FileSelector.excelSheetModal (FileSelector.sel E u')
                = FileSelector.excelSheetModal (FileSelector.sel E u)
         | Some x =>
             match XLSX_read x with
             | inr sheetNames =>
                 r = inr tt
                 /\ FileSelector.excelSheetModal (FileSelector.sel E u')
                    = Some (x, sheetNames)
             | inl e =>
                 r = inl e
                 /\ FileSelector.excelSheetModal (FileSelector.sel E u')
                    = FileSelector.excelSheetModal (FileSelector.sel E u)
             end
         end
  end.
Proof.
  induction validFiles as [|f rest IH]; intros u.
  - simpl. rewrite app_nil_r. auto.
  - simpl. destruct (is_excel (file_ext (file_name f))).
    + destruct (XLSX_read f) as [e|names]; simpl; rewrite app_nil_r; auto.
    + specialize (IH {| FileSelector.sel :=
                          FileSelector.setSelectedFiles
                            (fun prev => prev ++ [f])%list (FileSelector.sel E u);
                        FileSelector.app := register f (FileSelector.app E u) |}).
      destruct (FileSelector.handleFileSelect_loop E XLSX_read register rest _)
        as [r u'].
      cbn [FileSelector.app FileSelector.sel FileSelector.setSelectedFiles
           FileSelector.selectedFiles FileSelector.selectedSheets
           FileSelector.excelSheetModal] in IH.
      destruct IH as (Ha & Hs & Hsh & Hm). simpl.
      rewrite <- app_assoc in Hs. auto.
Qed.

(** X13. One selection of files: files of other types are
    ignored, and when no file is left nothing changes, not even the error
    shown. Otherwise the error is cleared, and the valid files that come
    before the first spreadsheet are handed to [registerFile] in order and
    every one of them is added to the list of selected files, whatever
    [registerFile] made of it. The first spreadsheet opens the sheet
    picker with its sheet names (or, when it cannot be read, ends the
    handler with the parser's error); the files after it are neither
    ingested nor listed. *)
Theorem handleFileSelect_lists_every_attempted_file
  (render : ProviderState) (files : list File) (u : FileSelector.UI E) :
  let valid := filter is_valid_file files in
  let attempted := before_spreadsheet valid in
  match FileSelector.handleFileSelect E Number_toString XLSX_read render files u with
  | (r, u') =>
      FileSelector.app E u'
      = handleFileSelect E Number_toString render files (FileSelector.app E u)
      /\ match valid with
         | [] => r = inr tt /\ u' = u
         | _ :: _ =>
             FileSelector.app E u'
             = fold_left (fun a f => registerFile E Number_toString render f a)
                 attempted (clearError (FileSelector.app E u))
             /\ FileSelector.selectedFiles (FileSelector.sel E u')
                = (FileSelector.selectedFiles (FileSelector.sel E u)
                   ++ attempted)%list
             /\ match first_spreadsheet valid with
                | None =>
                    r = inr tt
                    /\ FileSelector.excelSheetModal (FileSelector.sel E u')
                       = FileSelector.excelSheetModal (FileSelector.sel E u)
                | Some x =>
                    match XLSX_read x with
                    | inr sheetNames =>
                        r = inr tt
                        /\ FileSelector.excelSheetModal (FileSelector.sel E u')
                           = Some (x, sheetNames)
                    | inl e =>
                        r = inl e
                        /\ FileSelector.excelSheetModal (FileSelector.sel E u')
                           = FileSelector.excelSheetModal (FileSelector.sel E u)
                    end
                end
         end
  end.
Proof.
  intros valid attempted. subst attempted.
  unfold FileSelector.handleFileSelect, handleFileSelect. fold valid.
  destruct valid as [|f rest] eqn:Hv.
  - auto.
  - set (u0 := {| FileSelector.sel := FileSelector.sel E u;
                  FileSelector.app := clearError (FileSelector.app E u) |}).
    pose proof (handleFileSelect_loop_app (registerFile E Number_toString render)
                  (f :: rest) u0) as Happ.
    pose proof (handleFileSelect_loop_outcome
                  (registerFile E Number_toString render) (f :: rest) u0) as Hout.
    destruct (FileSelector.handleFileSelect_loop E XLSX_read _ (f :: rest) u0)
      as [r u'].
    cbn [snd] in Happ. destruct Hout as (Ha & Hs & _ & Hm).
    split; [exact Happ|]. split; [exact Ha|]. split; [exact Hs|exact Hm].
Qed.

(** ** Import of the picked sheets *)

Lemma import_loop_outcome (register : File -> App E -> App E) (f : File)
  (sheets : list string) : forall u : FileSelector.UI E,
  match FileSelector.import_loop E XLSX_sheet_to_json register f sheets u,
        import_plan (XLSX_sheet_to_json f) sheets with
  | (r, u'), (imported, thrown) =>
      FileSelector.app E u'
      = fold_left (fun a s => register (FileSelector.sheetFile f s) a) imported
          (FileSelector.app E u)
      /\ FileSelector.selectedFiles (FileSelector.sel E u')
         = (FileSelector.selectedFiles (FileSelector.sel E u)
            ++ map (FileSelector.sheetFile f) imported)%list
      /\ FileSelector.excelSheetModal (FileSelector.sel E u')
         = FileSelector.excelSheetModal (FileSelector.sel E u)
      /\ FileSelector.selectedSheets (FileSelector.sel E u')
         = FileSelector.selectedSheets (FileSelector.sel E u)
      /\ r = match thrown with
             | Some e => inl e
             | None => inr tt
             end
  end.
Proof.
  induction sheets as [|s rest IH]; intros u.
  - simpl. rewrite app_nil_r. auto.
  - simpl. destruct (XLSX_sheet_to_json f s) as [e|[|row grid]].
    + simpl. rewrite app_nil_r. auto.
    + apply IH.
    + specialize (IH {| FileSelector.sel :=
                          FileSelector.setSelectedFiles
                            (fun prev => prev ++ [FileSelector.sheetFile f s])%list
                            (FileSelector.sel E u);
                        FileSelector.app :=
                          register (FileSelector.sheetFile f s)
                            (FileSelector.app E u) |}).
      destruct (FileSelector.import_loop E XLSX_sheet_to_json register f rest _)
        as [r u'].
      destruct (import_plan (XLSX_sheet_to_json f) rest) as [imported thrown].
      cbn [FileSelector.app FileSelector.sel FileSelector.setSelectedFiles
           FileSelector.selectedFiles FileSelector.selectedSheets
           FileSelector.excelSheetModal] in IH.
      destruct IH as (Ha & Hs & Hm & Hsh & Hr). simpl.
      rewrite <- app_assoc in Hs. auto.
Qed.

(** X14. [handleExcelSheetImport] does nothing without an
    open sheet picker. With one, every selected sheet whose grid is not
    empty, in the order of the selection, is handed to [registerFile] as a
    file of its own, named after the workbook and the sheet with the
    extension [.xlsx], and listed among the selected files whatever
    [registerFile] made of it; sheets with an empty grid are skipped. When
    the loop ends the picker is closed and the selection of sheets
    emptied; when the parser throws on the workbook or on a sheet, the
    handler ends there with that error and the picker stays open. *)
Theorem handleExcelSheetImport_outcome
  (render : ProviderState) (seen : FileSelector.State) (u : FileSelector.UI E) :
  match FileSelector.handleExcelSheetImport E Number_toString XLSX_read
          XLSX_sheet_to_json render seen u with
  | (r, u') =>
      match FileSelector.excelSheetModal seen with
      | None => r = inr tt /\ u' = u
      | Some (f, _) =>
          match XLSX_read f with
          | inl e => r = inl e /\ u' = u
          | inr _ =>
              match import_plan (XLSX_sheet_to_json f)
                      (FileSelector.selectedSheets seen) with
              | (imported, thrown) =>
                  FileSelector.app E u'
                  = fold_left
                      (fun a s => registerFile E Number_toString render
                                    (FileSelector.sheetFile f s) a)
                      imported (FileSelector.app E u)
                  /\ FileSelector.selectedFiles (FileSelector.sel E u')
                     = (FileSelector.selectedFiles (FileSelector.sel E u)
                        ++ map (FileSelector.sheetFile f) imported)%list
                  /\ Forall (fun s => file_ext (file_name (FileSelector.sheetFile f s))
                                      = "xlsx") imported
                  /\ match thrown with
                     | Some e =>
                         r = inl e
                         /\ FileSelector.excelSheetModal (FileSelector.sel E u')
                            = FileSelector.excelSheetModal (FileSelector.sel E u)
                         /\ FileSelector.selectedSheets (FileSelector.sel E u')
                            = FileSelector.selectedSheets (FileSelector.sel E u)
                     | None =>
                         r = inr tt
                         /\ FileSelector.excelSheetModal (FileSelector.sel E u')
                            = None
                         /\ FileSelector.selectedSheets (FileSelector.sel E u') = []
                     end
              end
          end
      end
  end.
Proof.
  unfold FileSelector.handleExcelSheetImport.
  destruct (FileSelector.excelSheetModal seen) as [[f names]|]; [|auto].
  destruct (XLSX_read f) as [e|_]; [auto|].
  pose proof (import_loop_outcome (registerFile E Number_toString render) f
                (FileSelector.selectedSheets seen) u) as H.
  destruct (FileSelector.import_loop E XLSX_sheet_to_json _ f _ u) as [r u'].
  destruct (import_plan (XLSX_sheet_to_json f) (FileSelector.selectedSheets seen))
    as [imported thrown].
  destruct H as (Ha & Hs & Hm & Hsh & Hr).
  assert (Hext : Forall (fun s => file_ext (file_name (FileSelector.sheetFile f s))
                                  = "xlsx") imported).
  { apply Forall_forall. intros s _. apply sheetFile_ext. }
  destruct thrown as [e|]; subst r; simpl; auto 10.
Qed.

(** X15. The file [handleExcelSheetImport] builds for a
    sheet holds the bytes of the whole workbook, and [registerFileAsTable]
    reads the first sheet of the workbook it is given: whichever sheet was
    picked, the table is created with the columns of the header row of the
    workbook's first sheet and filled with the data rows of that sheet. The
    sheet's name decides the name of the file and nothing else. *)
Theorem imported_sheet_holds_the_first_sheet
  (f : File) (sheetName tableName : string) (headers : JSArray Cell)
  (rows : list (JSArray Cell)) (w : World E) :
  initialized w = true ->
  body f = Workbook (headers :: rows) ->
  registerFileAsTable E Number_toString (FileSelector.sheetFile f sheetName)
    tableName w
  = bind (conn_query (CreateTable tableName (header_columns Number_toString headers)))
      (fun _ => for_of rows (insert_row E Number_toString tableName headers)) w
  /\ forall other,
       registerFileAsTable E Number_toString (FileSelector.sheetFile f other)
         tableName w
       = registerFileAsTable E Number_toString (FileSelector.sheetFile f sheetName)
           tableName w.
Proof.
  intros Hinit Hbody.
  assert (H : forall s,
            registerFileAsTable E Number_toString (FileSelector.sheetFile f s)
              tableName w
            = bind (conn_query (CreateTable tableName
                                  (header_columns Number_toString headers)))
                (fun _ => for_of rows
                            (insert_row E Number_toString tableName headers)) w).
  { intros s. apply registerFileAsTable_xlsx; trivial.
    now rewrite sheetFile_ext. }
  split; [apply H|]. intros other. now rewrite !H.
Qed.

(** ** Exploring a file *)

Lemma explore_table_by_prefix (f : File) (tables : list TableInfo) :
  FileSelector.explore_table f tables
  = find (fun t => JSString.startsWith (fileName t)
                     (JSText.strip_extension (file_name f))) tables.
Proof.
  unfold FileSelector.explore_table. apply find_ext. intros t.
  destruct (String.eqb_spec (fileName t) (file_name f)) as [->|_]; [|reflexivity].
  simpl. unfold JSString.startsWith. now rewrite strip_extension_prefix.
Qed.

Lemma find_first {A} (p : A -> bool) (l : list A) :
  match find p l with
  | Some x =>
      exists before after,
        l = (before ++ x :: after)%list /\ p x = true
        /\ forallb (fun y => negb (p y)) before = true
  | None => forallb (fun y => negb (p y)) l = true
  end.
Proof.
  induction l as [|y l IH]; [reflexivity|]. simpl.
  destruct (p y) eqn:Hy.
  - exists [], l. auto.
  - destruct (find p l) as [x|].
    + destruct IH as (before & after & -> & Hx & Hb).
      exists (y :: before), after. simpl. rewrite Hy. auto.
    + simpl. exact IH.
Qed.

(** X16. The record [handleExploreFile] describes is the
    first record of the registry, in registration order, whose source file
    name begins with the explored file's name without its extension. When
    the file has a record of its own, a record is found; it is the file's
    own only if no record registered earlier has a source file name that
    begins the same way. *)
Theorem handleExploreFile_takes_first_prefix_match
  (f : File) (tables : list TableInfo) :
  let baseName := JSText.strip_extension (file_name f) in
  let matches t := JSString.startsWith (fileName t) baseName in
  JSString.startsWith (file_name f) baseName = true
  /\ match FileSelector.explore_table f tables with
     | Some table =>
         exists before after,
           tables = (before ++ table :: after)%list
           /\ matches table = true
           /\ forallb (fun t => negb (matches t)) before = true
     | None =>
         forallb (fun t => negb (matches t)) tables = true
         /\ forallb (fun t => negb (String.eqb (fileName t) (file_name f))) tables
            = true
     end.
Proof.
  intros baseName matches.
  assert (Hown : JSString.startsWith (file_name f) baseName = true)
    by apply strip_extension_prefix.
  split; [exact Hown|].
  rewrite explore_table_by_prefix. fold baseName.
  change (fun t => JSString.startsWith (fileName t) baseName) with matches.
  pose proof (find_first matches tables) as H.
  destruct (find matches tables) as [table|]; [exact H|].
  split; [exact H|].
  rewrite forallb_forall in *. intros t Ht. specialize (H t Ht).
  destruct (String.eqb_spec (fileName t) (file_name f)) as [Heq|_]; [|reflexivity].
  unfold matches in H. rewrite Heq, Hown in H. discriminate.
Qed.

Lemma map_throwing_length {A B} (g : A -> Error + B) (xs : list A) :
  forall ys, FileSelector.map_throwing g xs = inr ys ->
             List.length ys = List.length xs.
Proof.
  induction xs as [|x xs IH]; intros ys H.
  - injection H as <-. reflexivity.
  - simpl in H. destruct (g x) as [e|y]; [discriminate|].
    destruct (FileSelector.map_throwing g xs) as [e|ys']; [discriminate|].
    injection H as <-. simpl. f_equal. now apply IH.
Qed.

(** X17. [handleExploreFile] leaves the provider's state alone:
    the registry, the result held and the error shown stay as they are,
    and so does the list of selected files. Without a matching record it
    does nothing. With one it sends the [DESCRIBE] of the record's table
    and then, only if that one was answered and read, the row count query,
    both through [runQuery]; the dialog ends up no longer loading, with
    either the details (as many columns counted as names listed) or the
    message of the first error, never both. *)
Theorem handleExploreFile_outcome
  (tables : list TableInfo) (f : File) (u : FileSelector.UI E) :
  let u' := FileSelector.handleExploreFile E Number_toString Number_of_string
              size_label tables f u in
  ui (FileSelector.app E u') = ui (FileSelector.app E u)
  /\ FileSelector.selectedFiles (FileSelector.sel E u')
     = FileSelector.selectedFiles (FileSelector.sel E u)
  /\ match FileSelector.explore_table f tables with
     | None => u' = u
     | Some table =>
         let describe := UserSql ("DESCRIBE " ++ name table) in
         let count := UserSql (count_rows_sql (name table)) in
         exists m new,
           FileSelector.exploreModal (FileSelector.sel E u') = Some m
           /\ FileSelector.tableName m = name table
           /\ FileSelector.file m = f
           /\ FileSelector.loading m = false
           /\ sent (world (FileSelector.app E u'))
              = (sent (world (FileSelector.app E u)) ++ new)%list
           /\ match FileSelector.details m with
              | Some d =>
                  FileSelector.error m = None
                  /\ new = [describe; count]
                  /\ FileSelector.columnCount d
                     = List.length (FileSelector.columns d)
                  /\ FileSelector.fileSizeMB d = size_label f
              | None =>
                  (exists msg, FileSelector.error m = Some msg)
                  /\ (new = [] \/ new = [describe] \/ new = [describe; count])
                  /\ (initialized (world (FileSelector.app E u)) = true ->
                      new <> [])
              end
     end.
Proof.
  intros u'. subst u'. unfold FileSelector.handleExploreFile.
  destruct (FileSelector.explore_table f tables) as [table|]; [|auto].
  unfold FileSelector.explore_details.
  set (w := world (FileSelector.app E u)).
  pose proof (runQuery_sent E ("DESCRIBE " ++ name table) w) as Hs1.
  pose proof (runQuery_initialized E ("DESCRIBE " ++ name table) w) as Hi1.
  destruct (runQuery E ("DESCRIBE " ++ name table) w) as [[e1|describeRes] w1]
    eqn:Hq1; cbn [snd] in Hs1, Hi1.
  { split; [reflexivity|]. split; [reflexivity|].
    eexists. exists (if initialized w then [UserSql ("DESCRIBE " ++ name table)]
                     else []).
    cbn. repeat split; try (eexists; reflexivity).
    - rewrite Hs1. destruct (initialized w); [reflexivity|now rewrite app_nil_r].
    - destruct (initialized w); auto.
    - intros Hw. now rewrite Hw. }
  pose proof (runQuery_success_initialized E _ _ _ _ Hq1) as Hw.
  rewrite Hw in *.
  destruct (FileSelector.describe_columns Number_toString (rows describeRes))
    as [e2|cols].
  { split; [reflexivity|]. split; [reflexivity|].
    eexists. exists [UserSql ("DESCRIBE " ++ name table)].
    cbn. repeat split; try (eexists; reflexivity); auto. discriminate. }
  pose proof (runQuery_sent E (count_rows_sql (name table)) w1) as Hs2.
  rewrite Hi1 in Hs2.
  destruct (runQuery E (count_rows_sql (name table)) w1) as [[e3|countRes] w2];
    cbn [snd] in Hs2.
  { split; [reflexivity|]. split; [reflexivity|].
    eexists. exists [UserSql ("DESCRIBE " ++ name table);
                     UserSql (count_rows_sql (name table))].
    cbn. rewrite Hs2, Hs1, <- app_assoc.
    repeat split; try (eexists; reflexivity); auto. discriminate. }
  destruct (FileSelector.count_of Number_toString Number_of_string (rows countRes))
    as [e4|n].
  { split; [reflexivity|]. split; [reflexivity|].
    eexists. exists [UserSql ("DESCRIBE " ++ name table);
                     UserSql (count_rows_sql (name table))].
    cbn. rewrite Hs2, Hs1, <- app_assoc.
    repeat split; try (eexists; reflexivity); auto. discriminate. }
  split; [reflexivity|]. split; [reflexivity|].
  eexists. exists [UserSql ("DESCRIBE " ++ name table);
                   UserSql (count_rows_sql (name table))].
  cbn. rewrite Hs2, Hs1, <- app_assoc. repeat split.
Qed.

End SelectorFacts.

(** On the reference engine: the second sheet of a workbook is picked, and
    the table gets the column and the row of the first. *)
Definition two_sheet_book : File :=
  {| file_name := "book.xlsx";
     body := Workbook [[Ex.str "a"]; [Ex.str "1"]] |}.

Lemma imported_sheet_holds_the_first_sheet_witness :
  initialized (world Ex.ready) = true
  /\ body two_sheet_book = Workbook [[Ex.str "a"]; [Ex.str "1"]]
  /\ file_name (FileSelector.sheetFile two_sheet_book "Second") = "book_Second.xlsx"
  /\ map sql_text
       (sent (snd (registerFileAsTable ref_engine Ex.N
                     (FileSelector.sheetFile two_sheet_book "Second") "t"
                     (world Ex.ready))))
     = ["CREATE TABLE t (" ++ JSString.dquote ++ "a" ++ JSString.dquote ++ " VARCHAR)";
        "INSERT INTO t VALUES ('1')"].
Proof.
  split; [reflexivity|]. split; [reflexivity|]. split; [reflexivity|].
  rewrite (proj1 (imported_sheet_holds_the_first_sheet ref_engine Ex.N
                    two_sheet_book "Second" "t" [Ex.str "a"] [[Ex.str "1"]]
                    (world Ex.ready) eq_refl eq_refl)).
  reflexivity.
Defined.

(** What the pattern removes from a name. *)
Example strip_extension_cases :
  JSText.strip_extension "report.final.xlsx" = "report.final"
  /\ JSText.strip_extension "notes" = "notes"
  /\ JSText.strip_extension "archive." = "archive."
  /\ JSText.strip_extension ".hidden" = "".
Proof. repeat split. Qed.

(** Two files whose names begin alike, the longer one registered first:
    exploring data.csv describes the table of data_old.csv. *)
Example explore_finds_the_earlier_table :
  FileSelector.explore_table
    {| file_name := "data.csv"; body := Unreadable |}
    [{| name := "file_csv_data_old"; fileType := "csv"; fileName := "data_old.csv" |};
     {| name := "file_csv_data"; fileType := "csv"; fileName := "data.csv" |}]
  = Some {| name := "file_csv_data_old"; fileType := "csv";
            fileName := "data_old.csv" |}.
Proof. reflexivity. Qed.

(* ===================================================================== *)
(** * Initialization, one call at a time *)
(* ===================================================================== *)

(** X10. A call of [initDuckDB] that no other call overlaps.
    When [db] and [conn] are both set it returns them and creates nothing.
    Otherwise, when the selected bundle has no main worker, it rejects and
    still creates nothing; else it creates one worker and one database and
    makes [db] that database, and then either resolves with that database
    and a connection opened on it, which becomes [conn], or, when
    [instantiate] or [connect] rejects, rejects itself and leaves [conn] as
    it was, the worker and the database staying behind. In every case the
    call has settled after its three awaits. *)
Theorem initDuckDB_alone_outcome (env : Init.Env) (l : Init.Lib) :
  match Init.db l, Init.conn l with
  | Some d, Some k => ProviderInit.initDuckDB_alone env l = (Init.Resolved d k, l)
  | _, _ =>
      if Init.bundle_has_mainWorker env then
        match ProviderInit.initDuckDB_alone env l with
        | (c, l') =>
            Init.workers l' = S (Init.workers l)
            /\ Init.databases l' = S (Init.databases l)
            /\ Init.db l' = Some (Init.databases l)
            /\ if Init.instantiate_resolves env && Init.connect_resolves env
               then c = Init.Resolved (Init.databases l)
                          (List.length (Init.connections l))
                    /\ Init.conn l' = Some (List.length (Init.connections l))
                    /\ Init.connections l'
                       = (Init.connections l ++ [Init.databases l])%list
               else (exists msg, c = Init.Rejected msg)
                    /\ Init.conn l' = Init.conn l
                    /\ Init.connections l' = Init.connections l
        end
      else
        ProviderInit.initDuckDB_alone env l
        = (Init.Rejected "No mainWorker found in selected DuckDB bundle", l)
  end.
Proof.
  unfold ProviderInit.initDuckDB_alone.
  destruct l as [d c wk dbs cs]. cbn [Init.db Init.conn].
  destruct d as [d|], c as [k|]; simpl;
    try reflexivity;
    destruct (Init.bundle_has_mainWorker env); simpl; try reflexivity;
    destruct (Init.instantiate_resolves env); simpl;
    try (repeat split; eexists; reflexivity);
    destruct (Init.connect_resolves env); simpl;
    repeat split; eexists; reflexivity.
Qed.

Lemma initDuckDB_alone_settles (env : Init.Env) (l : Init.Lib) :
  match fst (ProviderInit.initDuckDB_alone env l) with
  | Init.Resolved d k =>
      Init.db (snd (ProviderInit.initDuckDB_alone env l)) = Some d
      /\ Init.conn (snd (ProviderInit.initDuckDB_alone env l)) = Some k
  | Init.Rejected _ =>
      Init.conn (snd (ProviderInit.initDuckDB_alone env l)) = Init.conn l
  | _ => False
  end.
Proof.
  unfold ProviderInit.initDuckDB_alone.
  destruct l as [d c wk dbs cs].
  destruct d as [d|], c as [k|]; simpl; auto;
    destruct (Init.bundle_has_mainWorker env); simpl; auto;
    destruct (Init.instantiate_resolves env); simpl; auto;
    destruct (Init.connect_resolves env); simpl; auto.
Qed.

(** X11. [initializeDuckDB] of a render that saw the
    session initialized does nothing. Otherwise it ends with [isLoading]
    false and with the registry and the held result untouched; when
    [initDuckDB] resolved, [isInitialized] is true, no error is shown and
    the library holds a database and a connection; when it rejected, the
    error shown is the rejection's message and [isInitialized] is as it
    was. *)
Theorem initializeDuckDB_outcome
  (env : Init.Env) (render s : ProviderState) (l : Init.Lib) :
  match ProviderInit.initializeDuckDB env render s l with
  | (s', l') =>
      if isInitialized render then s' = s /\ l' = l
      else
        isLoading s' = false
        /\ tables s' = tables s
        /\ queryResult s' = queryResult s
        /\ isQueryRunning s' = isQueryRunning s
        /\ l' = snd (ProviderInit.initDuckDB_alone env l)
        /\ match fst (ProviderInit.initDuckDB_alone env l) with
           | Init.Resolved d k =>
               isInitialized s' = true /\ error s' = None
               /\ Init.db l' = Some d /\ Init.conn l' = Some k
           | Init.Rejected msg =>
               isInitialized s' = isInitialized s /\ error s' = Some msg
               /\ Init.conn l' = Init.conn l
           | _ => False
           end
  end.
Proof.
  unfold ProviderInit.initializeDuckDB.
  destruct (isInitialized render); [auto|].
  pose proof (initDuckDB_alone_settles env l) as H.
  destruct (ProviderInit.initDuckDB_alone env l) as [c l'].
  cbn [fst snd] in *.
  destruct c; try contradiction; simpl; repeat split; tauto.
Qed.

(** X12. An initialization that fails after its worker was
    created is not taken up again: [conn] is still unset, so the next call
    of [initDuckDB] passes the guard and creates a second worker and a
    second database, and [db] is made to point at the new one. Nothing in
    the module ends a worker, so the first one stays. *)
Theorem failed_initialization_is_not_resumed (env1 env2 : Init.Env) (l : Init.Lib) :
  Init.conn l = None ->
  Init.bundle_has_mainWorker env1 = true ->
  Init.instantiate_resolves env1 && Init.connect_resolves env1 = false ->
  Init.bundle_has_mainWorker env2 = true ->
  let '(c1, l1) := ProviderInit.initDuckDB_alone env1 l in
  let '(c2, l2) := ProviderInit.initDuckDB_alone env2 l1 in
  (exists msg, c1 = Init.Rejected msg)
  /\ Init.workers l2 = S (S (Init.workers l))
  /\ Init.databases l2 = S (S (Init.databases l))
  /\ Init.db l1 = Some (Init.databases l)
  /\ Init.db l2 = Some (S (Init.databases l))
  /\ (Init.instantiate_resolves env2 && Init.connect_resolves env2 = true ->
      c2 = Init.Resolved (S (Init.databases l)) (List.length (Init.connections l))).
Proof.
  intros Hc Hb1 Hf Hb2. unfold ProviderInit.initDuckDB_alone.
  destruct l as [d c wk dbs cs]. cbn [Init.conn] in Hc. subst c.
  destruct env1 as [b1 i1 c1], env2 as [b2 i2 c2].
  cbn [Init.bundle_has_mainWorker Init.instantiate_resolves
       Init.connect_resolves] in *.
  subst b1 b2.
  destruct d as [d|], i1, c1; try discriminate; simpl;
    destruct i2, c2; simpl;
    (split; [eexists; reflexivity|]); repeat split; try discriminate.
Qed.

(** From a fresh module: [instantiate] rejects once, then everything
    resolves. Two workers and two databases exist; the session uses the
    second database. *)
Lemma failed_initialization_is_not_resumed_witness :
  let failing := {| Init.bundle_has_mainWorker := true;
                    Init.instantiate_resolves := false;
                    Init.connect_resolves := true |} in
  Init.conn Init.fresh = None
  /\ Init.workers
       (snd (ProviderInit.initDuckDB_alone Init.all_resolve
               (snd (ProviderInit.initDuckDB_alone failing Init.fresh)))) = 2%nat
  /\ fst (ProviderInit.initDuckDB_alone Init.all_resolve
            (snd (ProviderInit.initDuckDB_alone failing Init.fresh)))
     = Init.Resolved 1 0.
Proof.
  intros failing. split; [reflexivity|].
  pose proof (failed_initialization_is_not_resumed failing Init.all_resolve
                Init.fresh eq_refl eq_refl eq_refl eq_refl) as H.
  destruct (ProviderInit.initDuckDB_alone failing Init.fresh) as [c1 l1].
  cbn [fst snd].
  destruct (ProviderInit.initDuckDB_alone Init.all_resolve l1) as [c2 l2].
  cbn [fst snd].
  destruct H as (_ & Hw & _ & _ & _ & Hres).
  split; [exact Hw|]. exact (Hres eq_refl).
Defined.

(* ===================================================================== *)
(** * Table names *)
(* ===================================================================== *)

(** X8. The name [generateTableName] makes for a file of an
    accepted type (csv, parquet, xlsx, xls) consists of letters, digits and
    underscores only and begins with [file_], whatever characters the
    file's name holds: it can stand in a statement as it is, which is how
    the code uses it. It is the name of no record of the registry the
    render saw. The same holds for any extension made of such
    characters. *)
Theorem generateTableName_is_a_fresh_identifier
  (tables : list TableInfo) (fileName ext : string) :
  is_word ext = true ->
  is_word (generateTableName tables fileName ext) = true
  /\ String.prefix "file_" (generateTableName tables fileName ext) = true
  /\ ~ In (generateTableName tables fileName ext) (map name tables)
  /\ forall f,
       is_valid_file f = true ->
       is_word (generateTableName tables (file_name f) (file_ext (file_name f)))
       = true.
Proof.
  assert (Hword : forall fn e,
            is_word e = true -> is_word (generateTableName tables fn e) = true).
  { intros fn e He.
    destruct (generateTableName_spec tables fn e) as (k & -> & _).
    apply is_word_candidate. unfold generateTableName_base.
    rewrite !is_word_app, He, is_word_sanitize. reflexivity. }
  intros Hext. split; [now apply Hword|]. split; [|split].
  - destruct (generateTableName_spec tables fileName ext) as (k & -> & _).
    unfold generateTableName_base, candidate.
    destruct k; [|rewrite string_app_assoc]; apply prefix_append.
  - apply generateTableName_fresh.
  - intros f Hf. apply Hword. apply valid_file_ext in Hf.
    simpl in Hf. destruct Hf as [<-|[<-|[<-|[<-|[]]]]]; reflexivity.
Qed.

Lemma generateTableName_is_a_fresh_identifier_witness :
  is_word "csv" = true
  /\ generateTableName [{| name := "file_csv_my_data__1_"; fileType := "csv";
                           fileName := "my data (1).csv" |}]
       "my data (1).csv" "csv"
     = "file_csv_my_data__1__1"
  /\ is_word (generateTableName
                [{| name := "file_csv_my_data__1_"; fileType := "csv";
                    fileName := "my data (1).csv" |}]
                "my data (1).csv" "csv") = true.
Proof.
  split; [reflexivity|]. split; [reflexivity|].
  exact (proj1 (generateTableName_is_a_fresh_identifier
                  [{| name := "file_csv_my_data__1_"; fileType := "csv";
                      fileName := "my data (1).csv" |}]
                  "my data (1).csv" "csv" eq_refl)).
Defined.

Section SequenceFacts.

Variable E : Engine.
Variable Number_toString : spec_float -> string.

(** X9. When every file is ingested by the
    [registerFile] of the render that follows the previous ingestion (one
    file per selection), the names of the registry stay pairwise distinct
    however many files are ingested and whatever their names are, and
    every record that was in the registry stays in it, in its place. *)
Theorem registry_names_stay_distinct (files : list File) (a : App E) :
  NoDup (map name (tables (ui a))) ->
  let a' := fold_left (fun a f => on_registerFile E Number_toString f a) files a in
  NoDup (map name (tables (ui a')))
  /\ exists added, tables (ui a') = (tables (ui a) ++ added)%list
                   /\ (List.length added <= List.length files)%nat.
Proof.
  revert a. induction files as [|f files IH]; intros a Hnd.
  - simpl. split; [exact Hnd|]. exists []. now rewrite app_nil_r.
  - cbn [fold_left].
    assert (Hnd1 : NoDup (map name
                            (tables (ui (on_registerFile E Number_toString f a))))).
    { destruct (on_registerFile_tables E Number_toString f a)
        as [->|(t & -> & Hfresh)]; [exact Hnd|].
      rewrite map_app. simpl. apply NoDup_app; trivial.
      - constructor; [intros []|constructor].
      - intros x Hx [<-|[]]. contradiction. }
    destruct (IH _ Hnd1) as (Hnd' & added & Hadd & Hlen).
    split; [exact Hnd'|].
    destruct (on_registerFile_tables E Number_toString f a)
      as [Hsame|(t & Hone & _)].
    + exists added. rewrite Hadd, Hsame. split; [reflexivity|simpl; lia].
    + exists (t :: added). rewrite Hadd, Hone, <- app_assoc.
      split; [reflexivity|simpl; lia].
Qed.

End SequenceFacts.

(** On the reference engine: the two files whose names sanitize alike,
    selected one after the other. *)
Lemma registry_names_stay_distinct_witness :
  NoDup (map name (tables (ui Ex.ready)))
  /\ NoDup (map name
              (tables (ui (fold_left
                             (fun a f => on_registerFile ref_engine Ex.N f a)
                             [Ex.people_csv "a-b.csv"; Ex.people_csv "a_b.csv"]
                             Ex.ready))))
  /\ map name
       (tables (ui (fold_left
                      (fun a f => on_registerFile ref_engine Ex.N f a)
                      [Ex.people_csv "a-b.csv"; Ex.people_csv "a_b.csv"]
                      Ex.ready)))
     = ["file_csv_a_b"; "file_csv_a_b_1"].
Proof.
  assert (H0 : NoDup (map name (tables (ui Ex.ready)))) by constructor.
  split; [exact H0|]. split; [|reflexivity].
  exact (proj1 (registry_names_stay_distinct ref_engine Ex.N
                  [Ex.people_csv "a-b.csv"; Ex.people_csv "a_b.csv"]
                  Ex.ready H0)).
Defined.

(* ===================================================================== *)
(** * Header rows of a sheet *)
(* ===================================================================== *)

Section HeaderFacts.

Variable Number_toString : spec_float -> string.

Lemma indexOf_from_first_blank (hs : list (option string)) : forall i,
  In (Some "") hs ->
  JSArr.indexOf_from (cell_strict_eqb) (CellString "")
    (map (option_map CellString) hs) i
  = i + Z.of_nat (first_blank hs).
Proof.
  induction hs as [|[h|] hs IH]; intros i Hin.
  - destruct Hin.
  - cbn [map option_map JSArr.indexOf_from cell_strict_eqb].
    destruct h as [|c h].
    + simpl. lia.
    + cbn [String.eqb first_blank]. rewrite IH.
      * lia.
      * destruct Hin as [Hin|Hin]; [discriminate|exact Hin].
  - cbn [map option_map JSArr.indexOf_from first_blank]. rewrite IH.
    + lia.
    + destruct Hin as [Hin|Hin]; [discriminate|exact Hin].
Qed.

Lemma first_blank_spec (hs : list (option string)) : forall i,
  nth_error hs i = Some (Some "") ->
  (first_blank hs <= i)%nat
  /\ nth_error hs (first_blank hs) = Some (Some "")
  /\ forall j, (j < first_blank hs)%nat -> nth_error hs j <> Some (Some "").
Proof.
  induction hs as [|x hs IH]; intros i Hi.
  - destruct i; discriminate.
  - destruct x as [[|c h]|].
    + simpl. repeat split; [lia|]. intros j Hj. lia.
    + destruct i as [|i]; [discriminate|]. simpl in Hi.
      destruct (IH i Hi) as (Hle & Hnth & Hbefore).
      cbn [first_blank]. repeat split; [lia|exact Hnth|].
      intros [|j] Hj; [discriminate|]. simpl. apply Hbefore. lia.
    + destruct i as [|i]; [discriminate|]. simpl in Hi.
      destruct (IH i Hi) as (Hle & Hnth & Hbefore).
      cbn [first_blank]. repeat split; [lia|exact Hnth|].
      intros [|j] Hj; [discriminate|]. simpl. apply Hbefore. lia.
Qed.

(** X25. In a header row of texts, a header that is not
    empty names its column by its text, and every empty header is named
    [column_<p>] where [p] is the position, counted from 0, of the first
    empty header of the row, not its own position: [indexOf] looks the
    header's value up, and finds the first cell that holds it. Holes of the
    row stay holes. *)
Theorem blank_headers_are_named_after_the_first_blank (hs : list (option string)) :
  header_columns Number_toString (map (option_map CellString) hs)
  = map (option_map
           (fun h =>
              JSString.dquote
              ++ (if String.eqb h "" then
                    "column_" ++ JSString.of_Z (Z.of_nat (first_blank hs))
                  else h)
              ++ JSString.dquote ++ " VARCHAR")) hs
  /\ forall i,
       nth_error hs i = Some (Some "") ->
       (first_blank hs <= i)%nat
       /\ nth_error hs (first_blank hs) = Some (Some "")
       /\ forall j, (j < first_blank hs)%nat -> nth_error hs j <> Some (Some "").
Proof.
  split; [|apply first_blank_spec].
  unfold header_columns, JSArr.map. rewrite map_map.
  apply map_ext_in. intros [h|] Hin; [|reflexivity].
  cbn [option_map]. f_equal. unfold header_column. cbn [cell_truthy cell_toString].
  destruct (String.eqb_spec h "") as [->|Hne]; [|reflexivity].
  cbn [negb]. unfold JSArr.indexOf.
  now rewrite indexOf_from_first_blank.
Qed.

End HeaderFacts.

(** Three empty headers: all of them are column_1. *)
Example three_blank_headers :
  header_columns Ex.N [Ex.str "id"; Ex.str ""; Ex.str "x"; Ex.str ""; Ex.str ""]
  = [Some (JSString.dquote ++ "id" ++ JSString.dquote ++ " VARCHAR");
     Some (JSString.dquote ++ "column_1" ++ JSString.dquote ++ " VARCHAR");
     Some (JSString.dquote ++ "x" ++ JSString.dquote ++ " VARCHAR");
     Some (JSString.dquote ++ "column_1" ++ JSString.dquote ++ " VARCHAR");
     Some (JSString.dquote ++ "column_1" ++ JSString.dquote ++ " VARCHAR")].
Proof. reflexivity. Qed.
